(** * notion-md-gen: a shallow embedding of the sync orchestrator, the sync
    cache and the block-to-Markdown renderer, with the properties of the
    specification stated over it.

    Go strings are byte sequences: they are modelled by [string], whose
    characters are the 256 byte values.  Go's [int] and [rune] are modelled
    by [Z].  Functions of the Go standard library are named after their
    package ([strings_ToLower], [filepath_Join], [os_MkdirAll]).

    The file system is explicit state, threaded through every function
    that touches it; errors are values.  What the program prints on the
    terminal is left out.  The collaborators outside the program (network,
    Notion client, template engine, YAML and JSON encoders, the Unicode
    case table) are parameters. *)

From Stdlib Require Import ZArith Ascii String List Bool Lia.
From stdpp Require Import gmap strings list fin_maps.

Local Open Scope Z_scope.

(** ** Bytes and strings *)

Definition byteZ (c : ascii) : Z := Z.of_N (N_of_ascii c).
Definition Zbyte (z : Z) : ascii := ascii_of_N (Z.to_N z).

Fixpoint string_map (f : ascii -> ascii) (s : string) : string :=
  match s with
  | EmptyString => EmptyString
  | String c s' => String (f c) (string_map f s')
  end.

Fixpoint string_forallb (f : ascii -> bool) (s : string) : bool :=
  match s with
  | EmptyString => true
  | String c s' => f c && string_forallb f s'
  end.

Fixpoint string_rev_app (s acc : string) : string :=
  match s with
  | EmptyString => acc
  | String c s' => string_rev_app s' (String c acc)
  end.

Definition string_eqb (a b : string) : bool := bool_decide (a = b).

(** [strings.HasPrefix]. *)
Fixpoint strings_HasPrefix (s prefix : string) : bool :=
  match prefix, s with
  | EmptyString, _ => true
  | String p prefix', String c s' => bool_decide (p = c) && strings_HasPrefix s' prefix'
  | String _ _, EmptyString => false
  end.

(** [strings.Contains]: [substr] occurs in [s] as a contiguous byte run. *)
Fixpoint strings_Contains (s substr : string) : bool :=
  strings_HasPrefix s substr ||
  match s with
  | EmptyString => false
  | String _ s' => strings_Contains s' substr
  end.

(** [strings.ReplaceAll] for a non-empty [old]: a left-to-right scan that
    replaces non-overlapping occurrences.  [skip] counts the bytes of the
    occurrence just replaced that are still to be dropped.  (For an empty
    [old] Go inserts [new] at every rune boundary; the program never calls
    it that way and the scan below leaves the string unchanged.) *)
Fixpoint strings_ReplaceAll_from (skip : nat) (s old new : string) : string :=
  match s with
  | EmptyString => EmptyString
  | String c s' =>
      match skip with
      | S k => strings_ReplaceAll_from k s' old new
      | O =>
          if negb (string_eqb old EmptyString) && strings_HasPrefix s old
          then new +:+ strings_ReplaceAll_from (Nat.pred (String.length old)) s' old new
          else String c (strings_ReplaceAll_from O s' old new)
      end
  end.

Definition strings_ReplaceAll (s old new : string) : string :=
  strings_ReplaceAll_from O s old new.

(** [strings.Split(s, sep)] for a one-byte separator. *)
Fixpoint strings_Split_byte (s : string) (sep : ascii) (cur : string) : list string :=
  match s with
  | EmptyString => [string_rev_app cur EmptyString]
  | String c s' =>
      if bool_decide (c = sep)
      then string_rev_app cur EmptyString :: strings_Split_byte s' sep EmptyString
      else strings_Split_byte s' sep (String c cur)
  end.

Definition strings_Split_slash (s : string) : list string :=
  strings_Split_byte s "/"%char EmptyString.

Definition strings_Split_newline (s : string) : list string :=
  strings_Split_byte s "010"%char EmptyString.

(** [strings.Join]. *)
Fixpoint strings_Join (elems : list string) (sep : string) : string :=
  match elems with
  | [] => EmptyString
  | [e] => e
  | e :: rest => e +:+ sep +:+ strings_Join rest sep
  end.

(** [strings.Repeat]; a negative count panics in Go and gives the empty
    string here. *)
Definition strings_Repeat (s : string) (count : Z) : string :=
  Nat.iter (Z.to_nat count) (fun acc => s +:+ acc) EmptyString.

(** ASCII case mapping, the fast path of [strings.ToLower]. *)
Definition ascii_lower (c : ascii) : ascii :=
  let b := byteZ c in
  if (65 <=? b) && (b <=? 90) then Zbyte (b + 32) else c.

Definition is_ascii (c : ascii) : bool := byteZ c <? 128.

(** [strings.EqualFold(s, t)] for a target [t] made of ASCII letters other
    than k and s (the only ASCII letters with a non-ASCII simple case
    fold): it is byte-wise equality up to ASCII case.  The program calls
    it with the targets "title" and "name" only. *)
Definition strings_EqualFold (s t : string) : bool :=
  string_eqb (string_map ascii_lower s) (string_map ascii_lower t).

(** ** UTF-8, after Go's [unicode/utf8] *)

Definition RuneError : Z := 65533.

Definition is_cont (b : Z) : bool := (128 <=? b) && (b <=? 191).

(** The table [first] with [acceptRanges]: for a leading byte, the length
    of the sequence and the range allowed for the second byte. *)
Definition utf8_first (b0 : Z) : option (Z * Z * Z) :=
  if (194 <=? b0) && (b0 <=? 223) then Some (2, 128, 191)
  else if b0 =? 224 then Some (3, 160, 191)
  else if (225 <=? b0) && (b0 <=? 236) then Some (3, 128, 191)
  else if b0 =? 237 then Some (3, 128, 159)
  else if (238 <=? b0) && (b0 <=? 239) then Some (3, 128, 191)
  else if b0 =? 240 then Some (4, 144, 191)
  else if (241 <=? b0) && (b0 <=? 243) then Some (4, 128, 191)
  else if b0 =? 244 then Some (4, 128, 143)
  else None.

(** [utf8.DecodeRuneInString]: the rune at the head of [s] and its width
    in bytes; an invalid byte decodes as ([RuneError], 1). *)
Definition utf8_DecodeRuneInString (s : string) : Z * nat :=
  match s with
  | EmptyString => (RuneError, O)
  | String c0 s1 =>
      let b0 := byteZ c0 in
      if b0 <? 128 then (b0, 1%nat)
      else
        match utf8_first b0, s1 with
        | Some (sz, lo, hi), String c1 s2 =>
            let b1 := byteZ c1 in
            if (b1 <? lo) || (hi <? b1) then (RuneError, 1%nat)
            else if sz =? 2
            then (Z.lor (Z.shiftl (Z.land b0 31) 6) (Z.land b1 63), 2%nat)
            else
              match s2 with
              | String c2 s3 =>
                  let b2 := byteZ c2 in
                  if negb (is_cont b2) then (RuneError, 1%nat)
                  else if sz =? 3
                  then (Z.lor (Z.shiftl (Z.land b0 15) 12)
                          (Z.lor (Z.shiftl (Z.land b1 63) 6) (Z.land b2 63)), 3%nat)
                  else
                    match s3 with
                    | String c3 _ =>
                        let b3 := byteZ c3 in
                        if negb (is_cont b3) then (RuneError, 1%nat)
                        else (Z.lor (Z.shiftl (Z.land b0 7) 18)
                                (Z.lor (Z.shiftl (Z.land b1 63) 12)
                                   (Z.lor (Z.shiftl (Z.land b2 63) 6) (Z.land b3 63))), 4%nat)
                    | EmptyString => (RuneError, 1%nat)
                    end
              | EmptyString => (RuneError, 1%nat)
              end
        | _, _ => (RuneError, 1%nat)
        end
  end.

Definition bytes3 (a b c : Z) : string :=
  String (Zbyte a) (String (Zbyte b) (String (Zbyte c) EmptyString)).

(** [utf8.AppendRune]: surrogates and out-of-range values are written as
    U+FFFD. *)
Definition utf8_EncodeRune (r : Z) : string :=
  if (0 <=? r) && (r <=? 127) then String (Zbyte r) EmptyString
  else if (0 <=? r) && (r <=? 2047)
  then String (Zbyte (Z.lor 192 (Z.shiftr r 6)))
         (String (Zbyte (Z.lor 128 (Z.land r 63))) EmptyString)
  else if (r <? 0) || (1114111 <? r) || ((55296 <=? r) && (r <=? 57343))
  then bytes3 239 191 189
  else if r <=? 65535
  then bytes3 (Z.lor 224 (Z.shiftr r 12))
         (Z.lor 128 (Z.land (Z.shiftr r 6) 63))
         (Z.lor 128 (Z.land r 63))
  else String (Zbyte (Z.lor 240 (Z.shiftr r 18)))
         (bytes3 (Z.lor 128 (Z.land (Z.shiftr r 12) 63))
            (Z.lor 128 (Z.land (Z.shiftr r 6) 63))
            (Z.lor 128 (Z.land r 63))).

(** [strings.ToValidUTF8]: every maximal run of invalid bytes is replaced
    by one copy of [replacement]; valid sequences are copied.  [copy]
    counts the continuation bytes of the valid sequence being copied and
    [invalid] records that the previous byte was invalid. *)
Fixpoint strings_ToValidUTF8_from (invalid : bool) (copy : nat)
    (s replacement : string) : string :=
  match s with
  | EmptyString => EmptyString
  | String c s' =>
      match copy with
      | S k => String c (strings_ToValidUTF8_from false k s' replacement)
      | O =>
          if byteZ c <? 128
          then String c (strings_ToValidUTF8_from false O s' replacement)
          else
            let wid := snd (utf8_DecodeRuneInString s) in
            if Nat.eqb wid 1
            then (if invalid then EmptyString else replacement)
                   +:+ strings_ToValidUTF8_from true O s' replacement
            else String c (strings_ToValidUTF8_from false (Nat.pred wid) s' replacement)
      end
  end.

Definition strings_ToValidUTF8 (s replacement : string) : string :=
  strings_ToValidUTF8_from false O s replacement.

(** [strings.Map(mapping, s)]: the runes of [s] (an invalid byte counts as
    U+FFFD) are mapped and re-encoded; a negative result drops the rune. *)
Fixpoint strings_Map_from (skip : nat) (mapping : Z -> Z) (s : string) : string :=
  match s with
  | EmptyString => EmptyString
  | String c s' =>
      match skip with
      | S k => strings_Map_from k mapping s'
      | O =>
          let '(r0, wid) := utf8_DecodeRuneInString s in
          let r := mapping r0 in
          (if 0 <=? r then utf8_EncodeRune r else EmptyString)
            +:+ strings_Map_from (Nat.pred wid) mapping s'
      end
  end.

Definition strings_Map (mapping : Z -> Z) (s : string) : string :=
  strings_Map_from O mapping s.

(** ** Formatting *)

(** [fmt.Sprintf] for string operands and the verb %s, the only verb of the
    format strings built by [emphFormat]: each %s is replaced by the next
    operand, "%!s(MISSING)" when none is left; %% is a literal percent
    sign; operands left over are reported in a trailing "%!(EXTRA ...)".
    Any other byte after a percent sign is copied (Go reports a bad verb;
    no format string of the program has one). *)
Fixpoint fmt_Sprintf_from (format : string) (args : list string) : string * list string :=
  match format with
  | EmptyString => (EmptyString, args)
  | String "%"%char (String "s"%char rest) =>
      match args with
      | a :: args' =>
          let '(out, extra) := fmt_Sprintf_from rest args' in (a +:+ out, extra)
      | [] =>
          let '(out, extra) := fmt_Sprintf_from rest [] in
          ("%!s(MISSING)" +:+ out, extra)
      end
  | String "%"%char (String "%"%char rest) =>
      let '(out, extra) := fmt_Sprintf_from rest args in (String "%"%char out, extra)
  | String c rest =>
      let '(out, extra) := fmt_Sprintf_from rest args in (String c out, extra)
  end.

Definition fmt_Sprintf (format : string) (args : list string) : string :=
  let '(out, extra) := fmt_Sprintf_from format args in
  match extra with
  | [] => out
  | _ => out +:+ "%!(EXTRA " +:+
         strings_Join (map (fun a => "string=" +:+ a) extra) ", " +:+ ")"
  end.

(** Decimal digits of a non-negative number, least significant first. *)
Fixpoint digits_rev (fuel : nat) (n : Z) : list Z :=
  match fuel with
  | O => []
  | S fuel' => if n <? 10 then [n] else (n mod 10) :: digits_rev fuel' (n / 10)
  end.

Definition digit_char (d : Z) : ascii := Zbyte (48 + d).

(** [appendInt(x, width)] of package [time]: decimal, zero-padded to
    [width] digits, with a leading minus sign for negative numbers. *)
Definition appendInt (x : Z) (width : nat) : string :=
  let ds := digits_rev (S (Z.to_nat (Z.log2 (Z.abs x)))) (Z.abs x) in
  let padded := ds ++ repeat 0 (width - length ds) in
  let body := fold_left (fun acc d => String (digit_char d) acc) padded EmptyString in
  if x <? 0 then String "-"%char body else body.

Definition itoa (x : Z) : string := appendInt x 0.

(** ** Time, after Go's [time.Time] *)

(** An instant (seconds and nanoseconds since the Unix epoch) with the
    offset, in seconds east of UTC, of the location it is displayed in. *)
Record Time := mkTime { unixSec : Z; nsec : Z; zoneOffset : Z }.

Definition Time_After (t u : Time) : bool :=
  (unixSec u <? unixSec t) || ((unixSec t =? unixSec u) && (nsec u <? nsec t)).

Definition Time_UTC (t : Time) : Time := mkTime (unixSec t) (nsec t) 0.

(** The zero [Time]: January 1, year 1, 00:00:00 UTC. *)
Definition Time_IsZero (t : Time) : bool :=
  (unixSec t =? -62135596800) && (nsec t =? 0).

(** Civil date of a day number counted from 1970-01-01 (proleptic
    Gregorian calendar). *)
Definition civil_from_days (days : Z) : Z * Z * Z :=
  let z := days + 719468 in
  let era := z / 146097 in
  let doe := z - era * 146097 in
  let yoe := (doe - doe / 1460 + doe / 36524 - doe / 146096) / 365 in
  let doy := doe - (365 * yoe + yoe / 4 - yoe / 100) in
  let mp := (5 * doy + 2) / 153 in
  let d := doy - (153 * mp + 2) / 5 + 1 in
  let m := if mp <? 10 then mp + 3 else mp - 9 in
  let y := yoe + era * 400 + (if m <=? 2 then 1 else 0) in
  (y, m, d).

Definition Time_local_seconds (t : Time) : Z := unixSec t + zoneOffset t.

Definition Time_Date (t : Time) : Z * Z * Z :=
  civil_from_days (Time_local_seconds t / 86400).

Definition Time_Clock (t : Time) : Z * Z * Z :=
  let s := Time_local_seconds t mod 86400 in
  (s / 3600, (s mod 3600) / 60, s mod 60).

(** [t.Format("2006-01-02")]. *)
Definition Time_Format_date (t : Time) : string :=
  let '(y, m, d) := Time_Date t in
  appendInt y 4 +:+ "-" +:+ appendInt m 2 +:+ "-" +:+ appendInt d 2.

(** [t.Format("2006-01-02T15:04:05")]. *)
Definition Time_Format_datetime (t : Time) : string :=
  let '(h, mi, s) := Time_Clock t in
  Time_Format_date t +:+ "T" +:+ appendInt h 2 +:+ ":" +:+ appendInt mi 2
    +:+ ":" +:+ appendInt s 2.

Fixpoint drop_zeros (ds : list Z) : list Z :=
  match ds with
  | d :: rest => if d =? 0 then drop_zeros rest else ds
  | [] => []
  end.

(** The layout element ".999999999": the fraction of a second without
    trailing zeros, nothing when it is zero. *)
Definition Time_fraction (ns : Z) : string :=
  if ns =? 0 then EmptyString
  else
    let ds := digits_rev 9 ns in
    let padded := ds ++ repeat 0 (9 - length ds) in
    let trimmed := drop_zeros padded in
    String "."%char (fold_left (fun acc d => String (digit_char d) acc) trimmed EmptyString).

(** The layout element "Z07:00". *)
Definition Time_zone_Z0700 (offset : Z) : string :=
  if offset =? 0 then "Z"
  else
    let a := Z.abs offset / 60 in
    (if offset <? 0 then "-" else "+") +:+ appendInt (a / 60) 2 +:+ ":" +:+ appendInt (a mod 60) 2.

(** [t.Format(time.RFC3339Nano)]. *)
Definition Time_Format_RFC3339Nano (t : Time) : string :=
  Time_Format_datetime t +:+ Time_fraction (nsec t) +:+ Time_zone_Z0700 (zoneOffset t).

(** ** Paths, after Go's [path/filepath] on Unix *)

(** The element stack of [filepath.Clean], innermost element first. *)
Fixpoint clean_elems (rooted : bool) (elems : list string) (stack : list string) : list string :=
  match elems with
  | [] => stack
  | e :: rest =>
      if string_eqb e EmptyString || string_eqb e "." then clean_elems rooted rest stack
      else if string_eqb e ".."
      then match stack with
           | top :: below =>
               if string_eqb top ".." then clean_elems rooted rest (e :: stack)
               else clean_elems rooted rest below
           | [] => if rooted then clean_elems rooted rest [] else clean_elems rooted rest [e]
           end
      else clean_elems rooted rest (e :: stack)
  end.

Definition filepath_Clean (path : string) : string :=
  if string_eqb path EmptyString then "."
  else
    let rooted := strings_HasPrefix path "/" in
    let body := strings_Join (rev (clean_elems rooted (strings_Split_slash path) [])) "/" in
    if rooted then "/" +:+ body
    else if string_eqb body EmptyString then "." else body.

(** [filepath.Join]: leading empty elements are dropped, the rest is
    joined with slashes and cleaned. *)
Fixpoint filepath_Join (elem : list string) : string :=
  match elem with
  | [] => EmptyString
  | e :: rest =>
      if string_eqb e EmptyString then filepath_Join rest
      else filepath_Clean (strings_Join elem "/")
  end.

(** [filepath.Dir]: everything up to the last slash, cleaned. *)
Definition filepath_Dir (path : string) : string :=
  let elems := strings_Split_slash path in
  match rev elems with
  | [] => "."
  | _ :: before => 
      match before with
      | [] => "."
      | _ => filepath_Clean (strings_Join (rev before) "/" +:+ "/")
      end
  end.

(** [filepath.Ext]: the suffix of the last element starting at its last
    dot, empty when it has none. *)
Fixpoint filepath_Ext_from (s : string) (ext : string) : string :=
  match s with
  | EmptyString => ext
  | String c s' =>
      if bool_decide (c = "/"%char) then filepath_Ext_from s' EmptyString
      else if bool_decide (c = "."%char) then filepath_Ext_from s' s
      else filepath_Ext_from s' ext
  end.

Definition filepath_Ext (path : string) : string := filepath_Ext_from path EmptyString.

(** ** Errors and results *)

Inductive Errno := ENOENT | ENOTDIR | EISDIR | ENOTEMPTY.

(** Go [error] values.  [PathError] is the error of a failed system call
    on a path; [ExternalError] is an error produced by a collaborator
    outside the program (network, parsers, the Notion API); [Errorf] is an
    error built by [fmt.Errorf] from a format, its string operands and the
    error it reports; [GoPanic] stands for a run-time panic, which no
    function of the program recovers from.  [RecursionBound] is not a Go
    error: it marks the exhaustion of the recursion bound of
    [GenBlock_fuel] below. *)
Inductive error :=
  | PathError (op path : string) (errno : Errno)
  | ExternalError (msg : string)
  | Errorf (format : string) (operands : list string) (cause : error)
  | GoPanic (msg : string)
  | RecursionBound.

Inductive result (A : Type) :=
  | Ok (a : A)
  | Err (e : error).
Arguments Ok {A} a.
Arguments Err {A} e.

Definition is_Ok {A} (r : result A) : bool :=
  match r with Ok _ => true | Err _ => false end.

(** [os.IsNotExist]. *)
Definition os_IsNotExist (e : error) : bool :=
  match e with
  | PathError _ _ ENOENT => true
  | _ => false
  end.

(** ** The file system *)

(** Regular files with their contents and directories, both keyed by
    lexically cleaned path ([filepath.Clean]); symbolic links are not
    modelled.  The working directory "." and the root "/" always exist. *)
Record FS := mkFS { files : gmap string string; dirs : gset string }.

Definition FS_is_dir (fs : FS) (k : string) : bool :=
  string_eqb k "." || string_eqb k "/" || bool_decide (k ∈ dirs fs).

Definition FS_is_file (fs : FS) (k : string) : bool :=
  match files fs !! k with Some _ => true | None => false end.

Definition FS_exists (fs : FS) (k : string) : bool :=
  FS_is_file fs k || FS_is_dir fs k.

(** The proper ancestors of a cleaned path, nearest first. *)
Fixpoint ancestors_fuel (fuel : nat) (k : string) : list string :=
  match fuel with
  | O => []
  | S fuel' =>
      let d := filepath_Dir k in
      if string_eqb d "." || string_eqb d "/" || string_eqb d k then []
      else d :: ancestors_fuel fuel' d
  end.

Definition ancestors (k : string) : list string := ancestors_fuel (String.length k) k.

(** Computations that read and write the file system and may fail.  The
    file system is returned in both cases: what was written before a
    failure stays written. *)
Definition M (A : Type) : Type := FS -> FS * result A.

Definition ret {A} (a : A) : M A := fun fs => (fs, Ok a).
Definition throw {A} (e : error) : M A := fun fs => (fs, Err e).
Definition bind {A B} (m : M A) (k : A -> M B) : M B :=
  fun fs =>
    match m fs with
    | (fs', Ok a) => k a fs'
    | (fs', Err e) => (fs', Err e)
    end.

(** [wrapErr m wrap]: run [m]; the caller's [if err != nil { return wrap(err) }]. *)
Definition wrapErr {A} (m : M A) (wrap : error -> error) : M A :=
  fun fs =>
    match m fs with
    | (fs', Ok a) => (fs', Ok a)
    | (fs', Err e) => (fs', Err (wrap e))
    end.

Notation "x <- m ;; k" := (bind m (fun x => k))
  (at level 100, m at next level, right associativity).
Notation "m ;;; k" := (bind m (fun _ => k))
  (at level 100, right associativity).

(** [os.MkdirAll]: creates the directory and the missing ancestors; fails
    when a regular file is in the way, and on the empty path. *)
Definition os_MkdirAll (path : string) : M unit :=
  fun fs =>
    if string_eqb path EmptyString then (fs, Err (PathError "mkdir" path ENOENT))
    else
      let k := filepath_Clean path in
      let chain := k :: ancestors k in
      if existsb (FS_is_file fs) chain then (fs, Err (PathError "mkdir" path ENOTDIR))
      else
        let missing := filter (fun d => FS_is_dir fs d = false) chain in
        (mkFS (files fs) (list_to_set missing ∪ dirs fs), Ok tt).

(** The check shared by the calls that open a file for writing. *)
Definition open_for_write (op name : string) (fs : FS) : result string :=
  if string_eqb name EmptyString then Err (PathError op name ENOENT)
  else
    let k := filepath_Clean name in
    if FS_is_dir fs k then Err (PathError op name EISDIR)
    else if FS_is_dir fs (filepath_Dir k) then Ok k
    else if FS_is_file fs (filepath_Dir k) then Err (PathError op name ENOTDIR)
    else Err (PathError op name ENOENT).

(** [os.Create]: creates or truncates the file; the handle returned is
    the key of the file. *)
Definition os_Create (name : string) : M string :=
  fun fs =>
    match open_for_write "open" name fs with
    | Ok k => (mkFS (<[k := EmptyString]> (files fs)) (dirs fs), Ok k)
    | Err e => (fs, Err e)
    end.

(** Writing to an open file appends to it; when the file has been removed
    in the meantime the bytes go to an unlinked file and nothing visible
    changes.  A write to an open regular file does not fail here. *)
Definition File_Write (handle data : string) : M unit :=
  fun fs => (mkFS (alter (fun c => c +:+ data) handle (files fs)) (dirs fs), Ok tt).

(** [os.WriteFile]. *)
Definition os_WriteFile (name data : string) : M unit :=
  fun fs =>
    match open_for_write "open" name fs with
    | Ok k => (mkFS (<[k := data]> (files fs)) (dirs fs), Ok tt)
    | Err e => (fs, Err e)
    end.

(** [os.ReadFile]. *)
Definition os_ReadFile (name : string) : M string :=
  fun fs =>
    if string_eqb name EmptyString then (fs, Err (PathError "open" name ENOENT))
    else
      let k := filepath_Clean name in
      if FS_is_dir fs k then (fs, Err (PathError "read" name EISDIR))
      else match files fs !! k with
           | Some content => (fs, Ok content)
           | None => (fs, Err (PathError "open" name ENOENT))
           end.

(** [os.Stat]: succeeds on files and directories alike. *)
Definition os_Stat (name : string) : M unit :=
  fun fs =>
    if negb (string_eqb name EmptyString) && FS_exists fs (filepath_Clean name)
    then (fs, Ok tt)
    else (fs, Err (PathError "stat" name ENOENT)).

Definition FS_dir_empty (fs : FS) (k : string) : bool :=
  forallb (fun p => negb (string_eqb (filepath_Dir p) k))
    (elements (dom (files fs) ∪ dirs fs)).

(** [os.Remove]: removes a file or an empty directory. *)
Definition os_Remove (name : string) : M unit :=
  fun fs =>
    if string_eqb name EmptyString then (fs, Err (PathError "remove" name ENOENT))
    else
      let k := filepath_Clean name in
      if FS_is_file fs k then (mkFS (delete k (files fs)) (dirs fs), Ok tt)
      else if bool_decide (k ∈ dirs fs)
      then if FS_dir_empty fs k
           then (mkFS (files fs) (dirs fs ∖ {[k]}), Ok tt)
           else (fs, Err (PathError "remove" name ENOTEMPTY))
      else (fs, Err (PathError "remove" name ENOENT)).

(** ** The Notion data model (package [notion] of go-notion), as far as the
    program reads it *)

Record Link := mkLink { Link_URL : string }.

Record Text := mkText { Text_Content : string; Text_Link : option Link }.

Record Annotations := mkAnnotations {
  Bold : bool;
  Italic : bool;
  Strikethrough : bool;
  Underline : bool;
  Code : bool;
  Color : string }.

Definition RichTextTypeText : string := "text".
Definition RichTextTypeMention : string := "mention".
Definition RichTextTypeEquation : string := "equation".

(** A rich-text span.  [RichText_Text] is read for spans of type "text"
    only; [RichText_Annotations] is a pointer that may be nil. *)
Record RichText := mkRichText {
  RichText_Type : string;
  RichText_Text : Text;
  RichText_Annotations : option Annotations }.

Definition FileTypeFile : string := "file".
Definition FileTypeExternal : string := "external".

(** An image reference: its kind and the URL of either kind. *)
Record FileBlock := mkFileBlock {
  FileBlock_Type : string;
  FileBlock_File_URL : string;
  FileBlock_External_URL : string }.

Record Cover := mkCover {
  Cover_Type : string;
  Cover_File_URL : string;
  Cover_External_URL : string }.

Record Bookmark := mkBookmark { Bookmark_URL : string }.

Definition BlockTypeParagraph : string := "paragraph".
Definition BlockTypeBulletedListItem : string := "bulleted_list_item".
Definition BlockTypeNumberedListItem : string := "numbered_list_item".
Definition BlockTypeToDo : string := "to_do".
Definition BlockTypeToggle : string := "toggle".
Definition BlockTypeCode : string := "code".
Definition BlockTypeBookmark : string := "bookmark".
Definition BlockTypeImage : string := "image".
Definition BlockTypeCallout : string := "callout".
Definition BlockTypeQuote : string := "quote".
Definition BlockTypeColumn : string := "column".
Definition BlockTypeColumnList : string := "column_list".
Definition BlockTypeTable : string := "table".
Definition BlockTypeSyncedBlock : string := "synced_block".
Definition BlockTypeTemplate : string := "template".

(** A block of the document tree.  [Block_Text] and [Block_Children] are
    the rich text and the child list of the payload that belongs to the
    block's type; [Block_Image] and [Block_Bookmark] are the payload
    pointers of image and bookmark blocks. *)
#[warnings="-register-all"]
Inductive Block : Type := mkBlock {
  Block_Type : string;
  Block_HasChildren : bool;
  Block_Text : list RichText;
  Block_Image : option FileBlock;
  Block_Bookmark : option Bookmark;
  Block_Children : list Block }.

Record SelectOptions := mkSelectOptions { SelectOptions_Name : string }.
Record User := mkUser { User_Name : string }.
Record Date := mkDate { Date_Start : Time; Date_End : Time }.

(** A float64, by its bit pattern; the program only passes numbers on. *)
Record float64 := mkFloat64 { float64_bits : Z }.

(** The dynamic type and value of [DatabasePageProperty.Value()], as the
    type switch of [injectFrontMatter] distinguishes them. *)
Inductive PropertyValue :=
  | ValSelect (v : option SelectOptions)
  | ValMultiSelect (v : list SelectOptions)
  | ValRichText (v : list RichText)
  | ValTime (v : option Time)
  | ValDate (v : option Date)
  | ValUser (v : option User)
  | ValString (v : option string)
  | ValNumber (v : option float64)
  | ValOther.

Definition DBPropTypeTitle : string := "title".

Record DatabasePageProperty := mkProperty {
  Property_Type : string;
  Property_Title : list RichText;
  Property_Value : PropertyValue }.

(** A page.  [Page_Properties] is [None] when the dynamic type of the
    field is not [DatabasePageProperties]; the map is kept as the list of
    its entries in the order in which [range] visits them. *)
Record Page := mkPage {
  Page_ID : string;
  Page_CreatedTime : Time;
  Page_LastEditedTime : Time;
  Page_Properties : option (list (string * DatabasePageProperty));
  Page_Cover : option Cover }.

(** The link preview returned by [opengraph.Fetch]. *)
Record OGImage := mkOGImage { OGImage_URL : string }.
Record OpenGraph := mkOpenGraph {
  og_Title : string;
  og_Description : string;
  og_Image : list (option OGImage) }.

(** The parts of a parsed URL that [saveTo] reads. *)
Record URL := mkURL { URL_Path : string; URL_Hostname : string }.

(** An HTTP response body: the bytes that can be read and the error, if
    any, that ends the reading. *)
Record Response := mkResponse { Body : string; Body_err : option error }.

(** ** Configuration (generator/config.go) *)

Record Notion := mkNotion {
  DatabaseID : string;
  FilterProp : string;
  FilterValue : list string;
  PublishedValue : string }.

Record Markdown := mkMarkdown {
  ShortcodeSyntax : string;
  PageNamePrefix : string;
  PostSavePath : string;
  ImageSavePath : string;
  ImagePublicLink : string;
  GroupByMonth : bool;
  Template : string }.

Record Config := mkConfig {
  Config_Notion : Notion;
  Config_Markdown : Markdown;
  Parallelize : bool;
  Parallelism : Z;
  CacheFile : string;
  Incremental : bool }.

(** ** The sync cache (generator/cache.go) *)

Record cacheEntry := mkCacheEntry { LastEdited : string; OutputPath : string }.

Record runCache := mkRunCache { Pages : gmap string cacheEntry }.

Definition defaultCache : runCache := mkRunCache ∅.

(** ** The render context (pkg/tomarkdown) *)

(** Values of the maps of type map[string]interface{}. *)
Inductive Value :=
  | VBool (b : bool)
  | VInt (n : Z)
  | VString (s : string)
  | VStrings (l : list string)
  | VFloat (f : float64).

Record MdBlock := mkMdBlock {
  MdBlock_Block : Block;
  Depth : Z;
  Extra : gmap string Value }.

Record ToMarkdown := mkToMarkdown {
  FrontMatter : gmap string Value;
  ContentBuffer : string;
  ImgSavePath : string;
  ImgVisitPath : string;
  ContentTemplate : string;
  extra : gmap string Value }.

Definition New : ToMarkdown :=
  mkToMarkdown ∅ EmptyString EmptyString EmptyString EmptyString ∅.

Definition set_FrontMatter (tm : ToMarkdown) (fm : gmap string Value) : ToMarkdown :=
  mkToMarkdown fm (ContentBuffer tm) (ImgSavePath tm) (ImgVisitPath tm)
    (ContentTemplate tm) (extra tm).

Definition set_ContentBuffer (tm : ToMarkdown) (b : string) : ToMarkdown :=
  mkToMarkdown (FrontMatter tm) b (ImgSavePath tm) (ImgVisitPath tm)
    (ContentTemplate tm) (extra tm).

Definition set_extra (tm : ToMarkdown) (e : gmap string Value) : ToMarkdown :=
  mkToMarkdown (FrontMatter tm) (ContentBuffer tm) (ImgSavePath tm) (ImgVisitPath tm)
    (ContentTemplate tm) e.

Definition set_Block_Image (b : Block) (img : option FileBlock) : Block :=
  mkBlock (Block_Type b) (Block_HasChildren b) (Block_Text b) img
    (Block_Bookmark b) (Block_Children b).

(** The functions handed to the block templates. *)
Record FuncMap := mkFuncMap {
  rich2md : list RichText -> string;
  indentCode : list RichText -> Z -> string }.

(** A parsed block template: executing it on a block yields the text it
    wrote and the error, if any, that stopped it. *)
Definition BlockTemplate : Type := FuncMap -> MdBlock -> string * option error.

(** ** Concrete data for the examples *)

(** The lower-case mapping of Unicode on U+0080..U+00FF (the capital
    letters U+00C0..U+00DE other than the multiplication sign U+00D7 have
    their small letter 32 places further); the examples use no rune
    beyond that range. *)
Definition latin1_To_LowerCase (r : Z) : Z :=
  if (192 <=? r) && (r <=? 222) && negb (r =? 215) then r + 32 else r.

(** "Café", with its last letter encoded in UTF-8 as C3 A9. *)
Definition title_Cafe : string :=
  "Caf" +:+ String "195"%char (String "169"%char EmptyString).

(** 2024-03-05T00:00:00Z. *)
Definition date_2024_03_05 : Time := mkTime 1709596800 0 0.

Definition markdown_config (groupByMonth : bool) : Markdown :=
  mkMarkdown EmptyString EmptyString "posts" "static/images" "/images" groupByMonth
    EmptyString.

Definition plain_text (content : string) : RichText :=
  mkRichText RichTextTypeText (mkText content None) None.

Definition title_property (title : string) : DatabasePageProperty :=
  mkProperty DBPropTypeTitle [plain_text title] (ValRichText [plain_text title]).

(** 2024-03-07T12:00:00Z. *)
Definition date_2024_03_07 : Time := mkTime 1709812800 0 0.

(** A page named "hello", without a cover. *)
Definition page_hello : Page :=
  mkPage "page-1" date_2024_03_05 date_2024_03_07
    (Some [("Name", title_property "hello")]) None.

(** A page renamed to "New Title" since it was last synchronised. *)
Definition page_renamed : Page :=
  mkPage "page-2" date_2024_03_05 date_2024_03_07
    (Some [("Name", title_property "New Title")]) None.

(** A page with an external cover image and no property. *)
Definition cover_example : Cover :=
  mkCover FileTypeExternal EmptyString "https://example.com/cover.png".

Definition page_with_cover : Page :=
  mkPage "page-3" date_2024_03_05 date_2024_03_07 (Some []) (Some cover_example).

Definition image_example : FileBlock :=
  mkFileBlock FileTypeExternal EmptyString "https://example.com/a.png".

Definition image_block : Block :=
  mkBlock BlockTypeImage false [] (Some image_example) None [].

Definition text_block (bType : string) : Block :=
  mkBlock bType false [] None None [].

(** A toggle with two children: a paragraph and the image block. *)
Definition toggle_with_image : Block :=
  mkBlock BlockTypeToggle true [] None None
    [text_block BlockTypeParagraph; image_block].

Definition example_config (incremental groupByMonth : bool) : Config :=
  mkConfig (mkNotion "db" "Status" ["Finished"] "Published")
    (markdown_config groupByMonth) false 1 "cache.json" incremental.

(** A file system with nothing but the working directory. *)
Definition fs_empty : FS := mkFS ∅ ∅.

(** The post directory with the output of an earlier run. *)
Definition fs_with (name content : string) : FS :=
  mkFS {[name := content]} {["posts"]}.

(** The render context that [generate] builds for the page name "hello". *)
Definition tm_hello : ToMarkdown :=
  mkToMarkdown ∅ EmptyString "static/images/hello" "/images/hello" EmptyString ∅.

(** Collaborators of the examples: no block template is installed, the
    network is down, and the parsers reject their input. *)
Definition no_templates : string -> option BlockTemplate := fun _ => None.

(** Every block type has the template that prints the index of the block
    in its run, followed by a semicolon. *)
Definition index_templates : string -> option BlockTemplate :=
  fun _ => Some (fun _ block =>
                   (match Extra block !! "SameBlockIdx" with
                    | Some (VInt n) => itoa n +:+ ";"
                    | _ => "?;"
                    end, None)).

Definition network_down : error := ExternalError "dial tcp: connection refused".

Definition yaml_fails : gmap string Value -> result string :=
  fun _ => Err (ExternalError "yaml: cannot marshal").
Definition template_Parse_fails
    : string -> result (ToMarkdown -> string * option error) :=
  fun _ => Err (ExternalError "template: parse error").
Definition http_Get_down : string -> result Response := fun _ => Err network_down.
Definition url_Parse_fails : string -> result URL :=
  fun _ => Err (ExternalError "parse: invalid URL").
Definition url_PathEscape_plain : string -> string := fun s => s.
Definition opengraph_Fetch_down : string -> result OpenGraph := fun _ => Err network_down.
Definition opengraph_ToAbsURL_id : OpenGraph -> OpenGraph := fun og => og.
Definition changeStatus_never : Page -> Notion -> bool := fun _ _ => false.

(** A cache with entries for two pages. *)
Definition cache_AB : runCache :=
  mkRunCache
    (<["A" := mkCacheEntry "2024-03-07T12:00:00Z" "alpha.md"]>
       (<["B" := mkCacheEntry "2024-03-08T08:30:00.5Z" "2024-03-05/beta.md"]> ∅)).

(** *** A JSON encoder and decoder for caches

    The instance of [encoding/json] used by the examples: the encoder
    prints a cache as [json.MarshalIndent] does (keys in byte order, two
    spaces of indent, strings escaped as by Go's encoder with HTML
    escaping on); the decoder reads an object with the field "pages"
    whose entries are objects with string-valued fields. *)

Definition nl : string := String "010"%char EmptyString.
Definition quote_char : ascii := "034"%char.
Definition backslash : ascii := "092"%char.

Definition hex_digit (d : Z) : ascii :=
  if d <? 10 then Zbyte (48 + d) else Zbyte (87 + d).

Definition json_escape_u00 (b : Z) : string :=
  String backslash (String "u"%char (String "0"%char (String "0"%char
    (String (hex_digit (Z.shiftr b 4)) (String (hex_digit (Z.land b 15)) EmptyString))))).

Definition json_escape_ascii (c : ascii) : string :=
  let b := byteZ c in
  if (b =? 34) || (b =? 92) then String backslash (String c EmptyString)
  else if b =? 8 then String backslash "b"
  else if b =? 12 then String backslash "f"
  else if b =? 10 then String backslash "n"
  else if b =? 13 then String backslash "r"
  else if b =? 9 then String backslash "t"
  else if (b <? 32) || (b =? 60) || (b =? 62) || (b =? 38) then json_escape_u00 b
  else String c EmptyString.

(** The body of a JSON string: ASCII is escaped where needed, an invalid
    byte becomes the escape of U+FFFD, U+2028 and U+2029 are escaped, and
    every other UTF-8 sequence is copied.  [n] counts the bytes of the
    current sequence that are still to be copied ([keep]) or dropped. *)
Fixpoint json_string_body (keep : bool) (n : nat) (s : string) : string :=
  match s with
  | EmptyString => EmptyString
  | String c s' =>
      match n with
      | S k =>
          if keep then String c (json_string_body keep k s')
          else json_string_body keep k s'
      | O =>
          if byteZ c <? 128 then json_escape_ascii c +:+ json_string_body true O s'
          else
            let '(r, wid) := utf8_DecodeRuneInString s in
            if Nat.eqb wid 1 then String backslash "ufffd" +:+ json_string_body true O s'
            else if r =? 8232 then String backslash "u2028" +:+ json_string_body false 2 s'
            else if r =? 8233 then String backslash "u2029" +:+ json_string_body false 2 s'
            else String c (json_string_body true (Nat.pred wid) s')
      end
  end.

Definition json_string (s : string) : string :=
  String quote_char (json_string_body true O s +:+ String quote_char EmptyString).

Fixpoint string_leb (a b : string) : bool :=
  match a, b with
  | EmptyString, _ => true
  | String _ _, EmptyString => false
  | String x a', String y b' =>
      if byteZ x <? byteZ y then true
      else if byteZ y <? byteZ x then false
      else string_leb a' b'
  end.

Fixpoint insert_by_key (kv : string * cacheEntry) (l : list (string * cacheEntry))
    : list (string * cacheEntry) :=
  match l with
  | [] => [kv]
  | kv' :: rest =>
      if string_leb (fst kv) (fst kv') then kv :: l else kv' :: insert_by_key kv rest
  end.

Definition sorted_entries (pages : gmap string cacheEntry) : list (string * cacheEntry) :=
  fold_right insert_by_key [] (map_to_list pages).

Definition entry_fields (e : cacheEntry) : string :=
  nl +:+ "      " +:+ json_string "last_edited" +:+ ": " +:+ json_string (LastEdited e)
  +:+ "," +:+ nl +:+
  "      " +:+ json_string "output_path" +:+ ": " +:+ json_string (OutputPath e)
  +:+ nl +:+ "    }".

Definition json_entry (kv : string * cacheEntry) : string :=
  "    " +:+ json_string (fst kv) +:+ ": {" +:+ entry_fields (snd kv).

Definition entries_text (entries : list (string * cacheEntry)) : string :=
  strings_Join (map json_entry entries) ("," +:+ nl).

Definition json_MarshalIndent_plain : runCache -> result string :=
  fun cache =>
    let entries := sorted_entries (Pages cache) in
    Ok ("{" +:+ nl +:+ "  " +:+ json_string "pages" +:+ ": " +:+
        match entries with
        | [] => "{}"
        | _ => "{" +:+ nl +:+ entries_text entries +:+ nl +:+ "  }"
        end +:+ nl +:+ "}").

Definition is_space (c : ascii) : bool :=
  let b := byteZ c in (b =? 32) || (b =? 10) || (b =? 13) || (b =? 9).

Fixpoint skip_space (s : string) : string :=
  match s with
  | String c s' => if is_space c then skip_space s' else s
  | EmptyString => EmptyString
  end.

(** The next byte that is not white space, and what follows it. *)
Definition next_token (s : string) : option (ascii * string) :=
  match skip_space s with
  | String c s' => Some (c, s')
  | EmptyString => None
  end.

Definition hex_value (c : ascii) : option Z :=
  let b := byteZ c in
  if (48 <=? b) && (b <=? 57) then Some (b - 48)
  else if (97 <=? b) && (b <=? 102) then Some (b - 87)
  else if (65 <=? b) && (b <=? 70) then Some (b - 55)
  else None.

Definition parse_hex4 (s : string) : option (Z * string) :=
  match s with
  | String a (String b (String c (String d rest))) =>
      match hex_value a, hex_value b, hex_value c, hex_value d with
      | Some x, Some y, Some z, Some w => Some (((x * 16 + y) * 16 + z) * 16 + w, rest)
      | _, _, _, _ => None
      end
  | _ => None
  end.

(** A \u escape, with the low half of a surrogate pair when one follows. *)
Definition parse_unicode_escape (s : string) : option (Z * string) :=
  match parse_hex4 s with
  | Some (h, rest) =>
      if (55296 <=? h) && (h <? 56320) then
        match rest with
        | String b (String u rest') =>
            if bool_decide (b = backslash) && bool_decide (u = "u"%char) then
              match parse_hex4 rest' with
              | Some (l, rest'') =>
                  if (56320 <=? l) && (l <? 57344)
                  then Some (65536 + (h - 55296) * 1024 + (l - 56320), rest'')
                  else Some (h, rest)
              | None => Some (h, rest)
              end
            else Some (h, rest)
        | _ => Some (h, rest)
        end
      else Some (h, rest)
  | None => None
  end.

(** The rest of a string literal, after its opening quote. *)
Fixpoint parse_string_body (fuel : nat) (s : string) : option (string * string) :=
  match fuel, s with
  | S fuel', String c rest =>
      if bool_decide (c = quote_char) then Some (EmptyString, rest)
      else if bool_decide (c = backslash) then
        match rest with
        | String e rest' =>
            let simple (x : Z) :=
              match parse_string_body fuel' rest' with
              | Some (body, after) => Some (String (Zbyte x) body, after)
              | None => None
              end in
            let b := byteZ e in
            if b =? 117 then
              match parse_unicode_escape rest' with
              | Some (r, rest'') =>
                  match parse_string_body fuel' rest'' with
                  | Some (body, after) => Some (utf8_EncodeRune r +:+ body, after)
                  | None => None
                  end
              | None => None
              end
            else if (b =? 34) || (b =? 92) || (b =? 47) then simple b
            else if b =? 98 then simple 8
            else if b =? 102 then simple 12
            else if b =? 110 then simple 10
            else if b =? 114 then simple 13
            else if b =? 116 then simple 9
            else None
        | EmptyString => None
        end
      else if byteZ c <? 32 then None
      else
        match parse_string_body fuel' rest with
        | Some (body, after) => Some (String c body, after)
        | None => None
        end
  | _, _ => None
  end.

Definition parse_string (s : string) : option (string * string) :=
  match next_token s with
  | Some (c, rest) =>
      if bool_decide (c = quote_char) then parse_string_body (String.length rest) rest
      else None
  | None => None
  end.

Definition expect (c : ascii) (s : string) : option string :=
  match next_token s with
  | Some (c', rest) => if bool_decide (c = c') then Some rest else None
  | None => None
  end.

(** The members of an object, after its opening brace; [member] reads the
    value of a key into the accumulator. *)
Fixpoint parse_members {A} (member : string -> A -> string -> option (A * string))
    (fuel : nat) (first : bool) (acc : A) (s : string) : option (A * string) :=
  match fuel with
  | O => None
  | S fuel' =>
      match next_token s with
      | Some (c, rest) =>
          if bool_decide (c = "}"%char) then (if first then Some (acc, rest) else None)
          else
            match parse_string s with
            | Some (key, s1) =>
                match expect ":"%char s1 with
                | Some s2 =>
                    match member key acc s2 with
                    | Some (acc', s3) =>
                        match next_token s3 with
                        | Some (d, s4) =>
                            if bool_decide (d = "}"%char) then Some (acc', s4)
                            else if bool_decide (d = ","%char)
                            then parse_members member fuel' false acc' s4
                            else None
                        | None => None
                        end
                    | None => None
                    end
                | None => None
                end
            | None => None
            end
      | None => None
      end
  end.

Definition parse_entry_member (key : string) (acc : cacheEntry) (s : string)
    : option (cacheEntry * string) :=
  match parse_string s with
  | Some (v, rest) =>
      if string_eqb key "last_edited" then Some (mkCacheEntry v (OutputPath acc), rest)
      else if string_eqb key "output_path" then Some (mkCacheEntry (LastEdited acc) v, rest)
      else Some (acc, rest)
  | None => None
  end.

Definition parse_page_member (key : string) (acc : gmap string cacheEntry) (s : string)
    : option (gmap string cacheEntry * string) :=
  match expect "{"%char s with
  | Some s1 =>
      match parse_members parse_entry_member (String.length s1) true
              (mkCacheEntry EmptyString EmptyString) s1 with
      | Some (entry, rest) => Some (<[key := entry]> acc, rest)
      | None => None
      end
  | None => None
  end.

Definition parse_top_member (key : string) (acc : option (gmap string cacheEntry))
    (s : string) : option (option (gmap string cacheEntry) * string) :=
  if string_eqb key "pages" then
    match skip_space s with
    | String "n" (String "u" (String "l" (String "l" rest))) => Some (None, rest)
    | _ =>
        match expect "{"%char s with
        | Some s1 =>
            match parse_members parse_page_member (String.length s1) true ∅ s1 with
            | Some (pages, rest) => Some (Some pages, rest)
            | None => None
            end
        | None => None
        end
    end
  else None.

Definition json_Unmarshal_plain : string -> result (option (gmap string cacheEntry)) :=
  fun content =>
    match expect "{"%char content with
    | Some s1 =>
        match parse_members parse_top_member (String.length s1) true None s1 with
        | Some (pages, rest) =>
            match skip_space rest with
            | EmptyString => Ok pages
            | _ => Err (ExternalError "invalid character after top-level value")
            end
        | None => Err (ExternalError "invalid character")
        end
    | None => Err (ExternalError "unexpected end of JSON input")
    end.

(** The strings that the encoder is shown below to write without loss:
    valid UTF-8 without the line separators U+2028 and U+2029, checked
    byte by byte as the encoder reads them. *)
Fixpoint json_plain_from (copy : nat) (s : string) : bool :=
  match s with
  | EmptyString => true
  | String c s' =>
      match copy with
      | S k => (128 <=? byteZ c) && json_plain_from k s'
      | O =>
          if byteZ c <? 128 then json_plain_from O s'
          else
            let '(r, wid) := utf8_DecodeRuneInString s in
            negb (Nat.eqb wid 1) && negb (r =? 8232) && negb (r =? 8233)
            && json_plain_from (Nat.pred wid) s'
      end
  end.

Definition json_plain (s : string) : bool := json_plain_from O s.

Definition entry_plain (kv : string * cacheEntry) : bool :=
  json_plain (fst kv) && json_plain (LastEdited (snd kv)) && json_plain (OutputPath (snd kv)).

(** The caches all of whose page IDs, timestamps and paths are such. *)
Definition cache_plain (cache : runCache) : bool :=
  forallb entry_plain (map_to_list (Pages cache)).

(** The cache left by a run that wrote the page "hello" to hello.md. *)
Definition cache_hello : runCache :=
  mkRunCache {["page-1" := mkCacheEntry "2024-03-07T12:00:00Z" "hello.md"]}.

(** The post directory, empty. *)
Definition fs_posts : FS := mkFS ∅ {["posts"]}.

(** A front matter with one entry. *)
Definition tm_titled : ToMarkdown :=
  mkToMarkdown {["Title" := VString "Hello"]} EmptyString EmptyString EmptyString
    EmptyString ∅.

(** *** Data for the examples of the further properties *)

(** The network is up: every download yields the same three bytes, and
    the URL of [image_example] parses. *)
Definition http_Get_png : string -> result Response :=
  fun _ => Ok (mkResponse "PNG" None).

Definition url_Parse_example : string -> result URL :=
  fun rawURL =>
    if string_eqb rawURL "https://example.com/a.png"
    then Ok (mkURL "/a.png" "example.com")
    else Err (ExternalError "parse: invalid URL").

(** A link preview without a usable image. *)
Definition preview_without_image : OpenGraph :=
  mkOpenGraph "Example" "An example page" [None; Some (mkOGImage EmptyString)].

Definition opengraph_Fetch_example : string -> result OpenGraph :=
  fun _ => Ok preview_without_image.

(** A link preview whose first usable image is the third of the list. *)
Definition preview_with_images : OpenGraph :=
  mkOpenGraph "Example" "An example page"
    [None; Some (mkOGImage EmptyString); Some (mkOGImage "https://example.com/card.png");
     Some (mkOGImage "https://example.com/other.png")].

Definition bookmark_example : Bookmark := mkBookmark "https://example.com".

Definition bookmark_block : Block :=
  mkBlock BlockTypeBookmark false [] None (Some bookmark_example) [].

(** A render context whose Extra map still holds the image of an earlier
    bookmark. *)
Definition tm_after_bookmark : ToMarkdown :=
  set_extra New {["Image" := VString "https://example.com/earlier.png"]}.

(** A page named "world". *)
Definition page_world : Page :=
  mkPage "page-4" date_2024_03_05 date_2024_03_07
    (Some [("Name", title_property "world")]) None.

(** A page whose title property is called "Heading", next to a select
    property. *)
Definition status_property : DatabasePageProperty :=
  mkProperty "select" [] (ValSelect (Some (mkSelectOptions "Done"))).

Definition page_heading : Page :=
  mkPage "page-5" date_2024_03_05 date_2024_03_07
    (Some [("Status", status_property); ("Heading", title_property "hello")]) None.

(** The Notion client returns one paragraph for every page, or fails for
    the page "page-4". *)
Definition queryBlockChildren_paragraph : string -> result (list Block) :=
  fun _ => Ok [text_block BlockTypeParagraph].

Definition queryBlockChildren_but_world : string -> result (list Block) :=
  fun id =>
    if string_eqb id "page-4" then Err network_down
    else Ok [text_block BlockTypeParagraph].

Definition json_Unmarshal_fails : string -> result (option (gmap string cacheEntry)) :=
  fun _ => Err (ExternalError "invalid character").

Definition yaml_Marshal_Config_example : Config -> result string :=
  fun _ => Ok "notion: {}".

(** A heading with a child paragraph. *)
Definition heading_with_child : Block :=
  mkBlock "heading_1" true [] None None [text_block BlockTypeParagraph].

(** Two lines of text. *)
Definition two_lines : list RichText :=
  [plain_text ("a" +:+ String "010"%char "b")].

(** A working directory with an .env file of the user. *)
Definition fs_with_env : FS := mkFS {[".env" := "NOTION_SECRET=secret"]} ∅.

Section Program.

Set Default Proof Using "Type".

(** ** Collaborators outside the program

    The Unicode case table, the embedded block templates, the YAML and
    JSON encoders, the template engine, the HTTP client, the URL parser,
    the link-preview fetcher and the Notion client (generator/notion.go)
    are parameters of the development. *)

(** [unicode.To(unicode.LowerCase, r)], consulted for runes above U+007F. *)
Variable unicode_To_LowerCase : Z -> Z.
(** The template file "templates/<name>" of the embedded file system,
    parsed; [None] when parsing fails or the file does not exist. *)
Variable mdTemplates : string -> option BlockTemplate.
(** [yaml.Marshal] on a front-matter map. *)
Variable yaml_Marshal : gmap string Value -> result string.
(** [template.ParseFiles] on the contents of the user's content template,
    with the execution of the parsed template on the render context. *)
Variable template_Parse : string -> result (ToMarkdown -> string * option error).
Variable http_Get : string -> result Response.
Variable url_Parse : string -> result URL.
Variable url_PathEscape : string -> string.
Variable opengraph_Fetch : string -> result OpenGraph.
Variable opengraph_ToAbsURL : OpenGraph -> OpenGraph.
(** [json.MarshalIndent] with a two-space indent and [json.Unmarshal] into a
    [runCache]; the latter yields [None] for a nil [Pages] map. *)
Variable json_MarshalIndent : runCache -> result string.
Variable json_Unmarshal : string -> result (option (gmap string cacheEntry)).
Variable queryDatabase : Notion -> result (list Page).
Variable queryBlockChildren : string -> result (list Block).
Variable changeStatus : Page -> Notion -> bool.

(** [unicode.ToLower]. *)
Definition unicode_ToLower (r : Z) : Z :=
  if r <=? 127
  then (if (65 <=? r) && (r <=? 90) then r + 32 else r)
  else unicode_To_LowerCase r.

(** [strings.ToLower]: a byte-wise fast path for ASCII-only strings, rune
    mapping otherwise. *)
Definition strings_ToLower (s : string) : string :=
  if string_forallb is_ascii s then string_map ascii_lower s
  else strings_Map unicode_ToLower s.

(** ** Rich text (pkg/tomarkdown/tomarkdown.go) *)

(** emphFormat generates markdown emphasis from annotations. *)
Definition emphFormat (a : option Annotations) : string :=
  let s := "%s" in
  match a with
  | None => s
  | Some a =>
      if Code a then "`%s`"
      else
        let s :=
          if Bold a && Italic a then "***%s***"
          else if Bold a then "**%s**"
          else if Italic a then "*%s*"
          else s in
        if Underline a then "__" +:+ s +:+ "__"
        else if Strikethrough a then "~~" +:+ s +:+ "~~"
        else s
  end.

(** ConvertRich returns a single RichText as Markdown. *)
Definition ConvertRich (t : RichText) : string :=
  if string_eqb (RichText_Type t) RichTextTypeText then
    match Text_Link (RichText_Text t) with
    | Some link =>
        fmt_Sprintf (emphFormat (RichText_Annotations t))
          [fmt_Sprintf "[%s](%s)" [Text_Content (RichText_Text t); Link_URL link]]
    | None =>
        fmt_Sprintf (emphFormat (RichText_Annotations t)) [Text_Content (RichText_Text t)]
    end
  else EmptyString.

(** ConvertRichText joins multiple RichText objects into a single string. *)
Definition ConvertRichText (t : list RichText) : string :=
  fold_left (fun buf word => buf +:+ ConvertRich word) t EmptyString.

(** The template function indentCode of [GenBlock]. *)
Definition indentCode_func (richText : list RichText) (depth : Z) : string :=
  let content := ConvertRichText richText in
  if depth =? 0 then content
  else
    let indent := strings_Repeat "  " depth in
    let lines := strings_Split_newline content in
    strings_Join (map (fun line => indent +:+ line) lines) (String "010"%char EmptyString).

Definition funcs : FuncMap := mkFuncMap ConvertRichText indentCode_func.

(** ** Extended syntax *)

Definition extendedSyntaxBlocks : list string := [BlockTypeBookmark; BlockTypeCallout].

Definition blockTypeInExtendedSyntaxBlocks (bType : string) : bool :=
  existsb (fun blockType => string_eqb blockType bType) extendedSyntaxBlocks.

Definition EnableExtendedSyntax (tm : ToMarkdown) (target : string) : ToMarkdown :=
  set_extra tm
    (<["ExtendedSyntaxTarget" := VString target]>
       (<["ExtendedSyntaxEnabled" := VBool true]> (extra tm))).

Definition ExtendedSyntaxEnabled (tm : ToMarkdown) : bool :=
  match extra tm !! "ExtendedSyntaxEnabled" with
  | Some (VBool v) => v
  | _ => false
  end.

Definition shouldSkipRender (tm : ToMarkdown) (bType : string) : bool :=
  negb (ExtendedSyntaxEnabled tm) && blockTypeInExtendedSyntaxBlocks bType.

(** ** The asset pipeline *)

(** saveTo saves the content of reader into distDir, generating a filename
    from rawURL. *)
Definition saveTo (tm : ToMarkdown) (reader : Response) (rawURL distDir : string) : M string :=
  match url_Parse rawURL with
  | Err err => throw (Errorf "malformed url: %s" [] err)
  | Ok u =>
      let splitPaths := strings_Split_slash (URL_Path u) in
      let n := length splitPaths in
      imageFilename <-
        (let last_elem := nth (n - 1) splitPaths EmptyString in
         if strings_HasPrefix last_elem "Untitled."
         then match n with
              | O | S O => throw (GoPanic "index out of range [-1]")
              | _ => ret (nth (n - 2) splitPaths EmptyString +:+ filepath_Ext (URL_Path u))
              end
         else ret last_elem) ;;
      wrapErr (os_MkdirAll distDir) (fun err => Errorf "%s: %s" [distDir] err) ;;;
      let urlPath := strings_Join splitPaths "_" in
      let filename := fmt_Sprintf "%s_%s_%s" [URL_Hostname u; urlPath; imageFilename] in
      out <- wrapErr (os_Create (filepath_Join [distDir; filename]))
               (fun err => Errorf "couldn't create image file: %s" [] err) ;;
      File_Write out (Body reader) ;;;
      match Body_err reader with
      | Some err => throw err
      | None => ret (filepath_Join [ImgVisitPath tm; filename])
      end
  end.

(** downloadImage fetches the external image or file-based image, saves it
    locally, and updates its URL. *)
Definition downloadImage (tm : ToMarkdown) (image : FileBlock) : M FileBlock :=
  let download (imgURL : string) : M string :=
    match http_Get imgURL with
    | Err err => throw err
    | Ok resp => saveTo tm resp imgURL (ImgSavePath tm)
    end in
  image <-
    (if string_eqb (FileBlock_Type image) FileTypeExternal
     then newURL <- download (FileBlock_External_URL image) ;;
          ret (mkFileBlock (FileBlock_Type image) (FileBlock_File_URL image) newURL)
     else ret image) ;;
  if string_eqb (FileBlock_Type image) FileTypeFile
  then newURL <- download (FileBlock_File_URL image) ;;
       ret (mkFileBlock (FileBlock_Type image) newURL (FileBlock_External_URL image))
  else ret image.

(** injectBookmarkInfo sets image, title, and description from opengraph
    into the block's Extra map. *)
Definition injectBookmarkInfo (bookmark : Bookmark) (extra : gmap string Value)
    : result (gmap string Value) :=
  match opengraph_Fetch (Bookmark_URL bookmark) with
  | Err err => Err err
  | Ok og =>
      let og := opengraph_ToAbsURL og in
      let first_image :=
        find (fun img => match img with
                         | Some i => negb (string_eqb (OGImage_URL i) EmptyString)
                         | None => false
                         end) (og_Image og) in
      let extra :=
        match first_image with
        | Some (Some img) => <["Image" := VString (OGImage_URL img)]> extra
        | _ => extra
        end in
      Ok (<["Description" := VString (og_Description og)]>
            (<["Title" := VString (og_Title og)]> extra))
  end.

(** ** The front-matter builder *)

(** The layout "2006-01-02T15:04:05+07:00": date and clock, followed by the
    text "+07:00", which contains no layout element. *)
Definition Time_Format_frontmatter (t : Time) : string :=
  Time_Format_datetime t +:+ "+07:00".

(** injectFrontMatter converts a Notion property into front matter data. *)
Definition injectFrontMatter (tm : ToMarkdown) (key : string)
    (property : DatabasePageProperty) : ToMarkdown :=
  let fmv : option Value :=
    match Property_Value property with
    | ValSelect prop => (fun p => VString (SelectOptions_Name p)) <$> prop
    | ValMultiSelect prop => Some (VStrings (map SelectOptions_Name prop))
    | ValRichText prop => Some (VString (ConvertRichText prop))
    | ValTime prop => (fun t => VString (Time_Format_frontmatter t)) <$> prop
    | ValDate prop =>
        match prop with
        | Some d =>
            if negb (Time_IsZero (Date_Start d))
            then Some (VString (Time_Format_frontmatter (Date_Start d)))
            else if negb (Time_IsZero (Date_End d))
            then Some (VString (Time_Format_frontmatter (Date_End d)))
            else None
        | None => None
        end
    | ValUser prop => (fun u => VString (User_Name u)) <$> prop
    | ValString prop => VString <$> prop
    | ValNumber prop => VFloat <$> prop
    | ValOther => None
    end in
  match fmv with
  | Some v => set_FrontMatter tm (<[key := v]> (FrontMatter tm))
  | None => tm
  end.

(** injectFrontMatterCover downloads the page cover image and sets the
    front matter "cover" field.  It has no error result. *)
Definition injectFrontMatterCover (tm : ToMarkdown) (cover : option Cover)
    : FS -> FS * ToMarkdown :=
  fun fs =>
    match cover with
    | None => (fs, tm)
    | Some cover =>
        let image := mkFileBlock (Cover_Type cover) (Cover_File_URL cover)
                       (Cover_External_URL cover) in
        match downloadImage tm image fs with
        | (fs', Err _) => (fs', tm)
        | (fs', Ok image) =>
            if string_eqb (FileBlock_Type image) FileTypeExternal
            then (fs', set_FrontMatter tm
                         (<["cover" := VString (FileBlock_External_URL image)]> (FrontMatter tm)))
            else if string_eqb (FileBlock_Type image) FileTypeFile
            then (fs', set_FrontMatter tm
                         (<["cover" := VString (FileBlock_File_URL image)]> (FrontMatter tm)))
            else (fs', tm)
        end
    end.

(** WithFrontMatter loads data from the Notion page (like cover or custom
    properties) into the front matter map.  The type assertion on the
    page's properties panics when it fails. *)
Definition WithFrontMatter (tm : ToMarkdown) (page : Page) : M ToMarkdown :=
  fun fs =>
    let '(fs', tm) := injectFrontMatterCover tm (Page_Cover page) fs in
    match Page_Properties page with
    | None => (fs', Err (GoPanic "interface conversion"))
    | Some pageProps =>
        (fs', Ok (fold_left (fun tm kv => injectFrontMatter tm (fst kv) (snd kv)) pageProps tm))
    end.

(** The map with lower-cased keys built by [GenFrontMatter]; when two keys
    differ by case only, the entry visited last stays. *)
Definition lowercase_keys (fm : gmap string Value) : gmap string Value :=
  fold_left (fun nfm kv => <[strings_ToLower (fst kv) := snd kv]> nfm) (map_to_list fm) ∅.

(** GenFrontMatter marshals any front matter set in tm.FrontMatter to YAML
    and writes it at the top of the file under triple-dashed lines. *)
Definition GenFrontMatter (tm : ToMarkdown) (writer : string) : M unit :=
  if bool_decide (size (FrontMatter tm) = O) then ret tt
  else
    let nfm := lowercase_keys (FrontMatter tm) in
    match yaml_Marshal nfm with
    | Err _ => ret tt
    | Ok frontMatters =>
        let nl := String "010"%char EmptyString in
        let buffer := "---" +:+ nl +:+ frontMatters +:+ "---" +:+ nl +:+ nl in
        File_Write writer buffer
    end.

(** ** The block renderer *)

Definition children_types : list string :=
  [BlockTypeQuote; BlockTypeToggle; BlockTypeParagraph; BlockTypeCallout;
   BlockTypeBulletedListItem; BlockTypeNumberedListItem; BlockTypeToDo;
   BlockTypeCode; BlockTypeColumn; BlockTypeColumnList; BlockTypeTable;
   BlockTypeSyncedBlock; BlockTypeTemplate].

(** getChildrenBlocks extracts the child blocks from a given block. *)
Definition getChildrenBlocks (block : MdBlock) : list Block :=
  if existsb (string_eqb (Block_Type (MdBlock_Block block))) children_types
  then Block_Children (MdBlock_Block block)
  else [].

(** The body of the loop of [GenContentBlocks] for a block that is not
    skipped, once [sameBlockIdx] is set: the index is stored in the Extra
    map, which is the map of the render context itself; image and
    bookmark blocks are pre-processed; the block is rendered. *)
Definition GenContentBlocks_body
    (GenBlock : ToMarkdown -> string -> MdBlock -> M ToMarkdown)
    (depth : Z) (tm : ToMarkdown) (block : Block) (sameBlockIdx : Z) : M ToMarkdown :=
  let tm := set_extra tm (<["SameBlockIdx" := VInt sameBlockIdx]> (extra tm)) in
  pre <-
    (if string_eqb (Block_Type block) BlockTypeImage then
       match Block_Image block with
       | None => throw (GoPanic "nil pointer dereference")
       | Some image =>
           image' <- downloadImage tm image ;;
           ret (set_Block_Image block (Some image'), tm)
       end
     else if string_eqb (Block_Type block) BlockTypeBookmark then
       match Block_Bookmark block with
       | None => throw (GoPanic "nil pointer dereference")
       | Some bookmark =>
           match injectBookmarkInfo bookmark (extra tm) with
           | Err err => throw err
           | Ok extra' => ret (block, set_extra tm extra')
           end
       end
     else ret (block, tm)) ;;
  GenBlock (snd pre) (Block_Type block) (mkMdBlock (fst pre) depth (extra (snd pre))).

(** The loop of [GenContentBlocks], from a given value of the local
    variables [sameBlockIdx] and [lastBlockType].  (Go's int cannot
    overflow here: the index is below the length of the slice.) *)
Fixpoint GenContentBlocks_loop
    (GenBlock : ToMarkdown -> string -> MdBlock -> M ToMarkdown)
    (depth : Z) (blocks : list Block) (sameBlockIdx : Z) (lastBlockType : string)
    (tm : ToMarkdown) : M ToMarkdown :=
  match blocks with
  | [] => ret tm
  | block :: rest =>
      if shouldSkipRender tm (Block_Type block)
      then GenContentBlocks_loop GenBlock depth rest sameBlockIdx lastBlockType tm
      else
        let sameBlockIdx := sameBlockIdx + 1 in
        let sameBlockIdx :=
          if negb (string_eqb (Block_Type block) lastBlockType) then 0 else sameBlockIdx in
        tm' <- GenContentBlocks_body GenBlock depth tm block sameBlockIdx ;;
        GenContentBlocks_loop GenBlock depth rest sameBlockIdx (Block_Type block) tm'
  end.

(** GenBlock executes the relevant template for the block type, appending
    the output to tm.ContentBuffer.  If block.HasChildren, the child
    blocks are processed at depth+1.  [fuel] bounds the nesting depth. *)
Fixpoint GenBlock_fuel (fuel : nat) (tm : ToMarkdown) (bType : string) (block : MdBlock)
    : M ToMarkdown :=
  let tplName := fmt_Sprintf "%s.gohtml" [bType] in
  match mdTemplates tplName with
  | None => ret tm
  | Some tpl =>
      let '(out, err) := tpl funcs block in
      let tm := set_ContentBuffer tm (ContentBuffer tm +:+ out) in
      match err with
      | Some e => throw e
      | None =>
          if Block_HasChildren (MdBlock_Block block) then
            match fuel with
            | O => throw RecursionBound
            | S fuel' =>
                GenContentBlocks_loop (GenBlock_fuel fuel') (Depth block + 1)
                  (getChildrenBlocks block) 0 EmptyString tm
            end
          else ret tm
      end
  end.

(** GenContentBlocks iterates over each block and calls GenBlock. *)
Definition GenContentBlocks_fuel (fuel : nat) (tm : ToMarkdown) (blocks : list Block)
    (depth : Z) : M ToMarkdown :=
  GenContentBlocks_loop (GenBlock_fuel fuel) depth blocks 0 EmptyString tm.

(** The nesting depth of a block tree, which bounds the recursion. *)
Fixpoint Block_height (b : Block) : nat :=
  match b with
  | mkBlock _ _ _ _ _ children =>
      S (fold_right (fun c acc => Nat.max (Block_height c) acc) O children)
  end.

Definition Blocks_height (blocks : list Block) : nat :=
  fold_right (fun c acc => Nat.max (Block_height c) acc) O blocks.

Definition GenBlock (tm : ToMarkdown) (bType : string) (block : MdBlock) : M ToMarkdown :=
  GenBlock_fuel (Block_height (MdBlock_Block block)) tm bType block.

Definition GenContentBlocks (tm : ToMarkdown) (blocks : list Block) (depth : Z)
    : M ToMarkdown :=
  GenContentBlocks_fuel (Blocks_height blocks) tm blocks depth.

(** GenerateTo renders the blocks into Markdown, writing front matter
    first (if any), then the block content into the provided writer. *)
Definition GenerateTo (tm : ToMarkdown) (blocks : list Block) (writer : string) : M unit :=
  GenFrontMatter tm writer ;;;
  tm <- GenContentBlocks tm blocks 0 ;;
  if negb (string_eqb (ContentTemplate tm) EmptyString) then
    content <- os_ReadFile (ContentTemplate tm) ;;
    match template_Parse content with
    | Err err => throw err
    | Ok t =>
        let '(out, err) := t tm in
        File_Write writer out ;;;
        match err with
        | Some e => throw e
        | None => ret tt
        end
    end
  else File_Write writer (ContentBuffer tm).

(** ** The sync cache (generator/cache.go) *)

Definition loadCache (path : string) : M runCache :=
  if string_eqb path EmptyString then ret defaultCache
  else
    fun fs =>
      match os_ReadFile path fs with
      | (fs', Err err) =>
          if os_IsNotExist err then (fs', Ok defaultCache) else (fs', Err err)
      | (fs', Ok content) =>
          match json_Unmarshal content with
          | Err err => (fs', Err err)
          | Ok None => (fs', Ok (mkRunCache ∅))
          | Ok (Some pages) => (fs', Ok (mkRunCache pages))
          end
      end.

Definition saveCache (path : string) (cache : runCache) : M unit :=
  if string_eqb path EmptyString then ret tt
  else
    match json_MarshalIndent cache with
    | Err err => throw err
    | Ok content =>
        let dir := filepath_Dir path in
        (if negb (string_eqb dir ".") && negb (string_eqb dir EmptyString)
         then os_MkdirAll dir
         else ret tt) ;;;
        os_WriteFile path content
    end.

Definition cacheTimestamp (t : Time) : string :=
  Time_Format_RFC3339Nano (Time_UTC t).

(** ** The sync orchestrator (generator/generator.go) *)

Definition is_title_property (prop : DatabasePageProperty) : bool :=
  string_eqb (Property_Type prop) DBPropTypeTitle.

(** getPageTitle extracts the plain text title from page properties. *)
Definition getPageTitle (page : Page) : string :=
  match Page_Properties page with
  | None => EmptyString
  | Some props =>
      match find (fun kv => is_title_property (snd kv) &&
                            (strings_EqualFold (fst kv) "title" ||
                             strings_EqualFold (fst kv) "name")) props with
      | Some kv => ConvertRichText (Property_Title (snd kv))
      | None =>
          match find (fun kv => is_title_property (snd kv) &&
                                negb (bool_decide (Property_Title (snd kv) = [])) &&
                                negb (string_eqb (ConvertRichText (Property_Title (snd kv)))
                                        EmptyString)) props with
          | Some kv => ConvertRichText (Property_Title (snd kv))
          | None => EmptyString
          end
      end
  end.

Definition generateArticleFilename (title : string) (date : Time) (config : Markdown)
    : string :=
  let escapedTitle :=
    strings_ReplaceAll (strings_ToValidUTF8 (strings_ToLower title) EmptyString) " " "-" in
  let escapedFilename := escapedTitle +:+ ".md" in
  if GroupByMonth config
  then filepath_Join [Time_Format_date date; escapedFilename]
  else escapedFilename.

(** getPageDisplayName returns a display name for a page: index:PageName
    or index:PageID if no name. *)
Definition getPageDisplayName (i : Z) (page : Page) : string :=
  let title := getPageTitle page in
  if negb (string_eqb title EmptyString)
  then itoa (i + 1) +:+ ":" +:+ title
  else itoa (i + 1) +:+ ":" +:+ Page_ID page.

Definition generate (page : Page) (blocks : list Block) (config : Markdown)
    (outputAbsPath pageName : string) : M unit :=
  f <- wrapErr (os_Create outputAbsPath) (fun err => Errorf "error create file: %s" [] err) ;;
  let tm := mkToMarkdown ∅ EmptyString
              (filepath_Join [ImageSavePath config; pageName])
              (filepath_Join [ImagePublicLink config; url_PathEscape pageName])
              (Template config) ∅ in
  tm <- WithFrontMatter tm page ;;
  let tm := if negb (string_eqb (ShortcodeSyntax config) EmptyString)
            then EnableExtendedSyntax tm (ShortcodeSyntax config) else tm in
  GenerateTo tm blocks f.

(** The keyword test of the filter loop: every argument, lower-cased,
    occurs in the lower-cased title. *)
Definition matchAllKeywords (lowerTitle : string) (filterArgs : list string) : bool :=
  forallb (fun arg => strings_Contains lowerTitle (strings_ToLower arg)) filterArgs.

(** The filter loop of [Run] over the query results. *)
Fixpoint filterLoop (filterArgs : list string) (since : option Time) (results : list Page)
    : list Page :=
  match results with
  | [] => []
  | page :: rest =>
      if match since with
         | Some s => negb (Time_After (Page_LastEditedTime page) s)
         | None => false
         end
      then filterLoop filterArgs since rest
      else if (0 <? Z.of_nat (length filterArgs))%Z then
        let pageTitle := getPageTitle page in
        if string_eqb pageTitle EmptyString then filterLoop filterArgs since rest
        else
          let lowerTitle := strings_ToLower pageTitle in
          if negb (matchAllKeywords lowerTitle filterArgs)
          then filterLoop filterArgs since rest
          else page :: filterLoop filterArgs since rest
      else page :: filterLoop filterArgs since rest
  end.

(** The filter stage of [Run]. *)
Definition filterPages (filterArgs : list string) (since : option Time)
    (results : list Page) : list Page :=
  let filterActive :=
    (0 <? Z.of_nat (length filterArgs))%Z ||
    match since with Some _ => true | None => false end in
  if filterActive then filterLoop filterArgs since results else results.

Definition title_or_ID (page : Page) : string :=
  let title := getPageTitle page in
  if string_eqb title EmptyString then Page_ID page else title.

(** The cache check of [Run]: the pages left to render and the number of
    pages skipped as unchanged.  The file system is only consulted. *)
Fixpoint cacheCheck (config : Config) (cache : runCache) (pagesToProcess : list Page)
    (fs : FS) : list Page * Z :=
  match pagesToProcess with
  | [] => ([], 0)
  | page :: rest =>
      let title := title_or_ID page in
      let outputRelPath :=
        generateArticleFilename title (Page_CreatedTime page) (Config_Markdown config) in
      let outputAbsPath :=
        filepath_Join [PostSavePath (Config_Markdown config); outputRelPath] in
      let pageEditedAt := cacheTimestamp (Page_LastEditedTime page) in
      let skipAsUnchanged :=
        match Pages cache !! Page_ID page with
        | Some entry => Incremental config && string_eqb (LastEdited entry) pageEditedAt
        | None => false
        end in
      let '(filteredPages, unchangedSkipped) := cacheCheck config cache rest fs in
      if skipAsUnchanged && is_Ok (snd (os_Stat outputAbsPath fs))
      then (filteredPages, unchangedSkipped + 1)
      else (page :: filteredPages, unchangedSkipped)
  end.

(** The helper closure handlePage of [Run]. *)
Definition handlePage (config : Config) (page : Page) (blocks : list Block)
    (displayName previousOutputRelPath : string) : M string :=
  let title := title_or_ID page in
  let outputRelPath :=
    generateArticleFilename title (Page_CreatedTime page) (Config_Markdown config) in
  let outputAbsPath := filepath_Join [PostSavePath (Config_Markdown config); outputRelPath] in
  (fun fs =>
     if Incremental config && negb (string_eqb previousOutputRelPath EmptyString)
        && negb (string_eqb previousOutputRelPath outputRelPath)
     then
       let previousFile :=
         filepath_Join [PostSavePath (Config_Markdown config); previousOutputRelPath] in
       if is_Ok (snd (os_Stat previousFile fs))
       then (fst (os_Remove previousFile fs), Ok tt)
       else (fs, Ok tt)
     else (fs, Ok tt)) ;;;
  wrapErr (generate page blocks (Config_Markdown config) outputAbsPath title)
    (fun err => Errorf "[%-30s] error generating blog post: %v" [displayName] err) ;;;
  ret outputRelPath.

Definition previousOutputRelPath_of (config : Config) (cache : runCache) (page : Page)
    : string :=
  if Incremental config
  then match Pages cache !! Page_ID page with
       | Some prev => OutputPath prev
       | None => EmptyString
       end
  else EmptyString.

Definition cache_store (cache : runCache) (page : Page) (outputRelPath : string) : runCache :=
  mkRunCache (<[Page_ID page := mkCacheEntry (cacheTimestamp (Page_LastEditedTime page))
                                  outputRelPath]> (Pages cache)).

(** The pipeline of one page: fetch the block tree, render, update the
    status, record the page in the cache. *)
Definition pagePipeline (config : Config) (i : Z) (page : Page) (cache : runCache)
    (changed : Z) : M (runCache * Z) :=
  let displayName := getPageDisplayName i page in
  match queryBlockChildren (Page_ID page) with
  | Err err => throw (Errorf "[%-30s] error getting blocks: %v" [displayName] err)
  | Ok blocks =>
      let previousOutputRelPath := previousOutputRelPath_of config cache page in
      outputRelPath <- handlePage config page blocks displayName previousOutputRelPath ;;
      let cache := cache_store cache page outputRelPath in
      ret (cache, if changeStatus page (Config_Notion config) then changed + 1 else changed)
  end.

(** The sequential loop of [Run]: the first failure ends the run. *)
Fixpoint processSequential (config : Config) (i : Z) (pages : list Page)
    (cache : runCache) (changed : Z) : M (runCache * Z) :=
  match pages with
  | [] => ret (cache, changed)
  | page :: rest =>
      st <- pagePipeline config i page cache changed ;;
      processSequential config (i + 1) rest (fst st) (snd st)
  end.

(** The parallel branch of [Run], in the schedule where the page pipelines
    run one after the other in the order of the list (the only schedule
    when the semaphore has one slot).  A failed pipeline sends its error
    to the channel and the remaining pipelines still run; the errors are
    collected in the order in which they were sent. *)
Fixpoint processParallel (config : Config) (i : Z) (pages : list Page)
    (cache : runCache) (changed : Z) (fs : FS) : FS * (runCache * Z * list error) :=
  match pages with
  | [] => (fs, (cache, changed, []))
  | page :: rest =>
      match pagePipeline config i page cache changed fs with
      | (fs', Ok st) => processParallel config (i + 1) rest (fst st) (snd st) fs'
      | (fs', Err err) =>
          let '(fs'', (cache', changed', errs)) :=
            processParallel config (i + 1) rest cache changed fs' in
          (fs'', (cache', changed', err :: errs))
      end
  end.

Definition Run (config : Config) (filterArgs : list string) (since : option Time)
    (dryRun : bool) : M unit :=
  let config :=
    if string_eqb (CacheFile config) EmptyString
    then mkConfig (Config_Notion config) (Config_Markdown config) (Parallelize config)
           (Parallelism config) ".notion-md-gen-cache.json" (Incremental config)
    else config in
  (fun fs =>
     match os_MkdirAll (PostSavePath (Config_Markdown config)) fs with
     | (fs', Err err) =>
         if negb dryRun
         then (fs', Err (Errorf "couldn't create content folder: %s" [] err))
         else (fs', Ok tt)
     | (fs', Ok _) => (fs', Ok tt)
     end) ;;;
  match queryDatabase (Config_Notion config) with
  | Err err => throw (Errorf "Querying Notion database: %s" [] err)
  | Ok results =>
      let pagesToProcess := filterPages filterArgs since results in
      if bool_decide (pagesToProcess = []) then ret tt
      else
        cache <-
          (if Incremental config
           then wrapErr (loadCache (CacheFile config))
                  (fun err => Errorf "failed loading cache file %q: %w" [CacheFile config] err)
           else ret defaultCache) ;;
        checked <- (fun fs => (fs, Ok (cacheCheck config cache pagesToProcess fs))) ;;
        let pagesToProcess := fst checked in
        if dryRun then ret tt
        else if bool_decide (pagesToProcess = []) then ret tt
        else
          st <-
            (if Parallelize config then
               if Parallelism config <=? 0
               then throw (GoPanic "all goroutines are asleep")
               else
                 fun fs =>
                   let '(fs', (cache', changed, errs)) :=
                     processParallel config 0 pagesToProcess cache 0 fs in
                   match errs with
                   | err :: _ => (fs', Err err)
                   | [] => (fs', Ok (cache', changed))
                   end
             else processSequential config 0 pagesToProcess cache 0) ;;
          if Incremental config
          then wrapErr (saveCache (CacheFile config) (fst st))
                 (fun err => Errorf "failed writing cache file %q: %w" [CacheFile config] err)
          else ret tt
  end.

(** ** The wording of the specification

    The definitions below follow the sentences of the specification; the
    theorems compare them with the functions above. *)

(** Rich text, 4.1: the content, or its link form, wrapped according to
    the precedence of the annotations. *)
Definition link_form (content : string) (link : option Link) : string :=
  match link with
  | Some l => "[" +:+ content +:+ "](" +:+ Link_URL l +:+ ")"
  | None => content
  end.

Definition wrap (mark x : string) : string := mark +:+ x +:+ mark.

Definition emphasis_spec (a : option Annotations) (x : string) : string :=
  match a with
  | None => x
  | Some a =>
      if Code a then wrap "`" x
      else
        let y :=
          if Bold a && Italic a then wrap "***" x
          else if Bold a then wrap "**" x
          else if Italic a then wrap "*" x
          else x in
        if Underline a then wrap "__" y
        else if Strikethrough a then wrap "~~" y
        else y
  end.

(** Orchestrator, Filter: the title contains the keyword as a
    case-insensitive substring. *)
Definition contains_fold (title keyword : string) : bool :=
  strings_Contains (strings_ToLower title) (strings_ToLower keyword).

Definition keep_spec (filterArgs : list string) (since : option Time) (page : Page) : bool :=
  match since with
  | None => true
  | Some cutoff => Time_After (Page_LastEditedTime page) cutoff
  end
  &&
  (bool_decide (filterArgs = []) ||
   (negb (string_eqb (getPageTitle page) EmptyString) &&
    forallb (contains_fold (getPageTitle page)) filterArgs)).

(** Orchestrator, Render: the destination filename as the specification
    words it: the title lower-cased, non-ASCII characters stripped,
    spaces replaced by hyphens, ".md" appended, and a YYYY-MM-DD directory
    segment in front when month-grouping is enabled. *)
Definition space_to_hyphen (c : ascii) : ascii :=
  if bool_decide (c = " "%char) then "-"%char else c.

Fixpoint strip_non_ascii (s : string) : string :=
  match s with
  | EmptyString => EmptyString
  | String c s' => if is_ascii c then String c (strip_non_ascii s') else strip_non_ascii s'
  end.

Definition claimed_filename (title : string) (date : Time) (config : Markdown) : string :=
  let name :=
    string_map space_to_hyphen (strip_non_ascii (strings_ToLower title)) +:+ ".md" in
  if GroupByMonth config then Time_Format_date date +:+ "/" +:+ name else name.

Definition not_slash (c : ascii) : bool := negb (bool_decide (c = "/"%char)).

(** A path element that [filepath.Clean] leaves alone. *)
Definition plain_elem (s : string) : bool :=
  negb (string_eqb s EmptyString) && negb (string_eqb s ".") && negb (string_eqb s "..")
  && string_forallb not_slash s.

(** The characters of a formatted date: digits and the minus sign. *)
Definition is_date_char (c : ascii) : bool :=
  bool_decide (c = "-"%char) || ((48 <=? byteZ c) && (byteZ c <=? 57)).

(** Sync cache, equality policy.  "Exists on disk": [os.Stat] succeeds on
    the path. *)
Definition on_disk (fs : FS) (path : string) : bool :=
  negb (string_eqb path EmptyString) && FS_exists fs (filepath_Clean path).

(** The policy as the specification words it: incremental mode is on, a
    cache entry exists, its timestamp equals the fresh one, and the output
    file recorded in the entry exists on disk. *)
Definition skip_claimed (config : Config) (cache : runCache) (fs : FS) (page : Page) : bool :=
  Incremental config &&
  match Pages cache !! Page_ID page with
  | Some entry =>
      string_eqb (LastEdited entry) (cacheTimestamp (Page_LastEditedTime page)) &&
      on_disk fs (filepath_Join [PostSavePath (Config_Markdown config); OutputPath entry])
  | None => false
  end.

(** The policy with the fourth condition on the output path computed
    afresh from the page's title and creation date. *)
Definition skip_unchanged (config : Config) (cache : runCache) (fs : FS) (page : Page) : bool :=
  Incremental config &&
  match Pages cache !! Page_ID page with
  | Some entry => string_eqb (LastEdited entry) (cacheTimestamp (Page_LastEditedTime page))
  | None => false
  end &&
  on_disk fs
    (filepath_Join [PostSavePath (Config_Markdown config);
                    generateArticleFilename (title_or_ID page) (Page_CreatedTime page)
                      (Config_Markdown config)]).

(** The image reference that [injectFrontMatterCover] builds from a cover. *)
Definition cover_image (cover : Cover) : FileBlock :=
  mkFileBlock (Cover_Type cover) (Cover_File_URL cover) (Cover_External_URL cover).

(** The value of sameBlockIdx for a block that is rendered, from the
    values of sameBlockIdx and lastBlockType left by the sibling rendered
    before it. *)
Definition sameBlockIdx_of (idx : Z) (last : string) (block : Block) : Z :=
  if negb (string_eqb (Block_Type block) last) then 0 else idx + 1.

(** Block renderer, 4.3: the block renderer comes to an image block whose
    download fails.  [failed_download depth blocks idx last tm fs fs' e]:
    going through the sibling list [blocks] at nesting depth [depth], from
    the loop variables [idx] and [last], the render context [tm] and the
    file system [fs], the renderer processes an image block whose download
    fails with [e] and leaves [fs']: the image block is the first of the
    list; or the first block is skipped, or rendered, and the image block
    is met going on with the siblings after it; or the first block is of a
    type with children, its own template is executed, and the image block
    is met going through its children, one level down. *)
Inductive failed_download :
    Z -> list Block -> Z -> string -> ToMarkdown -> FS -> FS -> error -> Prop :=
  | failed_download_here depth block rest idx last tm fs image fs' e :
      Block_Type block = BlockTypeImage ->
      Block_Image block = Some image ->
      downloadImage tm image fs = (fs', Err e) ->
      failed_download depth (block :: rest) idx last tm fs fs' e
  | failed_download_after_skipped depth block rest idx last tm fs fs' e :
      shouldSkipRender tm (Block_Type block) = true ->
      failed_download depth rest idx last tm fs fs' e ->
      failed_download depth (block :: rest) idx last tm fs fs' e
  | failed_download_after_rendered depth block rest idx last tm fs tm1 fs1 fs' e :
      shouldSkipRender tm (Block_Type block) = false ->
      GenContentBlocks_body GenBlock depth tm block (sameBlockIdx_of idx last block) fs
      = (fs1, Ok tm1) ->
      failed_download depth rest (sameBlockIdx_of idx last block) (Block_Type block)
        tm1 fs1 fs' e ->
      failed_download depth (block :: rest) idx last tm fs fs' e
  | failed_download_among_children depth block rest idx last tm fs tpl out fs' e :
      shouldSkipRender tm (Block_Type block) = false ->
      In (Block_Type block) children_types ->
      Block_HasChildren block = true ->
      mdTemplates (fmt_Sprintf "%s.gohtml" [Block_Type block]) = Some tpl ->
      tpl funcs
        (mkMdBlock block depth
           (<["SameBlockIdx" := VInt (sameBlockIdx_of idx last block)]> (extra tm)))
      = (out, None) ->
      failed_download (depth + 1) (Block_Children block) 0 EmptyString
        (set_ContentBuffer
           (set_extra tm
              (<["SameBlockIdx" := VInt (sameBlockIdx_of idx last block)]> (extra tm)))
           (ContentBuffer tm +:+ out))
        fs fs' e ->
      failed_download depth (block :: rest) idx last tm fs fs' e.

(** A renderer that refuses a block whose Extra map does not carry the
    index [k] under "SameBlockIdx". *)
Definition expecting_index (k : Z)
    (GenBlock : ToMarkdown -> string -> MdBlock -> M ToMarkdown)
    : ToMarkdown -> string -> MdBlock -> M ToMarkdown :=
  fun tm bType block =>
    match Extra block !! "SameBlockIdx" with
    | Some (VInt n) => if n =? k then GenBlock tm bType block
                       else throw (GoPanic "unexpected index")
    | _ => throw (GoPanic "unexpected index")
    end.

(** Block renderer, 4.2: the blocks of a run are rendered one after the
    other with the indices k, k+1, k+2, ...: each block goes through the
    loop body with its index, and the renderer is handed that very index. *)
Fixpoint render_run (GenBlock : ToMarkdown -> string -> MdBlock -> M ToMarkdown)
    (depth : Z) (run : list Block) (k : Z) (tm : ToMarkdown) : M ToMarkdown :=
  match run with
  | [] => ret tm
  | block :: rest =>
      tm' <- GenContentBlocks_body (expecting_index k GenBlock) depth tm block k ;;
      render_run GenBlock depth rest (k + 1) tm'
  end.

(** The renderer leaves the switch of the extended syntax as it found it. *)
Definition keeps_syntax_switch
    (GenBlock : ToMarkdown -> string -> MdBlock -> M ToMarkdown) : Prop :=
  forall tm bType block fs fs' tm',
    GenBlock tm bType block fs = (fs', Ok tm') ->
    extra tm' !! "ExtendedSyntaxEnabled" = extra tm !! "ExtendedSyntaxEnabled".

(** ** The default configuration (generator/config.go) *)

(** [yaml.Marshal] on a configuration. *)
Variable yaml_Marshal_Config : Config -> result string.

(** The configuration literal of [DefaultConfigInit]; the fields it leaves
    out have their zero value. *)
Definition defaultCfg : Config :=
  mkConfig
    (mkNotion "YOUR-NOTION-DATABASE-ID" "Status" ["Finished"; "Published"] "Published")
    (mkMarkdown "vuepress" EmptyString "posts/notion" "static/images/notion"
       "/images/notion" false EmptyString)
    true 4 EmptyString false.

(** DefaultConfigInit writes the default configuration to
    notion-md-gen.yaml.  The deferred function, registered once the
    configuration is marshalled, writes the file .env when the function
    returns, whatever the result of the first write, and drops its own
    error. *)
Definition DefaultConfigInit : M unit :=
  match yaml_Marshal_Config defaultCfg with
  | Err err => throw err
  | Ok out =>
      fun fs =>
        let '(fs1, r) := os_WriteFile "notion-md-gen.yaml" out fs in
        let '(fs2, _) := os_WriteFile ".env" "NOTION_SECRET=xxxx" fs1 in
        (fs2, r)
  end.

(** ** Notions used in the statements about the file system and the render
    context *)

(** [s] does not contain the byte [sep]. *)
Definition lacks_byte (sep : ascii) (s : string) : bool :=
  string_forallb (fun c => negb (bool_decide (c = sep))) s.

(** Every file and directory of [fs] is a file, respectively a directory,
    of [fs']. *)
Definition FS_grows (fs fs' : FS) : Prop :=
  dom (files fs) ⊆ dom (files fs') /\ dirs fs ⊆ dirs fs'.

(** A computation that removes no file and no directory. *)
Definition never_removes {A} (m : M A) : Prop :=
  forall fs, FS_grows fs (fst (m fs)).

(** [tm'] is [tm] with text appended to the content buffer and,
    possibly, another Extra map. *)
Definition renders_onto (tm tm' : ToMarkdown) : Prop :=
  FrontMatter tm' = FrontMatter tm /\
  ImgSavePath tm' = ImgSavePath tm /\
  ImgVisitPath tm' = ImgVisitPath tm /\
  ContentTemplate tm' = ContentTemplate tm /\
  exists out, ContentBuffer tm' = ContentBuffer tm +:+ out.

(** The cache entry that a run records for a page. *)
Definition entry_of (config : Config) (page : Page) : cacheEntry :=
  mkCacheEntry (cacheTimestamp (Page_LastEditedTime page))
    (generateArticleFilename (title_or_ID page) (Page_CreatedTime page)
       (Config_Markdown config)).

(** A block type that is rendered whether or not the extended syntax is
    enabled. *)
Definition always_rendered (block : Block) : bool :=
  negb (blockTypeInExtendedSyntaxBlocks (Block_Type block)).

(** * Theorems *)

(** The collaborators a statement does not mention play no part in its
    proof. *)
Ltac forget_collaborators := repeat match goal with x : _ |- _ => clear x end.

(** ** Strings *)

Lemma append_empty_r (s : string) : s +:+ EmptyString = s.
Proof.
  induction s as [|c s IH]; [reflexivity|].
  change (String c (s +:+ EmptyString) = String c s). now rewrite IH.
Qed.

Lemma append_assoc (a b c : string) : (a +:+ b) +:+ c = a +:+ (b +:+ c).
Proof.
  induction a as [|x a IH]; [reflexivity|].
  change (String x ((a +:+ b) +:+ c) = String x (a +:+ (b +:+ c))). now rewrite IH.
Qed.

Lemma length_append (a b : string) :
  String.length (a +:+ b) = (String.length a + String.length b)%nat.
Proof.
  induction a as [|x a IH]; [reflexivity|].
  change (S (String.length (a +:+ b)) = S (String.length a + String.length b)).
  now rewrite IH.
Qed.

Lemma append_String (c : ascii) (s t : string) : String c s +:+ t = String c (s +:+ t).
Proof. reflexivity. Qed.

Lemma append_empty_l (t : string) : EmptyString +:+ t = t.
Proof. reflexivity. Qed.

Create Rewrite HintDb strnorm.
#[local] Hint Rewrite append_assoc append_String append_empty_l append_empty_r : strnorm.

(** ** Rich text *)

(** C6. A plain-text span renders as its content, or the link form
    [content](url) when it carries a hyperlink, wrapped by annotation
    precedence: back-ticks alone when code is set; otherwise ***x***,
    **x** or *x* for bold and italic, and around that __x__ if underline,
    else ~~x~~ if strikethrough. *)
Theorem ConvertRich_annotation_precedence :
  forall (content : string) (link : option Link) (a : option Annotations),
    ConvertRich (mkRichText RichTextTypeText (mkText content link) a)
    = emphasis_spec a (link_form content link).
Proof.
  intros content link a.
  unfold ConvertRich; simpl.
  destruct link as [[url]|]; destruct a as [[b i s u [] col]|];
    try destruct b; try destruct i; try destruct u; try destruct s;
    unfold ConvertRich; cbn [RichText_Type RichText_Text RichText_Annotations
                               Text_Link Text_Content Link_URL];
    match goal with
    | |- context [emphFormat ?a] =>
        let v := eval vm_compute in (emphFormat a) in change (emphFormat a) with v
    end;
    cbv [fmt_Sprintf fmt_Sprintf_from emphasis_spec link_form wrap
           Code Bold Italic Underline Strikethrough Link_URL andb];
    autorewrite with strnorm; reflexivity.
Qed.

(** ** The filter stage *)

Lemma filterLoop_cons filterArgs since page rest :
  filterLoop filterArgs since (page :: rest)
  = if keep_spec filterArgs since page
    then page :: filterLoop filterArgs since rest
    else filterLoop filterArgs since rest.
Proof.
  cbn [filterLoop]. unfold keep_spec, matchAllKeywords, contains_fold, string_eqb.
  destruct since as [cutoff|];
    [destruct (Time_After (Page_LastEditedTime page) cutoff); cbn [negb andb];
     [|reflexivity]|cbn [andb]].
  all: destruct filterArgs as [|k ks]; [reflexivity|].
  all: cbn [length]; replace (0 <? Z.of_nat (S (length ks))) with true
         by (symmetry; apply Z.ltb_lt; lia).
  all: rewrite (bool_decide_eq_false_2 (k :: ks = [])) by discriminate; cbn [orb].
  all: destruct (bool_decide (getPageTitle page = EmptyString)); cbn [negb andb];
         [reflexivity|].
  all: destruct (forallb _ (k :: ks)); reflexivity.
Qed.

Lemma filterLoop_filter filterArgs since results :
  filterLoop filterArgs since results = List.filter (keep_spec filterArgs since) results.
Proof.
  induction results as [|page rest IH]; [reflexivity|].
  rewrite filterLoop_cons, IH. reflexivity.
Qed.

(** C8. The filter stage keeps exactly the pages, in their order, that are
    edited strictly after the cutoff (when one is given) and whose title
    is present and contains every keyword as a case-insensitive substring
    (when keywords are given); a page without a title never passes a
    keyword filter. *)
Theorem filterPages_keeps_iff :
  forall (filterArgs : list string) (since : option Time) (results : list Page),
    filterPages filterArgs since results
    = List.filter (keep_spec filterArgs since) results
    /\ (forall page,
          In page (filterPages filterArgs since results) <->
          In page results /\
          match since with
          | None => True
          | Some cutoff => Time_After (Page_LastEditedTime page) cutoff = true
          end /\
          (filterArgs = [] \/
           getPageTitle page <> EmptyString /\
           forall keyword, In keyword filterArgs ->
             contains_fold (getPageTitle page) keyword = true)).
Proof.
  forget_collaborators.
  intros filterArgs since results.
  assert (Heq : filterPages filterArgs since results
                = List.filter (keep_spec filterArgs since) results).
  { unfold filterPages.
    destruct (_ || _) eqn:Hactive; [apply filterLoop_filter|].
    apply orb_false_iff in Hactive as [Hargs Hsince].
    destruct since; [discriminate|].
    destruct filterArgs as [|k ks];
      [|cbn [length] in Hargs; apply Z.ltb_ge in Hargs; lia].
    induction results as [|p r IH]; [reflexivity|].
    cbn. f_equal. exact IH. }
  split; [exact Heq|].
  intros page. rewrite Heq, filter_In. unfold keep_spec.
  rewrite andb_true_iff, orb_true_iff, andb_true_iff, negb_true_iff, forallb_forall.
  unfold string_eqb. rewrite bool_decide_eq_true, bool_decide_eq_false.
  destruct since; intuition congruence.
Qed.

(** ** Front matter *)

(** C10. When the front-matter map is empty, or when its YAML
    serialization fails, GenFrontMatter returns success and writes
    nothing: no front-matter block and no '---' delimiter is emitted, and
    the failure is not reported. *)
Theorem GenFrontMatter_failure_is_silent :
  forall (tm : ToMarkdown) (writer : string) (fs : FS),
    FrontMatter tm = ∅ \/
    (exists err, yaml_Marshal (lowercase_keys (FrontMatter tm)) = Err err) ->
    GenFrontMatter tm writer fs = (fs, Ok tt).
Proof.
  intros tm writer fs [Hempty | [err Herr]]; unfold GenFrontMatter.
  - rewrite Hempty, map_size_empty. reflexivity.
  - destruct (bool_decide _); [reflexivity|]. rewrite Herr. reflexivity.
Qed.

(** ** The destination filename *)

Lemma byteZ_Zbyte (z : Z) : 0 <= z < 256 -> byteZ (Zbyte z) = z.
Proof.
  intros Hz. unfold byteZ, Zbyte.
  rewrite N_ascii_embedding by lia. lia.
Qed.

Lemma string_forallb_append (P : ascii -> bool) (a b : string) :
  string_forallb P (a +:+ b) = string_forallb P a && string_forallb P b.
Proof.
  induction a as [|c a IH]; [reflexivity|].
  rewrite append_String. cbn [string_forallb]. rewrite IH. apply andb_assoc.
Qed.

Lemma is_ascii_lower (c : ascii) : is_ascii c = true -> is_ascii (ascii_lower c) = true.
Proof.
  unfold is_ascii, ascii_lower. intros Hc.
  destruct ((65 <=? byteZ c) && (byteZ c <=? 90)) eqn:Hup; [|exact Hc].
  apply andb_true_iff in Hup as [H1 H2].
  apply Z.leb_le in H1, H2. rewrite byteZ_Zbyte by lia. apply Z.ltb_lt. lia.
Qed.

Lemma strings_ToLower_ascii (s : string) :
  string_forallb is_ascii s = true -> strings_ToLower s = string_map ascii_lower s.
Proof. intros H. unfold strings_ToLower. now rewrite H. Qed.

Lemma string_map_lower_ascii (s : string) :
  string_forallb is_ascii s = true ->
  string_forallb is_ascii (string_map ascii_lower s) = true.
Proof.
  induction s as [|c s IH]; [reflexivity|].
  cbn [string_forallb string_map]. intros H.
  apply andb_true_iff in H as [Hc Hs].
  now rewrite is_ascii_lower, IH.
Qed.

Lemma strings_ToValidUTF8_ascii (s replacement : string) (invalid : bool) :
  string_forallb is_ascii s = true ->
  strings_ToValidUTF8_from invalid O s replacement = s.
Proof.
  revert invalid. induction s as [|c s IH]; intros invalid H; [reflexivity|].
  cbn [string_forallb] in H. apply andb_true_iff in H as [Hc Hs].
  cbn [strings_ToValidUTF8_from]. unfold is_ascii in Hc. rewrite Hc.
  now rewrite IH.
Qed.

Lemma strings_ToValidUTF8_forallb (P : ascii -> bool) (s : string) (invalid : bool)
    (copy : nat) :
  string_forallb P s = true ->
  string_forallb P (strings_ToValidUTF8_from invalid copy s EmptyString) = true.
Proof.
  revert invalid copy. induction s as [|c s IH]; intros invalid copy H; [reflexivity|].
  cbn [string_forallb] in H. apply andb_true_iff in H as [Hc Hs].
  cbn [strings_ToValidUTF8_from].
  destruct copy as [|k].
  - destruct (byteZ c <? 128).
    + cbn [string_forallb]. now rewrite Hc, IH.
    + destruct (Nat.eqb _ 1).
      * destruct invalid; rewrite append_empty_l; now apply IH.
      * cbn [string_forallb]. now rewrite Hc, IH.
  - cbn [string_forallb]. now rewrite Hc, IH.
Qed.

Lemma strings_HasPrefix_empty (s : string) : strings_HasPrefix s EmptyString = true.
Proof. destruct s; reflexivity. Qed.

Lemma strings_ReplaceAll_space (s : string) :
  strings_ReplaceAll s " " "-" = string_map space_to_hyphen s.
Proof.
  unfold strings_ReplaceAll.
  induction s as [|c s IH]; [reflexivity|].
  cbn [strings_ReplaceAll_from string_map].
  change (negb (string_eqb " " EmptyString)) with true. cbn [andb].
  cbn [strings_HasPrefix]. unfold space_to_hyphen.
  rewrite strings_HasPrefix_empty, andb_true_r.
  destruct (decide (c = " "%char)) as [->|Hne].
  - rewrite !bool_decide_eq_true_2 by reflexivity.
    change (Nat.pred (String.length " ")) with O. rewrite IH. reflexivity.
  - rewrite !bool_decide_eq_false_2 by congruence. now rewrite IH.
Qed.

Lemma string_map_space_not_slash (s : string) :
  string_forallb not_slash s = true ->
  string_forallb not_slash (string_map space_to_hyphen s) = true.
Proof.
  induction s as [|c s IH]; [reflexivity|].
  cbn [string_forallb string_map]. intros H.
  apply andb_true_iff in H as [Hc Hs]. rewrite IH by exact Hs.
  unfold space_to_hyphen. destruct (bool_decide (c = " "%char)); [reflexivity|].
  now rewrite Hc.
Qed.

Lemma string_rev_app_append (s acc : string) :
  string_rev_app s acc = string_rev_app s EmptyString +:+ acc.
Proof.
  revert acc. induction s as [|c s IH]; intros acc; [reflexivity|].
  cbn [string_rev_app]. rewrite (IH (String c acc)), (IH (String c EmptyString)).
  rewrite append_assoc. reflexivity.
Qed.

Lemma strings_Split_no_slash (s cur : string) :
  string_forallb not_slash s = true ->
  strings_Split_byte s "/"%char cur = [string_rev_app cur EmptyString +:+ s].
Proof.
  revert cur. induction s as [|c s IH]; intros cur H.
  - cbn. now rewrite append_empty_r.
  - cbn [string_forallb] in H. apply andb_true_iff in H as [Hc Hs].
    cbn [strings_Split_byte]. unfold not_slash in Hc.
    apply negb_true_iff in Hc. rewrite Hc, IH by exact Hs.
    cbn [string_rev_app]. rewrite (string_rev_app_append cur (String c EmptyString)).
    rewrite append_assoc. reflexivity.
Qed.

Lemma strings_Split_at_slash (a b cur : string) :
  string_forallb not_slash a = true ->
  strings_Split_byte (a +:+ String "/"%char b) "/"%char cur
  = (string_rev_app cur EmptyString +:+ a) :: strings_Split_byte b "/"%char EmptyString.
Proof.
  revert cur. induction a as [|c a IH]; intros cur H.
  - rewrite append_empty_l, append_empty_r. reflexivity.
  - cbn [string_forallb] in H. apply andb_true_iff in H as [Hc Hs].
    rewrite append_String. cbn [strings_Split_byte]. unfold not_slash in Hc.
    apply negb_true_iff in Hc. rewrite Hc, IH by exact Hs.
    cbn [string_rev_app]. rewrite (string_rev_app_append cur (String c EmptyString)).
    rewrite append_assoc. reflexivity.
Qed.

Lemma plain_elem_inv (s : string) :
  plain_elem s = true ->
  string_eqb s EmptyString = false /\ string_eqb s "." = false /\
  string_eqb s ".." = false /\ string_forallb not_slash s = true.
Proof.
  forget_collaborators.
  unfold plain_elem. rewrite !andb_true_iff, !negb_true_iff. tauto.
Qed.

(** Joining two plain elements puts a slash between them. *)
Lemma filepath_Join_plain (d n : string) :
  plain_elem d = true -> plain_elem n = true ->
  filepath_Join [d; n] = d +:+ "/" +:+ n.
Proof.
  intros Hd Hn.
  apply plain_elem_inv in Hd as (Hd0 & Hd1 & Hd2 & Hds).
  apply plain_elem_inv in Hn as (Hn0 & Hn1 & Hn2 & Hns).
  cbn [filepath_Join]. rewrite Hd0.
  change (strings_Join [d; n] "/") with (d +:+ "/" +:+ n).
  unfold filepath_Clean, strings_Split_slash.
  change ("/" +:+ n) with (String "/"%char n).
  rewrite strings_Split_at_slash, strings_Split_no_slash by assumption.
  rewrite !append_empty_l.
  destruct d as [|c d]; [discriminate|].
  rewrite append_String.
  cbn [string_forallb] in Hds. apply andb_true_iff in Hds as [Hc _].
  unfold not_slash in Hc. apply negb_true_iff in Hc.
  assert (Hroot : strings_HasPrefix (String c (d +:+ String "/"%char n)) "/" = false).
  { cbn [strings_HasPrefix]. apply andb_false_iff. left.
    apply bool_decide_eq_false. apply bool_decide_eq_false in Hc. congruence. }
  rewrite Hroot.
  replace (string_eqb (String c (d +:+ String "/"%char n)) EmptyString) with false
    by (symmetry; apply bool_decide_eq_false; discriminate).
  cbn [clean_elems]. rewrite Hd0, Hd1, Hd2. cbn [orb clean_elems].
  rewrite Hn0, Hn1, Hn2. cbn [orb clean_elems rev app].
  change (strings_Join [String c d; n] "/") with (String c d +:+ "/" +:+ n).
  rewrite append_String.
  replace (string_eqb (String c (d +:+ "/" +:+ n)) EmptyString) with false
    by (symmetry; apply bool_decide_eq_false; discriminate).
  reflexivity.
Qed.

Lemma string_forallb_impl (P Q : ascii -> bool) (s : string) :
  (forall c, P c = true -> Q c = true) ->
  string_forallb P s = true -> string_forallb Q s = true.
Proof.
  intros HPQ. induction s as [|c s IH]; [reflexivity|].
  cbn [string_forallb]. rewrite !andb_true_iff. intros [Hc Hs]. auto.
Qed.

Lemma digits_rev_range (fuel : nat) (n : Z) :
  0 <= n -> Forall (fun d => 0 <= d <= 9) (digits_rev fuel n).
Proof.
  revert n. induction fuel as [|fuel IH]; intros n Hn; [constructor|].
  cbn [digits_rev]. destruct (n <? 10) eqn:Hlt.
  - apply Z.ltb_lt in Hlt. repeat constructor; lia.
  - constructor.
    + pose proof (Z.mod_pos_bound n 10). lia.
    + apply IH. apply Z.div_pos; lia.
Qed.

Lemma digit_char_is_date_char (d : Z) : 0 <= d <= 9 -> is_date_char (digit_char d) = true.
Proof.
  intros Hd. unfold is_date_char, digit_char. rewrite byteZ_Zbyte by lia.
  apply orb_true_iff. right. apply andb_true_iff. split; apply Z.leb_le; lia.
Qed.

Lemma fold_digits_date_chars (ds : list Z) (acc : string) :
  Forall (fun d => 0 <= d <= 9) ds ->
  string_forallb is_date_char acc = true ->
  string_forallb is_date_char
    (fold_left (fun acc d => String (digit_char d) acc) ds acc) = true.
Proof.
  revert acc. induction ds as [|d ds IH]; intros acc Hds Hacc; [exact Hacc|].
  inversion Hds; subst. cbn [fold_left]. apply IH; [assumption|].
  cbn [string_forallb]. now rewrite digit_char_is_date_char, Hacc.
Qed.

Lemma appendInt_date_chars (x : Z) (width : nat) :
  string_forallb is_date_char (appendInt x width) = true.
Proof.
  unfold appendInt.
  assert (H : string_forallb is_date_char
                (fold_left (fun acc d => String (digit_char d) acc)
                   (digits_rev (S (Z.to_nat (Z.log2 (Z.abs x)))) (Z.abs x)
                    ++ repeat 0 (width - length
                         (digits_rev (S (Z.to_nat (Z.log2 (Z.abs x)))) (Z.abs x))))
                   EmptyString) = true).
  { apply fold_digits_date_chars; [|reflexivity].
    apply Forall_app. split; [apply digits_rev_range; lia|].
    apply Forall_forall. intros d Hd. apply list_elem_of_In, repeat_spec in Hd. lia. }
  destruct (x <? 0); [|exact H].
  cbn [string_forallb]. now rewrite H.
Qed.

Lemma Time_Format_date_chars (t : Time) :
  string_forallb is_date_char (Time_Format_date t) = true.
Proof.
  unfold Time_Format_date. destruct (Time_Date t) as [[y m] d].
  rewrite !string_forallb_append, !appendInt_date_chars. reflexivity.
Qed.

Lemma Time_Format_date_plain (t : Time) : plain_elem (Time_Format_date t) = true.
Proof.
  pose proof (Time_Format_date_chars t) as Hchars.
  assert (Hlen : (1 <= String.length (Time_Format_date t))%nat).
  { unfold Time_Format_date. destruct (Time_Date t) as [[y m] d].
    rewrite !length_append. cbn [String.length]. lia. }
  unfold plain_elem, string_eqb.
  rewrite !andb_true_iff, !negb_true_iff, !bool_decide_eq_false.
  repeat split.
  - intros Heq. rewrite Heq in Hlen. cbn in Hlen. lia.
  - intros Heq. rewrite Heq in Hchars. discriminate.
  - intros Heq. rewrite Heq in Hchars. discriminate.
  - revert Hchars. apply string_forallb_impl. intros c.
    unfold is_date_char, not_slash.
    destruct (decide (c = "/"%char)) as [->|Hne]; [discriminate|].
    intros _. now rewrite bool_decide_eq_false_2.
Qed.

Lemma md_name_plain (x : string) :
  string_forallb not_slash x = true -> plain_elem (x +:+ ".md") = true.
Proof.
  intros Hx.
  assert (Hlen : (3 <= String.length (x +:+ ".md"))%nat)
    by (rewrite length_append; cbn [String.length]; lia).
  unfold plain_elem, string_eqb.
  rewrite !andb_true_iff, !negb_true_iff, !bool_decide_eq_false.
  repeat split; try (intros Heq; rewrite Heq in Hlen; cbn in Hlen; lia).
  rewrite string_forallb_append, Hx. reflexivity.
Qed.

(** C5, amended. The output filename is the lower-cased title from which
    the bytes that are not valid UTF-8 are removed, with spaces replaced
    by hyphens and ".md" appended: every byte of an ASCII title is kept,
    lower-cased, and valid non-ASCII characters are kept as well.  With
    month-grouping the name is joined after the YYYY-MM-DD form of the
    creation date; for a lower-cased title without a slash this is the
    date, a slash and the name. *)
Theorem generateArticleFilename_amended :
  forall (title : string) (date : Time) (config : Markdown),
    (GroupByMonth config = true ->
     string_forallb not_slash (strings_ToLower title) = true) ->
    generateArticleFilename title date config
    = (if GroupByMonth config then Time_Format_date date +:+ "/" else EmptyString)
      +:+ string_map space_to_hyphen
            (strings_ToValidUTF8 (strings_ToLower title) EmptyString)
      +:+ ".md"
    /\ (string_forallb is_ascii title = true ->
        strings_ToValidUTF8 (strings_ToLower title) EmptyString
        = string_map ascii_lower title).
Proof.
  intros title date config Hslash. split.
  - unfold generateArticleFilename. rewrite strings_ReplaceAll_space.
    destruct (GroupByMonth config); [|reflexivity].
    rewrite filepath_Join_plain.
    + now rewrite append_assoc.
    + apply Time_Format_date_plain.
    + apply md_name_plain, string_map_space_not_slash.
      apply strings_ToValidUTF8_forallb. auto.
  - intros Hascii. rewrite strings_ToLower_ascii by exact Hascii.
    apply strings_ToValidUTF8_ascii. now apply string_map_lower_ascii.
Qed.

(** ** The cache check *)

Lemma os_Stat_on_disk (path : string) (fs : FS) :
  os_Stat path fs = (fs, if on_disk fs path then Ok tt
                         else Err (PathError "stat" path ENOENT)).
Proof. unfold os_Stat, on_disk. destruct (_ && _); reflexivity. Qed.

Lemma cacheCheck_cons config cache page rest fs :
  cacheCheck config cache (page :: rest) fs
  = if skip_unchanged config cache fs page
    then (fst (cacheCheck config cache rest fs), snd (cacheCheck config cache rest fs) + 1)
    else (page :: fst (cacheCheck config cache rest fs), snd (cacheCheck config cache rest fs)).
Proof.
  cbn [cacheCheck]. destruct (cacheCheck config cache rest fs) as [kept n].
  unfold skip_unchanged. rewrite os_Stat_on_disk. cbn [snd fst].
  destruct (Pages cache !! Page_ID page) as [entry|];
    [|rewrite andb_false_r; reflexivity].
  destruct (on_disk fs _); cbn [is_Ok];
    rewrite ?andb_true_r, ?andb_false_r; reflexivity.
Qed.

(** C3, amended. The cache check skips a page if and only if incremental
    mode is enabled, the cache has an entry for the page's ID, the
    entry's timestamp string equals the timestamp computed from the
    page's last-edited time, and a file exists at the output path computed
    afresh from the page's title and creation date; every other page is
    kept for rendering, in order, and the skipped pages are counted. *)
Theorem cacheCheck_skips_iff :
  forall (config : Config) (cache : runCache) (pages : list Page) (fs : FS),
    fst (cacheCheck config cache pages fs)
    = List.filter (fun page => negb (skip_unchanged config cache fs page)) pages
    /\ snd (cacheCheck config cache pages fs)
       = Z.of_nat (length (List.filter (skip_unchanged config cache fs) pages))
    /\ (forall page, In page pages ->
          (~ In page (fst (cacheCheck config cache pages fs)) <->
           skip_unchanged config cache fs page = true)).
Proof.
  intros config cache pages fs.
  assert (H : fst (cacheCheck config cache pages fs)
              = List.filter (fun page => negb (skip_unchanged config cache fs page)) pages
              /\ snd (cacheCheck config cache pages fs)
                 = Z.of_nat (length (List.filter (skip_unchanged config cache fs) pages))).
  { induction pages as [|page rest [IH1 IH2]]; [split; reflexivity|].
    rewrite cacheCheck_cons. cbn [List.filter].
    destruct (skip_unchanged config cache fs page); cbn [negb fst snd length].
    - split; [exact IH1|]. rewrite IH2. lia.
    - split; [now rewrite IH1|exact IH2]. }
  destruct H as [H1 H2]. repeat split; [exact H1|exact H2| |].
  - intros Hnot. rewrite H1, filter_In in Hnot.
    destruct (skip_unchanged config cache fs page); [reflexivity|].
    exfalso. apply Hnot. split; [assumption|reflexivity].
  - intros Hskip Hin. rewrite H1, filter_In, Hskip in Hin.
    destruct Hin as [_ Hin]. discriminate.
Qed.

(** ** Stale output files *)

Lemma filepath_Clean_nonempty (path : string) : filepath_Clean path <> EmptyString.
Proof.
  unfold filepath_Clean.
  destruct (string_eqb path EmptyString); [discriminate|].
  destruct (strings_HasPrefix path "/"); [discriminate|].
  unfold string_eqb. case_bool_decide; [discriminate|assumption].
Qed.

Lemma filepath_Join_nonempty (a b : string) :
  b <> EmptyString -> filepath_Join [a; b] <> EmptyString.
Proof.
  intros Hb. cbn [filepath_Join]. unfold string_eqb.
  repeat case_bool_decide; try apply filepath_Clean_nonempty. contradiction.
Qed.

(** C2, amended. In incremental mode, when the cache records for the page
    an output path other than the newly computed one and that file
    exists, handlePage deletes the stale file before it generates the new
    one: generation runs on a file system from which the stale file is
    already gone, and whether it then succeeds or fails has no bearing on
    the deletion. *)
Theorem handlePage_removes_stale_file_first :
  forall (config : Config) (page : Page) (blocks : list Block)
         (displayName previousOutputRelPath : string) (fs : FS),
    let outputRelPath :=
      generateArticleFilename (title_or_ID page) (Page_CreatedTime page)
        (Config_Markdown config) in
    let outputAbsPath :=
      filepath_Join [PostSavePath (Config_Markdown config); outputRelPath] in
    let previousFile :=
      filepath_Clean
        (filepath_Join [PostSavePath (Config_Markdown config); previousOutputRelPath]) in
    Incremental config = true ->
    previousOutputRelPath <> EmptyString ->
    previousOutputRelPath <> outputRelPath ->
    FS_is_file fs previousFile = true ->
    handlePage config page blocks displayName previousOutputRelPath fs
    = match generate page blocks (Config_Markdown config) outputAbsPath (title_or_ID page)
              (mkFS (delete previousFile (files fs)) (dirs fs)) with
      | (fs', Ok _) => (fs', Ok outputRelPath)
      | (fs', Err err) =>
          (fs', Err (Errorf "[%-30s] error generating blog post: %v" [displayName] err))
      end.
Proof.
  intros config page blocks displayName prev fs outputRelPath outputAbsPath previousFile
    Hinc Hne Hdiff Hfile.
  unfold handlePage.
  fold outputRelPath. fold outputAbsPath.
  unfold bind at 1. rewrite Hinc.
  unfold string_eqb at 1 2.
  rewrite !bool_decide_eq_false_2 by assumption. cbn [negb andb].
  rewrite os_Stat_on_disk. cbn [snd].
  assert (Hdisk : on_disk fs (filepath_Join [PostSavePath (Config_Markdown config); prev])
                  = true).
  { unfold on_disk, FS_exists. fold previousFile. rewrite Hfile. cbn [orb].
    rewrite andb_true_r. apply negb_true_iff, bool_decide_eq_false.
    now apply filepath_Join_nonempty. }
  rewrite Hdisk. cbn [is_Ok].
  unfold os_Remove. fold previousFile. rewrite Hfile.
  replace (string_eqb (filepath_Join [PostSavePath (Config_Markdown config); prev])
             EmptyString) with false
    by (symmetry; apply bool_decide_eq_false; now apply filepath_Join_nonempty).
  cbn [fst]. unfold bind, wrapErr, ret.
  destruct (generate _ _ _ _ _ _) as [fs' [[]|err]]; reflexivity.
Qed.

(** ** Dry run *)

Lemma os_MkdirAll_files (path : string) (fs : FS) :
  files (fst (os_MkdirAll path fs)) = files fs.
Proof.
  unfold os_MkdirAll.
  destruct (string_eqb path EmptyString); [reflexivity|].
  destruct (existsb _ _); reflexivity.
Qed.

Lemma os_ReadFile_fs (name : string) (fs : FS) : fst (os_ReadFile name fs) = fs.
Proof.
  unfold os_ReadFile.
  destruct (string_eqb name EmptyString); [reflexivity|].
  destruct (FS_is_dir fs _); [reflexivity|].
  destruct (files fs !! _); reflexivity.
Qed.

Lemma loadCache_fs (path : string) (fs : FS) : fst (loadCache path fs) = fs.
Proof.
  unfold loadCache.
  destruct (string_eqb path EmptyString); [reflexivity|].
  pose proof (os_ReadFile_fs path fs) as Hread.
  destruct (os_ReadFile path fs) as [fs' [content|err]]; cbn [fst] in Hread; subst fs'.
  - destruct (json_Unmarshal content) as [[pages|]|err]; reflexivity.
  - destruct (os_IsNotExist err); reflexivity.
Qed.

(** The only effect of a dry run on the file system is that of the call
    MkdirAll(PostSavePath) with which Run begins. *)
Lemma Run_dry_run_effect (config : Config) (filterArgs : list string)
    (since : option Time) (fs : FS) :
  fst (Run config filterArgs since true fs)
  = fst (os_MkdirAll (PostSavePath (Config_Markdown config)) fs).
Proof.
  unfold Run.
  set (config' := if string_eqb (CacheFile config) EmptyString then _ else config).
  assert (Hmd : Config_Markdown config' = Config_Markdown config)
    by (unfold config'; destruct (string_eqb _ _); reflexivity).
  rewrite <- Hmd. clear Hmd.
  unfold bind at 1.
  destruct (os_MkdirAll (PostSavePath (Config_Markdown config')) fs) as [fs1 [[]|err]];
    cbn [fst negb].
  all: destruct (queryDatabase (Config_Notion config')) as [results|qerr];
    [|reflexivity].
  all: destruct (bool_decide (filterPages filterArgs since results = []));
    [reflexivity|].
  all: unfold bind.
  all: destruct (Incremental config'); [|reflexivity].
  all: pose proof (loadCache_fs (CacheFile config') fs1) as Hload;
    unfold wrapErr;
    destruct (loadCache (CacheFile config') fs1) as [fs2 [cache|lerr]];
    cbn [fst] in Hload; subst fs2; reflexivity.
Qed.

(** A dry run writes no file: the regular files, among them the output
    files and the cache file, are the same after the run. *)
Lemma Run_dry_run_files_unchanged (config : Config) (filterArgs : list string)
    (since : option Time) (fs : FS) :
  files (fst (Run config filterArgs since true fs)) = files fs.
Proof. rewrite Run_dry_run_effect. apply os_MkdirAll_files. Qed.

(** When the post directory is there already, a dry run leaves the file
    system as it is. *)
Lemma Run_dry_run_unchanged_when_directory_exists (config : Config)
    (filterArgs : list string) (since : option Time) (fs : FS) :
  let dir := filepath_Clean (PostSavePath (Config_Markdown config)) in
  PostSavePath (Config_Markdown config) <> EmptyString ->
  Forall (fun d => FS_is_dir fs d = true /\ FS_is_file fs d = false) (dir :: ancestors dir) ->
  fst (Run config filterArgs since true fs) = fs.
Proof.
  intros dir Hne Hchain. rewrite Run_dry_run_effect. unfold os_MkdirAll.
  unfold string_eqb. rewrite bool_decide_eq_false_2 by exact Hne.
  fold dir.
  replace (existsb (FS_is_file fs) (dir :: ancestors dir)) with false.
  - replace (filter (fun d => FS_is_dir fs d = false) (dir :: ancestors dir))
      with (@nil string).
    + cbn [fst list_to_set]. destruct fs as [f d]. cbn [files dirs].
      f_equal. apply (left_id_L ∅ (∪)).
    + symmetry. induction Hchain as [|d l [Hd _] _ IH]; [reflexivity|].
      rewrite filter_cons_False by congruence. exact IH.
  - symmetry. induction Hchain as [|d l [_ Hd] _ IH]; [reflexivity|].
    cbn [existsb]. now rewrite Hd, IH.
Qed.

(** ** The block loop *)

Lemma downloadImage_set_extra (tm : ToMarkdown) (ex : gmap string Value)
    (image : FileBlock) :
  downloadImage (set_extra tm ex) image = downloadImage tm image.
Proof. reflexivity. Qed.

(** A failure of the loop body on a block that is not skipped ends the
    loop with that failure, whatever the blocks before it rendered. *)
Lemma GenContentBlocks_loop_body_error G depth pre block post e :
  forall idx last tm fs fs1 tm1 fs2,
    GenContentBlocks_loop G depth pre idx last tm fs = (fs1, Ok tm1) ->
    shouldSkipRender tm1 (Block_Type block) = false ->
    (forall k, GenContentBlocks_body G depth tm1 block k fs1 = (fs2, Err e)) ->
    GenContentBlocks_loop G depth (pre ++ block :: post) idx last tm fs = (fs2, Err e).
Proof.
  induction pre as [|b pre IH]; intros idx last tm fs fs1 tm1 fs2 Hpre Hskip Hbody.
  - cbn in Hpre. injection Hpre as <- <-.
    cbn [app GenContentBlocks_loop]. rewrite Hskip. unfold bind.
    now rewrite Hbody.
  - cbn [app GenContentBlocks_loop] in *.
    destruct (shouldSkipRender tm (Block_Type b)); [eauto|].
    unfold bind in *.
    destruct (GenContentBlocks_body G depth tm b _ fs) as [fs' [tm'|err]];
      [eauto|discriminate].
Qed.

Lemma shouldSkipRender_image (tm : ToMarkdown) : shouldSkipRender tm BlockTypeImage = false.
Proof. unfold shouldSkipRender. apply andb_false_r. Qed.

Lemma GenContentBlocks_body_image_error G depth tm block image k fs fs' e :
  Block_Type block = BlockTypeImage ->
  Block_Image block = Some image ->
  downloadImage tm image fs = (fs', Err e) ->
  GenContentBlocks_body G depth tm block k fs = (fs', Err e).
Proof.
  intros Htype Himage Hdl. unfold GenContentBlocks_body.
  rewrite Htype, Himage.
  change (string_eqb BlockTypeImage BlockTypeImage) with true. cbv iota.
  unfold bind at 1. unfold bind at 1.
  rewrite downloadImage_set_extra, Hdl. reflexivity.
Qed.

(** A failure among the children of a block is a failure of the block:
    with GenContentBlocks_loop_body_error, a failed download stops the
    rendering at every nesting depth. *)
Lemma GenBlock_fuel_children_error fuel tm bType block tpl out fs fs' e :
  mdTemplates (fmt_Sprintf "%s.gohtml" [bType]) = Some tpl ->
  tpl funcs block = (out, None) ->
  Block_HasChildren (MdBlock_Block block) = true ->
  GenContentBlocks_loop (GenBlock_fuel fuel) (Depth block + 1) (getChildrenBlocks block)
    0 EmptyString (set_ContentBuffer tm (ContentBuffer tm +:+ out)) fs = (fs', Err e) ->
  GenBlock_fuel (S fuel) tm bType block fs = (fs', Err e).
Proof.
  intros Htpl Hexec Hchildren Hloop.
  cbn [GenBlock_fuel]. now rewrite Htpl, Hexec, Hchildren.
Qed.

(** A failure of GenerateTo is a failure of generate, once the output file
    is created and the front matter is collected. *)
Lemma generate_GenerateTo_error page blocks config outputAbsPath pageName fs f fs1 tm fs2 fs' e :
  os_Create outputAbsPath fs = (fs1, Ok f) ->
  WithFrontMatter
    (mkToMarkdown ∅ EmptyString (filepath_Join [ImageSavePath config; pageName])
       (filepath_Join [ImagePublicLink config; url_PathEscape pageName])
       (Template config) ∅) page fs1 = (fs2, Ok tm) ->
  GenerateTo
    (if negb (string_eqb (ShortcodeSyntax config) EmptyString)
     then EnableExtendedSyntax tm (ShortcodeSyntax config) else tm) blocks f fs2
  = (fs', Err e) ->
  generate page blocks config outputAbsPath pageName fs = (fs', Err e).
Proof.
  intros Hcreate Hfm Hgen. unfold generate, bind, wrapErr.
  now rewrite Hcreate, Hfm, Hgen.
Qed.

Lemma shouldSkipRender_switch (tm tm' : ToMarkdown) (bType : string) :
  extra tm' !! "ExtendedSyntaxEnabled" = extra tm !! "ExtendedSyntaxEnabled" ->
  shouldSkipRender tm' bType = shouldSkipRender tm bType.
Proof. intros H. unfold shouldSkipRender, ExtendedSyntaxEnabled. now rewrite H. Qed.

Lemma injectBookmarkInfo_other bookmark (ex ex' : gmap string Value) (key : string) :
  key <> "Image" -> key <> "Title" -> key <> "Description" ->
  injectBookmarkInfo bookmark ex = Ok ex' ->
  ex' !! key = ex !! key.
Proof.
  intros H1 H2 H3. unfold injectBookmarkInfo.
  destruct (opengraph_Fetch (Bookmark_URL bookmark)) as [og|err]; [|discriminate].
  intros H. injection H as <-.
  rewrite !lookup_insert_ne by congruence.
  destruct (find _ _) as [[img|]|]; [|reflexivity|reflexivity].
  now rewrite lookup_insert_ne by congruence.
Qed.

Lemma GenContentBlocks_body_switch G depth tm block k fs fs' tm' :
  keeps_syntax_switch G ->
  GenContentBlocks_body G depth tm block k fs = (fs', Ok tm') ->
  extra tm' !! "ExtendedSyntaxEnabled" = extra tm !! "ExtendedSyntaxEnabled".
Proof.
  intros HG. unfold GenContentBlocks_body, bind.
  set (tm0 := set_extra tm _).
  assert (H0 : extra tm0 !! "ExtendedSyntaxEnabled" = extra tm !! "ExtendedSyntaxEnabled").
  { unfold tm0. cbn [extra set_extra]. now rewrite lookup_insert_ne by discriminate. }
  destruct (string_eqb (Block_Type block) BlockTypeImage).
  - destruct (Block_Image block) as [image|]; [|discriminate].
    destruct (downloadImage tm0 image fs) as [fs1 [image'|err]]; [|discriminate].
    cbn [ret fst snd]. intros H. apply HG in H. congruence.
  - destruct (string_eqb (Block_Type block) BlockTypeBookmark).
    + destruct (Block_Bookmark block) as [bookmark|]; [|discriminate].
      destruct (injectBookmarkInfo bookmark (extra tm0)) as [ex|err] eqn:Hinj;
        [|discriminate].
      cbn [ret fst snd]. intros H. apply HG in H. cbn [extra set_extra] in H.
      apply (injectBookmarkInfo_other _ _ _ "ExtendedSyntaxEnabled") in Hinj;
        [congruence|discriminate..].
    + cbn [ret fst snd]. intros H. apply HG in H. congruence.
Qed.

Lemma GenContentBlocks_loop_switch G depth blocks :
  keeps_syntax_switch G ->
  forall idx last tm fs fs' tm',
    GenContentBlocks_loop G depth blocks idx last tm fs = (fs', Ok tm') ->
    extra tm' !! "ExtendedSyntaxEnabled" = extra tm !! "ExtendedSyntaxEnabled".
Proof.
  intros HG. induction blocks as [|b blocks IH]; intros idx last tm fs fs' tm' H.
  - cbn in H. now injection H as <- <-.
  - cbn [GenContentBlocks_loop] in H.
    destruct (shouldSkipRender tm (Block_Type b)); [eauto|].
    unfold bind in H.
    destruct (GenContentBlocks_body G depth tm b _ fs) as [fs1 [tm1|err]] eqn:Hbody;
      [|discriminate].
    apply IH in H. apply GenContentBlocks_body_switch in Hbody; [congruence|exact HG].
Qed.

Lemma GenBlock_fuel_switch (fuel : nat) : keeps_syntax_switch (GenBlock_fuel fuel).
Proof.
  induction fuel as [|fuel IH]; intros tm bType block fs fs' tm'; cbn [GenBlock_fuel].
  all: destruct (mdTemplates _) as [tpl|]; [|intros H; now injection H as <- <-].
  all: destruct (tpl funcs block) as [out [e|]]; [discriminate|].
  all: destruct (Block_HasChildren (MdBlock_Block block));
    [|intros H; now injection H as <- <-].
  - discriminate.
  - intros H. eapply GenContentBlocks_loop_switch in H; [exact H|exact IH].
Qed.

(** The index that reaches the renderer is the index of the loop: the
    block handed to GenBlock carries it under "SameBlockIdx". *)
Lemma GenContentBlocks_body_index G depth tm block k fs :
  GenContentBlocks_body G depth tm block k fs
  = GenContentBlocks_body (expecting_index k G) depth tm block k fs.
Proof.
  unfold GenContentBlocks_body.
  set (tm0 := set_extra tm _).
  assert (H0 : extra tm0 !! "SameBlockIdx" = Some (VInt k)).
  { unfold tm0. cbn [extra set_extra]. apply lookup_insert_eq. }
  assert (Hexp : forall tm1 b,
            extra tm1 !! "SameBlockIdx" = Some (VInt k) ->
            G tm1 (Block_Type block) (mkMdBlock b depth (extra tm1))
            = expecting_index k G tm1 (Block_Type block) (mkMdBlock b depth (extra tm1))).
  { intros tm1 b H1. unfold expecting_index. cbn [Extra]. now rewrite H1, Z.eqb_refl. }
  unfold bind.
  destruct (string_eqb (Block_Type block) BlockTypeImage).
  - destruct (Block_Image block) as [image|]; [|reflexivity].
    destruct (downloadImage tm0 image fs) as [fs1 [image'|err]]; [|reflexivity].
    cbn [ret fst snd]. now rewrite Hexp.
  - destruct (string_eqb (Block_Type block) BlockTypeBookmark).
    + destruct (Block_Bookmark block) as [bookmark|]; [|reflexivity].
      destruct (injectBookmarkInfo bookmark (extra tm0)) as [ex|err] eqn:Hinj;
        [|reflexivity].
      cbn [ret fst snd]. rewrite Hexp; [reflexivity|].
      cbn [extra set_extra].
      apply (injectBookmarkInfo_other _ _ _ "SameBlockIdx") in Hinj;
        [congruence|discriminate..].
    + cbn [ret fst snd]. now rewrite Hexp.
Qed.

Lemma GenContentBlocks_loop_in_run G depth T rest :
  keeps_syntax_switch G ->
  forall run k tm fs,
    shouldSkipRender tm T = false ->
    Forall (fun b => Block_Type b = T) run ->
    GenContentBlocks_loop G depth (run ++ rest) k T tm fs
    = (tm' <- render_run G depth run (k + 1) tm ;;
       GenContentBlocks_loop G depth rest (k + Z.of_nat (length run)) T tm') fs.
Proof.
  intros HG. induction run as [|b run IH]; intros k tm fs Hskip Hrun.
  - cbn [app render_run length Z.of_nat]. unfold bind, ret. now rewrite Z.add_0_r.
  - inversion Hrun as [|? ? Hb Hrun']; subst.
    cbn [app GenContentBlocks_loop render_run]. rewrite Hskip.
    unfold string_eqb. rewrite bool_decide_eq_true_2 by reflexivity. cbn [negb].
    unfold bind. rewrite <- GenContentBlocks_body_index.
    destruct (GenContentBlocks_body G depth tm b (k + 1) fs) as [fs1 [tm1|err]] eqn:Hbody;
      [|reflexivity].
    rewrite IH; [|erewrite shouldSkipRender_switch; [exact Hskip|]|exact Hrun'].
    + replace (k + Z.of_nat (length (b :: run))) with (k + 1 + Z.of_nat (length run))
        by (cbn [length]; lia).
      reflexivity.
    + eapply GenContentBlocks_body_switch; eassumption.
Qed.

(** What the loop body does with the index it is given, whatever the
    renderer: it stops before the renderer is called (an image block
    without image, a bookmark block without bookmark, a failed download or
    a failed preview), or it calls the renderer once, on the render context
    and the block whose shared Extra map holds the index under
    "SameBlockIdx". *)
Lemma GenContentBlocks_body_hands_index depth tm block k fs :
  (exists fs1 e,
      forall G, GenContentBlocks_body G depth tm block k fs = (fs1, Err e))
  \/
  (exists tm1 mdb fs1,
      Extra mdb !! "SameBlockIdx" = Some (VInt k) /\
      extra tm1 = Extra mdb /\
      Depth mdb = depth /\
      Block_Type (MdBlock_Block mdb) = Block_Type block /\
      Block_Children (MdBlock_Block mdb) = Block_Children block /\
      forall G, GenContentBlocks_body G depth tm block k fs
                = G tm1 (Block_Type block) mdb fs1).
Proof.
  unfold GenContentBlocks_body.
  set (tm0 := set_extra tm _).
  assert (H0 : extra tm0 !! "SameBlockIdx" = Some (VInt k)).
  { unfold tm0. cbn [extra set_extra]. apply lookup_insert_eq. }
  destruct (string_eqb (Block_Type block) BlockTypeImage).
  - destruct (Block_Image block) as [image|].
    + destruct (downloadImage tm0 image fs) as [fs1 [image'|err]] eqn:Hdl.
      * right.
        exists tm0, (mkMdBlock (set_Block_Image block (Some image')) depth (extra tm0)), fs1.
        repeat split; [exact H0|].
        intros G. unfold bind. now rewrite Hdl.
      * left. exists fs1, err. intros G. unfold bind. now rewrite Hdl.
    + left. exists fs, (GoPanic "nil pointer dereference"). reflexivity.
  - destruct (string_eqb (Block_Type block) BlockTypeBookmark).
    + destruct (Block_Bookmark block) as [bookmark|].
      * destruct (injectBookmarkInfo bookmark (extra tm0)) as [ex|err] eqn:Hinj.
        -- right. exists (set_extra tm0 ex), (mkMdBlock block depth ex), fs.
           repeat split. cbn [Extra].
           apply (injectBookmarkInfo_other _ _ _ "SameBlockIdx") in Hinj;
             [congruence|discriminate..].
        -- left. exists fs, err. reflexivity.
      * left. exists fs, (GoPanic "nil pointer dereference"). reflexivity.
    + right. exists tm0, (mkMdBlock block depth (extra tm0)), fs.
      repeat split. exact H0.
Qed.

(** C7. In the loop over sibling blocks, wherever a run of N blocks of one
    type T begins (the sibling rendered before it, if any, has another
    type, and T is not a skipped type), the blocks of the run go through
    the loop body in order with the values 0, 1, ..., N-1 of sameBlockIdx,
    and the loop goes on after the run from the index N-1 and the type T;
    so the first block of a type other than that of the sibling rendered
    before it is always given the index 0.  And a block that goes through
    the loop body with the value k of sameBlockIdx is handed to the
    renderer with k under "SameBlockIdx" in its Extra map, which is the
    map of the render context: whatever the renderer is, the body stops
    before calling it (a missing image or bookmark, a failed download or
    preview), or calls it once, on that block. *)
Theorem GenContentBlocks_run_indices :
  (forall (fuel : nat) (depth : Z) (T : string) (run rest : list Block)
          (idx0 : Z) (last0 : string) (tm : ToMarkdown) (fs : FS),
      last0 <> T ->
      shouldSkipRender tm T = false ->
      Forall (fun b => Block_Type b = T) run ->
      run <> [] ->
      GenContentBlocks_loop (GenBlock_fuel fuel) depth (run ++ rest) idx0 last0 tm fs
      = (tm' <- render_run (GenBlock_fuel fuel) depth run 0 tm ;;
         GenContentBlocks_loop (GenBlock_fuel fuel) depth rest
           (Z.of_nat (length run) - 1) T tm') fs)
  /\
  (forall (depth : Z) (tm : ToMarkdown) (block : Block) (k : Z) (fs : FS),
      (exists fs1 e,
          forall G, GenContentBlocks_body G depth tm block k fs = (fs1, Err e))
      \/
      (exists tm1 mdb fs1,
          Extra mdb !! "SameBlockIdx" = Some (VInt k) /\
          extra tm1 = Extra mdb /\
          Depth mdb = depth /\
          Block_Type (MdBlock_Block mdb) = Block_Type block /\
          Block_Children (MdBlock_Block mdb) = Block_Children block /\
          forall G, GenContentBlocks_body G depth tm block k fs
                    = G tm1 (Block_Type block) mdb fs1)).
Proof.
  split; [|exact GenContentBlocks_body_hands_index].
  intros fuel depth T run rest idx0 last0 tm fs Hlast Hskip Hrun Hne.
  destruct run as [|b run]; [contradiction|].
  inversion Hrun as [|? ? Hb Hrun']; subst.
  cbn [app GenContentBlocks_loop render_run]. rewrite Hskip.
  unfold string_eqb. rewrite bool_decide_eq_false_2 by congruence. cbn [negb].
  unfold bind. rewrite <- GenContentBlocks_body_index.
  destruct (GenContentBlocks_body (GenBlock_fuel fuel) depth tm b 0 fs)
    as [fs1 [tm1|err]] eqn:Hbody; [|reflexivity].
  rewrite GenContentBlocks_loop_in_run;
    [|apply GenBlock_fuel_switch
     |erewrite shouldSkipRender_switch; [exact Hskip|]
     |exact Hrun'].
  - replace (Z.of_nat (length (b :: run)) - 1) with (0 + Z.of_nat (length run))
      by (cbn [length]; lia).
    reflexivity.
  - eapply GenContentBlocks_body_switch; [apply GenBlock_fuel_switch|eassumption].
Qed.

(** ** The JSON encoder and decoder

    The text written by [json_MarshalIndent_plain] for a cache whose
    strings are valid UTF-8 is read back by [json_Unmarshal_plain] as the
    same map of entries. *)

(** The decoder reads one escaped ASCII byte, and one byte of a multi-byte
    character, back as that byte. *)
Lemma json_escape_ascii_parse (c : ascii) (fuel : nat) (x : string) :
  (byteZ c <? 128) = true ->
  parse_string_body (S fuel) (json_escape_ascii c +:+ x)
  = match parse_string_body fuel x with
    | Some (body, after) => Some (String c body, after)
    | None => None
    end.
Proof.
  intros Hc.
  destruct c as [[] [] [] [] [] [] [] []]; try discriminate Hc; reflexivity.
Qed.

Lemma parse_string_body_high (c : ascii) (fuel : nat) (x : string) :
  (128 <=? byteZ c) = true ->
  parse_string_body (S fuel) (String c x)
  = match parse_string_body fuel x with
    | Some (body, after) => Some (String c body, after)
    | None => None
    end.
Proof.
  intros Hc.
  destruct c as [[] [] [] [] [] [] [] []]; try discriminate Hc; reflexivity.
Qed.

Lemma json_string_body_parse (s : string) :
  forall (copy fuel : nat) (rest : string),
    json_plain_from copy s = true ->
    (String.length s < fuel)%nat ->
    parse_string_body fuel (json_string_body true copy s +:+ String quote_char rest)
    = Some (s, rest).
Proof.
  induction s as [|c s IH]; intros copy fuel rest Hplain Hfuel.
  - destruct fuel as [|fuel]; [cbn in Hfuel; lia|]. destruct copy; reflexivity.
  - destruct fuel as [|fuel]; [cbn in Hfuel; lia|].
    cbn [String.length] in Hfuel.
    cbn [json_plain_from] in Hplain. cbn [json_string_body].
    destruct copy as [|k].
    + destruct (byteZ c <? 128) eqn:Hascii.
      * rewrite append_assoc, json_escape_ascii_parse by exact Hascii.
        rewrite IH by (assumption || lia). reflexivity.
      * destruct (utf8_DecodeRuneInString (String c s)) as [r wid].
        apply andb_true_iff in Hplain as [Hplain Hs].
        apply andb_true_iff in Hplain as [Hplain H29].
        apply andb_true_iff in Hplain as [Hwid H28].
        apply negb_true_iff in Hwid, H28, H29. rewrite Hwid, H28, H29.
        rewrite append_String, parse_string_body_high
          by (apply Z.leb_le; apply Z.ltb_ge in Hascii; lia).
        rewrite IH by (assumption || lia). reflexivity.
    + apply andb_true_iff in Hplain as [Hc Hs].
      rewrite append_String, parse_string_body_high by exact Hc.
      rewrite IH by (assumption || lia). reflexivity.
Qed.

Lemma json_escape_ascii_length (c : ascii) : (1 <= String.length (json_escape_ascii c))%nat.
Proof.
  unfold json_escape_ascii, json_escape_u00.
  repeat match goal with |- context [if ?b then _ else _] => destruct b end;
    cbn [String.length]; lia.
Qed.

Lemma json_string_body_length (s : string) (copy : nat) :
  json_plain_from copy s = true ->
  (String.length s <= String.length (json_string_body true copy s))%nat.
Proof.
  revert copy. induction s as [|c s IH]; intros copy Hplain; [cbn; lia|].
  cbn [json_plain_from] in Hplain. cbn [json_string_body String.length].
  destruct copy as [|k].
  - destruct (byteZ c <? 128).
    + rewrite length_append. pose proof (json_escape_ascii_length c).
      specialize (IH O Hplain). lia.
    + destruct (utf8_DecodeRuneInString (String c s)) as [r wid].
      apply andb_true_iff in Hplain as [Hplain Hs].
      apply andb_true_iff in Hplain as [Hplain H29].
      apply andb_true_iff in Hplain as [Hwid H28].
      apply negb_true_iff in Hwid, H28, H29. rewrite Hwid, H28, H29.
      cbn [String.length]. specialize (IH _ Hs). lia.
  - apply andb_true_iff in Hplain as [_ Hs].
    cbn [String.length]. specialize (IH k Hs). lia.
Qed.

Lemma next_token_space (c : ascii) (x : string) :
  is_space c = true -> next_token (String c x) = next_token x.
Proof. intros H. unfold next_token. cbn [skip_space]. now rewrite H. Qed.

Lemma next_token_char (c : ascii) (x : string) :
  is_space c = false -> next_token (String c x) = Some (c, x).
Proof. intros H. unfold next_token. cbn [skip_space]. now rewrite H. Qed.

(** Reading back a string literal. *)
Lemma parse_json_string (s rest : string) :
  json_plain s = true ->
  parse_string (json_string s +:+ rest) = Some (s, rest).
Proof.
  intros Hplain. unfold parse_string, json_string.
  rewrite append_String, next_token_char by reflexivity.
  rewrite bool_decide_eq_true_2 by reflexivity.
  rewrite append_assoc, append_String, append_empty_l.
  apply json_string_body_parse; [exact Hplain|].
  rewrite length_append. cbn [String.length].
  pose proof (json_string_body_length s O Hplain). lia.
Qed.

Lemma parse_string_space (c : ascii) (x : string) :
  is_space c = true -> parse_string (String c x) = parse_string x.
Proof. intros H. unfold parse_string. now rewrite next_token_space. Qed.

Lemma expect_space (c d : ascii) (x : string) :
  is_space d = true -> expect c (String d x) = expect c x.
Proof. intros H. unfold expect. now rewrite next_token_space. Qed.

Lemma expect_char (c : ascii) (x : string) :
  is_space c = false -> expect c (String c x) = Some x.
Proof.
  intros H. unfold expect. rewrite next_token_char by exact H.
  now rewrite bool_decide_eq_true_2.
Qed.

(** One member of an object: a key, a colon and a value. *)
Lemma parse_string_token (s key s1 : string) :
  parse_string s = Some (key, s1) -> exists r, next_token s = Some (quote_char, r).
Proof.
  unfold parse_string. destruct (next_token s) as [[c r]|]; [|discriminate].
  case_bool_decide; [|discriminate]. subst c. eauto.
Qed.

Lemma parse_members_step {A} (member : string -> A -> string -> option (A * string))
    (fuel : nat) (first : bool) (acc acc' : A) (s key s1 s2 s3 : string) :
  parse_string s = Some (key, s1) ->
  expect ":"%char s1 = Some s2 ->
  member key acc s2 = Some (acc', s3) ->
  parse_members member (S fuel) first acc s
  = match next_token s3 with
    | Some (d, s4) =>
        if bool_decide (d = "}"%char) then Some (acc', s4)
        else if bool_decide (d = ","%char) then parse_members member fuel false acc' s4
        else None
    | None => None
    end.
Proof.
  intros Hkey Hcolon Hmember. cbn [parse_members].
  destruct (parse_string_token _ _ _ Hkey) as [r ->].
  rewrite bool_decide_eq_false_2 by discriminate.
  now rewrite Hkey, Hcolon, Hmember.
Qed.

Ltac read_string :=
  unfold nl; autorewrite with strnorm;
  rewrite ?parse_string_space by reflexivity;
  match goal with
  | |- parse_string (json_string ?s +:+ ?x) = _ => apply parse_json_string
  end.

Ltac read_colon :=
  unfold nl; autorewrite with strnorm; rewrite ?expect_space by reflexivity;
  apply expect_char; reflexivity.

Lemma parse_entry_member_last_edited (acc : cacheEntry) (v rest : string) :
  json_plain v = true ->
  parse_entry_member "last_edited" acc (String " " (json_string v +:+ rest))
  = Some (mkCacheEntry v (OutputPath acc), rest).
Proof.
  intros Hv. unfold parse_entry_member.
  rewrite parse_string_space by reflexivity.
  now rewrite parse_json_string.
Qed.

Lemma parse_entry_member_output_path (acc : cacheEntry) (v rest : string) :
  json_plain v = true ->
  parse_entry_member "output_path" acc (String " " (json_string v +:+ rest))
  = Some (mkCacheEntry (LastEdited acc) v, rest).
Proof.
  intros Hv. unfold parse_entry_member.
  rewrite parse_string_space by reflexivity.
  now rewrite parse_json_string.
Qed.

Lemma parse_entry_fields (e : cacheEntry) (rest : string) (fuel : nat) :
  json_plain (LastEdited e) = true -> json_plain (OutputPath e) = true ->
  parse_members parse_entry_member (S (S fuel)) true (mkCacheEntry EmptyString EmptyString)
    (entry_fields e +:+ rest)
  = Some (e, rest).
Proof.
  intros Hle Hop. unfold entry_fields.
  erewrite parse_members_step;
    [|read_string; reflexivity|read_colon
     |apply parse_entry_member_last_edited; exact Hle].
  rewrite next_token_char by reflexivity.
  rewrite bool_decide_eq_false_2 by discriminate.
  rewrite bool_decide_eq_true_2 by reflexivity.
  erewrite parse_members_step;
    [|read_string; reflexivity|read_colon
     |apply parse_entry_member_output_path; exact Hop].
  rewrite !next_token_space by reflexivity.
  rewrite next_token_char by reflexivity.
  rewrite bool_decide_eq_true_2 by reflexivity.
  destruct e; reflexivity.
Qed.

Lemma json_entry_fields (kv : string * cacheEntry) :
  json_entry kv = "    " +:+ json_string (fst kv) +:+ ": {" +:+ entry_fields (snd kv).
Proof. reflexivity. Qed.

Lemma entry_fields_length (e : cacheEntry) (rest : string) :
  exists n, String.length (entry_fields e +:+ rest) = S (S n).
Proof.
  unfold entry_fields, nl. autorewrite with strnorm. cbn [String.length]. eauto.
Qed.

Lemma parse_page_member_entry (key : string) (acc : gmap string cacheEntry)
    (e : cacheEntry) (rest : string) :
  json_plain (LastEdited e) = true -> json_plain (OutputPath e) = true ->
  parse_page_member key acc (String " " (String "{" (entry_fields e +:+ rest)))
  = Some (<[key := e]> acc, rest).
Proof.
  intros Hle Hop. unfold parse_page_member.
  rewrite expect_space, expect_char by reflexivity.
  destruct (entry_fields_length e rest) as [n ->].
  now rewrite parse_entry_fields.
Qed.

Lemma parse_members_space {A} (member : string -> A -> string -> option (A * string))
    (fuel : nat) (first : bool) (acc : A) (c : ascii) (x : string) :
  is_space c = true ->
  parse_members member fuel first acc (String c x) = parse_members member fuel first acc x.
Proof.
  intros Hc. destruct fuel as [|fuel]; [reflexivity|].
  cbn [parse_members]. now rewrite next_token_space, parse_string_space.
Qed.

Lemma parse_page_members (entries : list (string * cacheEntry)) :
  forall (acc : gmap string cacheEntry) (fuel : nat) (first : bool) (rest : string),
    entries <> [] ->
    forallb entry_plain entries = true ->
    (length entries <= fuel)%nat ->
    parse_members parse_page_member fuel first acc
      (entries_text entries +:+ nl +:+ "  }" +:+ rest)
    = Some (fold_left (fun acc kv => <[fst kv := snd kv]> acc) entries acc, rest).
Proof.
  induction entries as [|kv entries IH]; intros acc fuel first rest Hne Hplain Hfuel;
    [contradiction|].
  cbn [forallb] in Hplain. apply andb_true_iff in Hplain as [Hkv Hrest].
  unfold entry_plain in Hkv.
  apply andb_true_iff in Hkv as [Hkv Hop]. apply andb_true_iff in Hkv as [Hk Hle].
  destruct fuel as [|fuel]; [cbn in Hfuel; lia|]. cbn [length] in Hfuel.
  unfold entries_text. cbn [map fold_left].
  destruct entries as [|kv2 entries].
  - cbn [strings_Join map]. rewrite json_entry_fields.
    erewrite parse_members_step;
      [|read_string; exact Hk|read_colon
       |apply parse_page_member_entry; assumption].
    unfold nl. autorewrite with strnorm.
    rewrite !next_token_space by reflexivity.
    rewrite next_token_char by reflexivity.
    now rewrite bool_decide_eq_true_2.
  - change (strings_Join (json_entry kv :: map json_entry (kv2 :: entries)) ("," +:+ nl))
      with (json_entry kv +:+ ("," +:+ nl) +:+ entries_text (kv2 :: entries)).
    rewrite json_entry_fields.
    erewrite parse_members_step;
      [|read_string; exact Hk|read_colon
       |apply parse_page_member_entry; assumption].
    unfold nl. autorewrite with strnorm.
    rewrite next_token_char by reflexivity.
    rewrite bool_decide_eq_false_2 by discriminate.
    rewrite bool_decide_eq_true_2 by reflexivity.
    rewrite parse_members_space by reflexivity.
    apply IH; [discriminate|exact Hrest|cbn [length] in *; lia].
Qed.

Lemma entries_text_length (entries : list (string * cacheEntry)) (x : string) :
  (length entries <= String.length (entries_text entries +:+ x))%nat.
Proof.
  induction entries as [|kv entries IH]; [cbn; lia|].
  unfold entries_text in *. cbn [map length].
  destruct entries as [|kv2 entries].
  - cbn [strings_Join map]. rewrite json_entry_fields.
    autorewrite with strnorm. cbn [String.length length]. lia.
  - change (strings_Join (json_entry kv :: map json_entry (kv2 :: entries)) ("," +:+ nl))
      with (json_entry kv +:+ ("," +:+ nl) +:+
            strings_Join (map json_entry (kv2 :: entries)) ("," +:+ nl)).
    rewrite !length_append. rewrite length_append in IH.
    cbn [String.length length] in *. lia.
Qed.

(** The encoder writes every entry of the map once, sorted by key. *)
Lemma insert_by_key_perm (kv : string * cacheEntry) (l : list (string * cacheEntry)) :
  insert_by_key kv l ≡ₚ kv :: l.
Proof.
  induction l as [|kv' l IH]; [reflexivity|].
  cbn [insert_by_key]. destruct (string_leb (fst kv) (fst kv')); [reflexivity|].
  rewrite IH. apply Permutation_swap.
Qed.

Lemma sorted_entries_perm (pages : gmap string cacheEntry) :
  sorted_entries pages ≡ₚ map_to_list pages.
Proof.
  unfold sorted_entries. induction (map_to_list pages) as [|kv l IH]; [reflexivity|].
  cbn [fold_right]. rewrite insert_by_key_perm. now rewrite IH.
Qed.

Lemma fold_left_insert_sorted (pages : gmap string cacheEntry) :
  fold_left (fun acc kv => <[fst kv := snd kv]> acc) (sorted_entries pages) ∅ = pages.
Proof.
  rewrite <- (fold_left_rev_right (fun kv acc => <[fst kv := snd kv]> acc)).
  change (list_to_map (rev (sorted_entries pages)) = pages).
  rewrite <- (list_to_map_to_list pages) at 2.
  symmetry. apply list_to_map_proper.
  - apply NoDup_fst_map_to_list.
  - rewrite <- Permutation_rev. symmetry. apply sorted_entries_perm.
Qed.

Lemma sorted_entries_plain (cache : runCache) :
  cache_plain cache = true -> forallb entry_plain (sorted_entries (Pages cache)) = true.
Proof.
  unfold cache_plain. rewrite !forallb_forall. intros Hplain kv Hin.
  apply Hplain. apply list_elem_of_In. apply list_elem_of_In in Hin.
  now rewrite <- sorted_entries_perm.
Qed.

Lemma skip_space_space (c : ascii) (x : string) :
  is_space c = true -> skip_space (String c x) = skip_space x.
Proof. intros H. cbn [skip_space]. now rewrite H. Qed.

Lemma skip_space_char (c : ascii) (x : string) :
  is_space c = false -> skip_space (String c x) = String c x.
Proof. intros H. cbn [skip_space]. now rewrite H. Qed.

(** The decoder reads back what the encoder writes. *)
Lemma json_Unmarshal_MarshalIndent_plain (cache : runCache) :
  cache_plain cache = true ->
  exists content,
    json_MarshalIndent_plain cache = Ok content /\
    json_Unmarshal_plain content = Ok (Some (Pages cache)).
Proof.
  intros Hplain. eexists. split; [reflexivity|].
  pose proof (sorted_entries_plain cache Hplain) as Hentries.
  pose proof (fold_left_insert_sorted (Pages cache)) as Hfold.
  unfold json_Unmarshal_plain.
  destruct (sorted_entries (Pages cache)) as [|kv entries] eqn:Hsorted.
  - cbn [fold_left] in Hfold. rewrite <- Hfold.
    unfold nl. autorewrite with strnorm.
    rewrite expect_char by reflexivity. cbn [String.length].
    erewrite parse_members_step;
      [|read_string; reflexivity|read_colon|reflexivity].
    reflexivity.
  - unfold nl. autorewrite with strnorm.
    rewrite expect_char by reflexivity. cbn [String.length].
    erewrite parse_members_step;
      [|read_string; reflexivity|read_colon|].
    2:{ unfold parse_top_member.
        change (string_eqb "pages" "pages") with true. cbv iota.
        rewrite skip_space_space, skip_space_char by reflexivity. cbv beta iota.
        rewrite expect_space, expect_char by reflexivity.
        rewrite parse_members_space by reflexivity.
        repeat match goal with
        | |- context [strings_Join (map json_entry (kv :: entries)) ?sep] =>
            change (strings_Join (map json_entry (kv :: entries)) sep)
              with (entries_text (kv :: entries))
        end.
        change (String "010" (String " " (String " " (String "}" (String "010" "}")))))
          with (nl +:+ "  }" +:+ String "010" "}").
        rewrite parse_page_members;
          [reflexivity|discriminate|exact Hentries|].
        cbn [String.length]. pose proof (entries_text_length (kv :: entries)
          (nl +:+ "  }" +:+ String "010" "}")). lia. }
    rewrite Hfold.
    rewrite next_token_space, next_token_char by reflexivity.
    reflexivity.
Qed.

(** ** The cache file *)

Lemma os_WriteFile_ReadFile (name data : string) (fs fs' : FS) :
  os_WriteFile name data fs = (fs', Ok tt) ->
  os_ReadFile name fs' = (fs', Ok data).
Proof.
  unfold os_WriteFile, os_ReadFile, open_for_write.
  destruct (string_eqb name EmptyString); [discriminate|].
  destruct (FS_is_dir fs (filepath_Clean name)) eqn:Hdir; [discriminate|].
  destruct (FS_is_dir fs (filepath_Dir (filepath_Clean name)));
    [|destruct (FS_is_file fs _); discriminate].
  intros H. injection H as <-.
  unfold FS_is_dir in *. cbn [dirs files]. rewrite Hdir.
  now rewrite lookup_insert_eq.
Qed.

(** With any JSON codec: when the text written for the cache decodes to
    the entries it encodes, a successful save followed by a load from the
    same path returns the cache, and the file holds the encoded text. *)
Lemma saveCache_loadCache_with_codec :
  forall (path content : string) (cache : runCache) (fs fs' : FS),
    path <> EmptyString ->
    json_MarshalIndent cache = Ok content ->
    json_Unmarshal content = Ok (Some (Pages cache)) ->
    saveCache path cache fs = (fs', Ok tt) ->
    loadCache path fs' = (fs', Ok cache)
    /\ files fs' !! filepath_Clean path = Some content.
Proof.
  intros path content cache fs fs' Hpath Henc Hdec Hsave.
  unfold saveCache in Hsave. unfold loadCache.
  unfold string_eqb at 1 in Hsave. unfold string_eqb at 1.
  rewrite bool_decide_eq_false_2 in * by assumption.
  rewrite Henc in Hsave. unfold bind in Hsave.
  match type of Hsave with
  | (let (_, _) := ?m fs in _) = _ => destruct (m fs) as [fs1 [[]|err]]; [|discriminate]
  end.
  pose proof (os_WriteFile_ReadFile _ _ _ _ Hsave) as Hread.
  rewrite Hread, Hdec. destruct cache as [pages]. split; [reflexivity|].
  revert Hread. unfold os_ReadFile.
  destruct (string_eqb path EmptyString); [discriminate|].
  destruct (FS_is_dir fs' _); [discriminate|].
  destruct (files fs' !! filepath_Clean path); [|discriminate].
  intros H. now injection H as ->.
Qed.

(** ** The recursion bound

    The nesting depth of the block tree is enough fuel: with any larger
    bound the renderer computes the same result. *)

Lemma Block_height_set_Image (b : Block) (img : option FileBlock) :
  Block_height (set_Block_Image b img) = Block_height b.
Proof. destruct b; reflexivity. Qed.

Lemma Block_height_children (b : Block) :
  Block_height b = S (Blocks_height (Block_Children b)).
Proof. destruct b; reflexivity. Qed.

Lemma GenContentBlocks_body_ext G G' depth tm block k fs (n : nat) :
  (forall tm bType mdb fs,
      (Block_height (MdBlock_Block mdb) <= n)%nat -> G tm bType mdb fs = G' tm bType mdb fs) ->
  (Block_height block <= n)%nat ->
  GenContentBlocks_body G depth tm block k fs = GenContentBlocks_body G' depth tm block k fs.
Proof.
  intros Hagree Hh. unfold GenContentBlocks_body, bind.
  set (tm0 := set_extra tm _).
  destruct (string_eqb (Block_Type block) BlockTypeImage).
  - destruct (Block_Image block) as [image|]; [|reflexivity].
    destruct (downloadImage tm0 image fs) as [fs1 [image'|err]]; [|reflexivity].
    cbn [ret fst snd]. apply Hagree. cbn [MdBlock_Block].
    now rewrite Block_height_set_Image.
  - destruct (string_eqb (Block_Type block) BlockTypeBookmark).
    + destruct (Block_Bookmark block) as [bookmark|]; [|reflexivity].
      destruct (injectBookmarkInfo bookmark (extra tm0)) as [ex|err]; [|reflexivity].
      cbn [ret fst snd]. now apply Hagree.
    + cbn [ret fst snd]. now apply Hagree.
Qed.

Lemma GenContentBlocks_loop_ext G G' depth blocks (n : nat) :
  (forall tm bType mdb fs,
      (Block_height (MdBlock_Block mdb) <= n)%nat -> G tm bType mdb fs = G' tm bType mdb fs) ->
  (Blocks_height blocks <= n)%nat ->
  forall idx last tm fs,
    GenContentBlocks_loop G depth blocks idx last tm fs
    = GenContentBlocks_loop G' depth blocks idx last tm fs.
Proof.
  intros Hagree. induction blocks as [|b blocks IH]; intros Hh idx last tm fs;
    [reflexivity|].
  cbn [Blocks_height fold_right] in Hh. fold (Blocks_height blocks) in Hh.
  cbn [GenContentBlocks_loop].
  destruct (shouldSkipRender tm (Block_Type b)); [apply IH; lia|].
  unfold bind.
  rewrite (GenContentBlocks_body_ext G G' depth tm b _ fs n) by (assumption || lia).
  destruct (GenContentBlocks_body G' depth tm b _ fs) as [fs1 [tm1|err]]; [|reflexivity].
  apply IH. lia.
Qed.

Lemma getChildrenBlocks_height (block : MdBlock) :
  (S (Blocks_height (getChildrenBlocks block)) <= Block_height (MdBlock_Block block))%nat.
Proof.
  unfold getChildrenBlocks. rewrite Block_height_children.
  destruct (existsb _ _); cbn [Blocks_height fold_right]; lia.
Qed.

Lemma GenBlock_fuel_enough (n : nat) :
  forall fuel tm bType block fs,
    (n <= fuel)%nat ->
    (Block_height (MdBlock_Block block) <= n)%nat ->
    GenBlock_fuel fuel tm bType block fs = GenBlock_fuel n tm bType block fs.
Proof.
  induction n as [|n IH]; intros fuel tm bType block fs Hfuel Hh.
  - rewrite Block_height_children in Hh. lia.
  - destruct fuel as [|fuel]; [lia|].
    cbn [GenBlock_fuel].
    destruct (mdTemplates _) as [tpl|]; [|reflexivity].
    destruct (tpl funcs block) as [out [e|]]; [reflexivity|].
    destruct (Block_HasChildren (MdBlock_Block block)); [|reflexivity].
    pose proof (getChildrenBlocks_height block).
    apply GenContentBlocks_loop_ext with (n := n); [|lia].
    intros tm' bType' mdb fs' Hmdb. apply IH; [lia|exact Hmdb].
Qed.

(** GenContentBlocks with the depth of the block tree as bound gives the
    result of every larger bound. *)
Lemma GenContentBlocks_fuel_enough (fuel : nat) tm blocks depth fs :
  (Blocks_height blocks <= fuel)%nat ->
  GenContentBlocks_fuel fuel tm blocks depth fs = GenContentBlocks tm blocks depth fs.
Proof.
  intros Hfuel. unfold GenContentBlocks, GenContentBlocks_fuel.
  apply GenContentBlocks_loop_ext with (n := Blocks_height blocks); [|lia].
  intros tm' bType mdb fs' Hmdb.
  rewrite (GenBlock_fuel_enough (Block_height (MdBlock_Block mdb)) fuel) by lia.
  rewrite (GenBlock_fuel_enough (Block_height (MdBlock_Block mdb)) (Blocks_height blocks))
    by lia.
  reflexivity.
Qed.

(** ** Failed downloads at every nesting depth *)

Lemma sameBlockIdx_of_loop G depth block rest idx last tm :
  shouldSkipRender tm (Block_Type block) = false ->
  GenContentBlocks_loop G depth (block :: rest) idx last tm
  = (tm' <- GenContentBlocks_body G depth tm block (sameBlockIdx_of idx last block) ;;
     GenContentBlocks_loop G depth rest (sameBlockIdx_of idx last block) (Block_Type block)
       tm').
Proof. intros Hskip. cbn [GenContentBlocks_loop]. now rewrite Hskip. Qed.

Lemma children_types_plain (bType : string) :
  In bType children_types ->
  string_eqb bType BlockTypeImage = false /\ string_eqb bType BlockTypeBookmark = false /\
  existsb (string_eqb bType) children_types = true.
Proof.
  intros Hin. cbn [In children_types] in Hin.
  repeat (destruct Hin as [<-|Hin]; [repeat split; reflexivity|]).
  contradiction.
Qed.

(** The loop stops with the error of the download wherever the image block
    is: among the siblings or among the children of a rendered block. *)
Lemma failed_download_loop depth blocks idx last tm fs fs' e :
  failed_download depth blocks idx last tm fs fs' e ->
  forall fuel : nat,
    (Blocks_height blocks <= fuel)%nat ->
    GenContentBlocks_loop (GenBlock_fuel fuel) depth blocks idx last tm fs = (fs', Err e).
Proof.
  induction 1 as
    [depth block rest idx last tm fs image fs' e Htype Himage Hdl
    |depth block rest idx last tm fs fs' e Hskip _ IH
    |depth block rest idx last tm fs tm1 fs1 fs' e Hskip Hbody _ IH
    |depth block rest idx last tm fs tpl out fs' e Hskip Hin Hchildren Htpl Hexec _ IH];
    intros fuel Hfuel;
    cbn [Blocks_height fold_right] in Hfuel; fold (Blocks_height rest) in Hfuel.
  - rewrite sameBlockIdx_of_loop by (rewrite Htype; apply shouldSkipRender_image).
    unfold bind.
    now rewrite (GenContentBlocks_body_image_error _ _ _ _ _ _ _ _ _ Htype Himage Hdl).
  - cbn [GenContentBlocks_loop]. rewrite Hskip. apply IH. lia.
  - rewrite sameBlockIdx_of_loop by exact Hskip. unfold bind.
    rewrite (GenContentBlocks_body_ext (GenBlock_fuel fuel) GenBlock depth tm block _ fs fuel),
      Hbody; [apply IH; lia| |lia].
    intros tm' bType mdb fs0 Hmdb. unfold GenBlock.
    apply GenBlock_fuel_enough; [exact Hmdb|lia].
  - rewrite sameBlockIdx_of_loop by exact Hskip. unfold bind.
    destruct (children_types_plain _ Hin) as (Himage & Hbookmark & Hlisted).
    unfold GenContentBlocks_body. rewrite Himage, Hbookmark.
    unfold bind, ret. cbn [fst snd extra set_extra].
    destruct fuel as [|fuel]; [rewrite Block_height_children in Hfuel; lia|].
    erewrite GenBlock_fuel_children_error; [reflexivity|exact Htpl|exact Hexec|exact Hchildren|].
    unfold getChildrenBlocks. cbn [MdBlock_Block Depth]. rewrite Hlisted.
    apply IH. rewrite Block_height_children in Hfuel. fold (Blocks_height (Block_Children block)) in Hfuel. lia.
Qed.

(** C4, amended. A failure, on the network or on the file system, of the
    download of an image block is fatal, at every nesting depth: when the
    front matter has been rendered and the block renderer, going through
    the blocks of the page, comes to an image block whose download fails,
    among the top-level blocks or among the children, grandchildren, ...
    of a rendered block, GenerateTo stops with the error of the download;
    in particular so for an image block of the top-level list once the
    siblings before it are rendered.  A failure of the download of a page's
    cover image is not fatal: the error is dropped, the front matter gets
    no cover entry and the front-matter stage goes on. *)
Theorem image_download_failure_is_fatal_cover_failure_is_not :
  (forall (tm : ToMarkdown) (writer : string) (blocks : list Block)
          (fs fs0 fs' : FS) (e : error),
      GenFrontMatter tm writer fs = (fs0, Ok tt) ->
      failed_download 0 blocks 0 EmptyString tm fs0 fs' e ->
      GenerateTo tm blocks writer fs = (fs', Err e))
  /\
  (forall (tm tm1 : ToMarkdown) (writer : string) (pre post : list Block)
          (block : Block) (image : FileBlock) (fs fs0 fs1 fs2 : FS) (e : error),
      Block_Type block = BlockTypeImage ->
      Block_Image block = Some image ->
      GenFrontMatter tm writer fs = (fs0, Ok tt) ->
      GenContentBlocks_loop (GenBlock_fuel (Blocks_height (pre ++ block :: post)))
        0 pre 0 EmptyString tm fs0 = (fs1, Ok tm1) ->
      downloadImage tm1 image fs1 = (fs2, Err e) ->
      GenerateTo tm (pre ++ block :: post) writer fs = (fs2, Err e))
  /\
  (forall (tm : ToMarkdown) (page : Page) (cover : Cover) (fs fs' : FS) (e : error),
      Page_Cover page = Some cover ->
      downloadImage tm (cover_image cover) fs = (fs', Err e) ->
      injectFrontMatterCover tm (Some cover) fs = (fs', tm) /\
      WithFrontMatter tm page fs
      = (fs', match Page_Properties page with
              | None => Err (GoPanic "interface conversion")
              | Some pageProps =>
                  Ok (fold_left (fun tm kv => injectFrontMatter tm (fst kv) (snd kv))
                        pageProps tm)
              end)).
Proof.
  split; [|split].
  - intros tm writer blocks fs fs0 fs' e Hfm Hreach.
    unfold GenerateTo, bind at 1. rewrite Hfm.
    unfold bind at 1. unfold GenContentBlocks, GenContentBlocks_fuel.
    now rewrite (failed_download_loop _ _ _ _ _ _ _ _ Hreach (Blocks_height blocks))
      by reflexivity.
  - intros tm tm1 writer pre post block image fs fs0 fs1 fs2 e
      Htype Himage Hfm Hpre Hdl.
    unfold GenerateTo, bind at 1. rewrite Hfm.
    unfold bind at 1. unfold GenContentBlocks, GenContentBlocks_fuel.
    erewrite GenContentBlocks_loop_body_error; [reflexivity|exact Hpre| |].
    + rewrite Htype. apply shouldSkipRender_image.
    + intros k. eapply GenContentBlocks_body_image_error; eassumption.
  - intros tm page cover fs fs' e Hcover Hdl.
    assert (Hinj : injectFrontMatterCover tm (Some cover) fs = (fs', tm)).
    { unfold injectFrontMatterCover. fold (cover_image cover). now rewrite Hdl. }
    split; [exact Hinj|].
    unfold WithFrontMatter. rewrite Hcover, Hinj.
    destruct (Page_Properties page); reflexivity.
Qed.

(** * Further properties *)

(** ** Rich text *)

Lemma ConvertRichText_from (t : list RichText) (buf : string) :
  fold_left (fun buf word => buf +:+ ConvertRich word) t buf = buf +:+ ConvertRichText t.
Proof.
  unfold ConvertRichText. revert buf.
  induction t as [|w t IH]; intros buf; cbn [fold_left].
  - now rewrite append_empty_r.
  - rewrite IH, (IH (EmptyString +:+ ConvertRich w)).
    now rewrite append_empty_l, append_assoc.
Qed.

Lemma ConvertRichText_cons (w : RichText) (t : list RichText) :
  ConvertRichText (w :: t) = ConvertRich w +:+ ConvertRichText t.
Proof.
  unfold ConvertRichText at 1. cbn [fold_left]. now rewrite ConvertRichText_from.
Qed.

(** X1. ConvertRichText renders the spans one by one, in order: the text
    of a concatenation of two span lists is the concatenation of their
    texts, and the empty list renders as the empty string. *)
Theorem ConvertRichText_app :
  forall a b : list RichText,
    ConvertRichText (a ++ b) = ConvertRichText a +:+ ConvertRichText b.
Proof.
  intros a b. unfold ConvertRichText at 1. rewrite fold_left_app.
  fold (ConvertRichText a). apply ConvertRichText_from.
Qed.

(** X2. Spans that are not of type "text" (mentions, equations) leave no
    trace: the rendered text is that of the text spans alone. *)
Theorem ConvertRichText_text_only :
  forall t : list RichText,
    ConvertRichText t
    = ConvertRichText
        (List.filter (fun w => string_eqb (RichText_Type w) RichTextTypeText) t).
Proof.
  induction t as [|w t IH]; [reflexivity|].
  cbn [List.filter]. rewrite ConvertRichText_cons.
  destruct (string_eqb (RichText_Type w) RichTextTypeText) eqn:Htype.
  - now rewrite ConvertRichText_cons, IH.
  - unfold ConvertRich. rewrite Htype. exact IH.
Qed.

(** ** Lines *)

Lemma lacks_byte_append (sep : ascii) (a b : string) :
  lacks_byte sep (a +:+ b) = lacks_byte sep a && lacks_byte sep b.
Proof. apply string_forallb_append. Qed.

Lemma strings_Split_byte_lacks (sep : ascii) (s cur : string) :
  lacks_byte sep s = true ->
  strings_Split_byte s sep cur = [string_rev_app cur EmptyString +:+ s].
Proof.
  revert cur. induction s as [|c s IH]; intros cur H.
  - cbn. now rewrite append_empty_r.
  - cbn [lacks_byte string_forallb] in H. apply andb_true_iff in H as [Hc Hs].
    cbn [strings_Split_byte]. apply negb_true_iff in Hc. rewrite Hc, IH by exact Hs.
    cbn [string_rev_app]. rewrite (string_rev_app_append cur (String c EmptyString)).
    now rewrite append_assoc.
Qed.

Lemma strings_Split_byte_at (sep : ascii) (a b cur : string) :
  lacks_byte sep a = true ->
  strings_Split_byte (a +:+ String sep b) sep cur
  = (string_rev_app cur EmptyString +:+ a) :: strings_Split_byte b sep EmptyString.
Proof.
  revert cur. induction a as [|c a IH]; intros cur H.
  - rewrite append_empty_l, append_empty_r. cbn [strings_Split_byte].
    now rewrite bool_decide_eq_true_2.
  - cbn [lacks_byte string_forallb] in H. apply andb_true_iff in H as [Hc Hs].
    rewrite append_String. cbn [strings_Split_byte].
    apply negb_true_iff in Hc. rewrite Hc, IH by exact Hs.
    cbn [string_rev_app]. rewrite (string_rev_app_append cur (String c EmptyString)).
    now rewrite append_assoc.
Qed.

(** Splitting what was joined gives the elements back, when none of them
    contains the separator. *)
Lemma strings_Split_Join (sep : ascii) (elems : list string) :
  elems <> [] ->
  forallb (lacks_byte sep) elems = true ->
  strings_Split_byte (strings_Join elems (String sep EmptyString)) sep EmptyString = elems.
Proof.
  induction elems as [|e elems IH]; intros Hne Hall; [contradiction|].
  cbn [forallb] in Hall. apply andb_true_iff in Hall as [He Hrest].
  destruct elems as [|e2 elems].
  - cbn [strings_Join]. now rewrite strings_Split_byte_lacks.
  - change (strings_Join (e :: e2 :: elems) (String sep EmptyString))
      with (e +:+ String sep EmptyString +:+ strings_Join (e2 :: elems) (String sep EmptyString)).
    rewrite append_String, append_empty_l.
    rewrite strings_Split_byte_at by exact He.
    rewrite IH by (discriminate || exact Hrest). reflexivity.
Qed.

Lemma string_rev_app_lacks (sep : ascii) (s acc : string) :
  lacks_byte sep (string_rev_app s acc) = lacks_byte sep s && lacks_byte sep acc.
Proof.
  revert acc. induction s as [|c s IH]; intros acc; [reflexivity|].
  cbn [string_rev_app]. rewrite IH. cbn [lacks_byte string_forallb].
  fold (lacks_byte sep s). fold (lacks_byte sep acc).
  destruct (negb (bool_decide (c = sep))), (lacks_byte sep s), (lacks_byte sep acc);
    reflexivity.
Qed.

(** The elements of a split do not contain the separator. *)
Lemma strings_Split_byte_elems (sep : ascii) (s cur : string) :
  lacks_byte sep cur = true ->
  forallb (lacks_byte sep) (strings_Split_byte s sep cur) = true.
Proof.
  revert cur. induction s as [|c s IH]; intros cur Hcur.
  - cbn [strings_Split_byte forallb]. rewrite string_rev_app_lacks, Hcur. reflexivity.
  - cbn [strings_Split_byte]. case_bool_decide as Hc.
    + cbn [forallb]. rewrite string_rev_app_lacks, Hcur. cbn [andb].
      apply IH. reflexivity.
    + apply IH. cbn [lacks_byte string_forallb]. fold (lacks_byte sep cur).
      rewrite Hcur. now rewrite bool_decide_eq_false_2.
Qed.

Lemma strings_Split_byte_nonempty (sep : ascii) (s cur : string) :
  strings_Split_byte s sep cur <> [].
Proof.
  revert cur. induction s as [|c s IH]; intros cur; cbn [strings_Split_byte];
    [discriminate|].
  destruct (bool_decide (c = sep)); [discriminate|apply IH].
Qed.

Lemma strings_Repeat_succ (s : string) (n : nat) :
  Nat.iter (S n) (fun acc => s +:+ acc) EmptyString
  = s +:+ Nat.iter n (fun acc => s +:+ acc) EmptyString.
Proof. reflexivity. Qed.

(** The indentation of nesting depth [depth]: twice as many spaces. *)
Lemma strings_Repeat_spaces (depth : Z) :
  string_forallb (fun c => bool_decide (c = " "%char)) (strings_Repeat "  " depth) = true
  /\ Z.of_nat (String.length (strings_Repeat "  " depth)) = 2 * Z.max 0 depth.
Proof.
  unfold strings_Repeat.
  replace (Z.max 0 depth) with (Z.of_nat (Z.to_nat depth)) by lia.
  induction (Z.to_nat depth) as [|n [IH1 IH2]]; [split; reflexivity|].
  rewrite strings_Repeat_succ. split.
  - rewrite !append_String, append_empty_l. cbn [string_forallb]. now rewrite IH1.
  - rewrite length_append. cbn [String.length]. lia.
Qed.

(** X3. The template function indentCode returns the text unchanged at
    depth 0; at a depth above 0 it puts two spaces per level in front of
    every line of the text, empty lines and the last line included, and
    keeps the number and the order of the lines. *)
Theorem indentCode_indents_every_line :
  forall (richText : list RichText) (depth : Z),
    let indent := strings_Repeat "  " depth in
    indentCode_func richText 0 = ConvertRichText richText
    /\ (0 < depth ->
        strings_Split_newline (indentCode_func richText depth)
        = map (fun line => indent +:+ line) (strings_Split_newline (ConvertRichText richText))
        /\ string_forallb (fun c => bool_decide (c = " "%char)) indent = true
        /\ Z.of_nat (String.length indent) = 2 * depth).
Proof.
  intros richText depth indent. split; [reflexivity|]. intros Hdepth.
  destruct (strings_Repeat_spaces depth) as [Hspaces Hlen]. fold indent in Hspaces, Hlen.
  split; [|split; [exact Hspaces|lia]].
  unfold indentCode_func. fold indent.
  replace (depth =? 0) with false by (symmetry; apply Z.eqb_neq; lia).
  unfold strings_Split_newline at 1.
  apply strings_Split_Join.
  - pose proof (strings_Split_byte_nonempty "010"%char (ConvertRichText richText) EmptyString).
    unfold strings_Split_newline. destruct (strings_Split_byte _ _ _); [contradiction|discriminate].
  - pose proof (strings_Split_byte_elems "010"%char (ConvertRichText richText) EmptyString
                  eq_refl) as Helems.
    unfold strings_Split_newline. rewrite forallb_forall in *.
    intros line Hin. apply in_map_iff in Hin as (l0 & <- & Hin).
    rewrite lacks_byte_append, (Helems l0 Hin), andb_true_r.
    unfold lacks_byte. eapply string_forallb_impl; [|exact Hspaces].
    intros c Hc. apply bool_decide_eq_true in Hc. subst c. reflexivity.
Qed.

(** ** The extended syntax *)

(** X4. On a fresh render context exactly the bookmark and callout blocks
    are left out; once EnableExtendedSyntax has been called, with whatever
    target, the extended syntax is enabled and no block type is left
    out. *)
Theorem EnableExtendedSyntax_renders_every_type :
  forall (tm : ToMarkdown) (target bType : string),
    ExtendedSyntaxEnabled (EnableExtendedSyntax tm target) = true
    /\ shouldSkipRender (EnableExtendedSyntax tm target) bType = false
    /\ ExtendedSyntaxEnabled New = false
    /\ (shouldSkipRender New bType = true <->
        bType = BlockTypeBookmark \/ bType = BlockTypeCallout).
Proof.
  intros tm target bType.
  assert (Hon : ExtendedSyntaxEnabled (EnableExtendedSyntax tm target) = true).
  { unfold ExtendedSyntaxEnabled, EnableExtendedSyntax. cbn [extra set_extra].
    rewrite lookup_insert_ne by discriminate. now rewrite lookup_insert_eq. }
  repeat split.
  - exact Hon.
  - unfold shouldSkipRender. now rewrite Hon.
  - unfold shouldSkipRender, blockTypeInExtendedSyntaxBlocks, extendedSyntaxBlocks.
    change (ExtendedSyntaxEnabled New) with false. cbn [negb andb existsb].
    rewrite orb_false_r. intros H. apply orb_true_iff in H as [H|H];
      apply bool_decide_eq_true in H; auto.
  - unfold shouldSkipRender, blockTypeInExtendedSyntaxBlocks, extendedSyntaxBlocks.
    change (ExtendedSyntaxEnabled New) with false. cbn [negb andb existsb].
    intros [->| ->]; reflexivity.
Qed.

Lemma ExtendedSyntaxEnabled_switch (tm tm' : ToMarkdown) :
  extra tm' !! "ExtendedSyntaxEnabled" = extra tm !! "ExtendedSyntaxEnabled" ->
  ExtendedSyntaxEnabled tm' = ExtendedSyntaxEnabled tm.
Proof. intros H. unfold ExtendedSyntaxEnabled. now rewrite H. Qed.

Lemma GenContentBlocks_loop_always_rendered G depth blocks :
  keeps_syntax_switch G ->
  forall idx last tm fs,
    ExtendedSyntaxEnabled tm = false ->
    GenContentBlocks_loop G depth blocks idx last tm fs
    = GenContentBlocks_loop G depth (List.filter always_rendered blocks) idx last tm fs.
Proof.
  intros HG. induction blocks as [|b blocks IH]; intros idx last tm fs Hoff;
    [reflexivity|].
  cbn [GenContentBlocks_loop List.filter]. unfold always_rendered at 1.
  assert (Hskip : shouldSkipRender tm (Block_Type b)
                  = blockTypeInExtendedSyntaxBlocks (Block_Type b))
    by (unfold shouldSkipRender; now rewrite Hoff).
  rewrite Hskip.
  destruct (blockTypeInExtendedSyntaxBlocks (Block_Type b)) eqn:Hext; cbn [negb].
  - now apply IH.
  - cbn [GenContentBlocks_loop]. rewrite Hskip. unfold bind.
    destruct (GenContentBlocks_body G depth tm b _ fs) as [fs1 [tm1|err]] eqn:Hbody;
      [|reflexivity].
    apply IH. rewrite <- Hoff. apply ExtendedSyntaxEnabled_switch.
    eapply GenContentBlocks_body_switch; eassumption.
Qed.

Lemma Blocks_height_cons (b : Block) (blocks : list Block) :
  Blocks_height (b :: blocks) = Nat.max (Block_height b) (Blocks_height blocks).
Proof. reflexivity. Qed.

Lemma Blocks_height_filter (P : Block -> bool) (blocks : list Block) :
  (Blocks_height (List.filter P blocks) <= Blocks_height blocks)%nat.
Proof.
  induction blocks as [|b blocks IH]; [reflexivity|].
  cbn [List.filter]. destruct (P b); rewrite ?Blocks_height_cons; lia.
Qed.

(** X5. While the extended syntax is disabled, the bookmark and callout
    blocks of a sibling list are as good as absent: the list renders
    exactly as the list without them does, with the same output, the same
    effects and the same error, so that a run of blocks of one type
    interrupted only by such blocks keeps counting. *)
Theorem GenContentBlocks_without_extended_blocks :
  forall (tm : ToMarkdown) (blocks : list Block) (depth : Z) (fs : FS),
    ExtendedSyntaxEnabled tm = false ->
    GenContentBlocks tm blocks depth fs
    = GenContentBlocks tm (List.filter always_rendered blocks) depth fs.
Proof.
  intros tm blocks depth fs Hoff.
  rewrite <- (GenContentBlocks_fuel_enough (Blocks_height blocks) tm
                (List.filter always_rendered blocks))
    by apply Blocks_height_filter.
  unfold GenContentBlocks, GenContentBlocks_fuel.
  apply GenContentBlocks_loop_always_rendered; [apply GenBlock_fuel_switch|exact Hoff].
Qed.

(** ** The render context *)

Lemma renders_onto_refl (tm : ToMarkdown) : renders_onto tm tm.
Proof.
  unfold renders_onto. repeat split. exists EmptyString. now rewrite append_empty_r.
Qed.

Lemma renders_onto_trans (tm1 tm2 tm3 : ToMarkdown) :
  renders_onto tm1 tm2 -> renders_onto tm2 tm3 -> renders_onto tm1 tm3.
Proof.
  unfold renders_onto.
  intros (H1 & H2 & H3 & H4 & out1 & H5) (K1 & K2 & K3 & K4 & out2 & K5).
  repeat split; try congruence.
  exists (out1 +:+ out2). now rewrite K5, H5, append_assoc.
Qed.

Lemma renders_onto_set_extra (tm : ToMarkdown) (ex : gmap string Value) :
  renders_onto tm (set_extra tm ex).
Proof.
  unfold renders_onto. cbn. repeat split. exists EmptyString. now rewrite append_empty_r.
Qed.

Lemma GenContentBlocks_body_renders_onto G depth tm block k fs fs' tm' :
  (forall tm bType mdb fs fs' tm',
      G tm bType mdb fs = (fs', Ok tm') -> renders_onto tm tm') ->
  GenContentBlocks_body G depth tm block k fs = (fs', Ok tm') ->
  renders_onto tm tm'.
Proof.
  intros HG. unfold GenContentBlocks_body, bind.
  set (tm0 := set_extra tm _).
  assert (H0 : renders_onto tm tm0) by apply renders_onto_set_extra.
  destruct (string_eqb (Block_Type block) BlockTypeImage).
  - destruct (Block_Image block) as [image|]; [|discriminate].
    destruct (downloadImage tm0 image fs) as [fs1 [image'|err]]; [|discriminate].
    cbn [ret fst snd]. intros H. apply HG in H. exact (renders_onto_trans _ _ _ H0 H).
  - destruct (string_eqb (Block_Type block) BlockTypeBookmark).
    + destruct (Block_Bookmark block) as [bookmark|]; [|discriminate].
      destruct (injectBookmarkInfo bookmark (extra tm0)) as [ex|err]; [|discriminate].
      cbn [ret fst snd]. intros H. apply HG in H.
      refine (renders_onto_trans _ _ _ H0 (renders_onto_trans _ _ _ _ H)).
      apply renders_onto_set_extra.
    + cbn [ret fst snd]. intros H. apply HG in H. exact (renders_onto_trans _ _ _ H0 H).
Qed.

Lemma GenContentBlocks_loop_renders_onto G depth blocks :
  (forall tm bType mdb fs fs' tm',
      G tm bType mdb fs = (fs', Ok tm') -> renders_onto tm tm') ->
  forall idx last tm fs fs' tm',
    GenContentBlocks_loop G depth blocks idx last tm fs = (fs', Ok tm') ->
    renders_onto tm tm'.
Proof.
  intros HG. induction blocks as [|b blocks IH]; intros idx last tm fs fs' tm' H.
  - cbn in H. injection H as <- <-. apply renders_onto_refl.
  - cbn [GenContentBlocks_loop] in H.
    destruct (shouldSkipRender tm (Block_Type b)); [eauto|].
    unfold bind in H.
    destruct (GenContentBlocks_body G depth tm b _ fs) as [fs1 [tm1|err]] eqn:Hbody;
      [|discriminate].
    apply IH in H. eapply GenContentBlocks_body_renders_onto in Hbody; [|exact HG].
    exact (renders_onto_trans _ _ _ Hbody H).
Qed.

Lemma GenBlock_fuel_renders_onto (fuel : nat) :
  forall tm bType mdb fs fs' tm',
    GenBlock_fuel fuel tm bType mdb fs = (fs', Ok tm') -> renders_onto tm tm'.
Proof.
  induction fuel as [|fuel IH]; intros tm bType block fs fs' tm'; cbn [GenBlock_fuel].
  all: destruct (mdTemplates _) as [tpl|];
    [|intros H; injection H as <- <-; apply renders_onto_refl].
  all: destruct (tpl funcs block) as [out [e|]]; [discriminate|].
  all: assert (Hout : renders_onto tm (set_ContentBuffer tm (ContentBuffer tm +:+ out)))
    by (unfold renders_onto; cbn; repeat split; eauto).
  all: destruct (Block_HasChildren (MdBlock_Block block));
    [|intros H; injection H as <- <-; exact Hout].
  - discriminate.
  - intros H. eapply GenContentBlocks_loop_renders_onto in H; [|exact IH].
    exact (renders_onto_trans _ _ _ Hout H).
Qed.

(** X6. Rendering a block list only appends: when GenContentBlocks
    succeeds, the content buffer of the render context is the buffer it
    started from followed by the text rendered, and the front matter, the
    two image paths and the content template are the ones it started
    from. *)
Theorem GenContentBlocks_only_appends :
  forall (tm tm' : ToMarkdown) (blocks : list Block) (depth : Z) (fs fs' : FS),
    GenContentBlocks tm blocks depth fs = (fs', Ok tm') ->
    renders_onto tm tm'.
Proof.
  intros tm tm' blocks depth fs fs'. unfold GenContentBlocks, GenContentBlocks_fuel.
  apply GenContentBlocks_loop_renders_onto. apply GenBlock_fuel_renders_onto.
Qed.

(** ** What is never removed *)

Lemma FS_grows_refl (fs : FS) : FS_grows fs fs.
Proof. split; reflexivity. Qed.

Lemma FS_grows_trans (fs1 fs2 fs3 : FS) :
  FS_grows fs1 fs2 -> FS_grows fs2 fs3 -> FS_grows fs1 fs3.
Proof. intros [H1 H2] [K1 K2]. split; etransitivity; eassumption. Qed.

Lemma never_removes_ret {A} (a : A) : never_removes (ret a).
Proof. intros fs. apply FS_grows_refl. Qed.

Lemma never_removes_throw {A} (e : error) : never_removes (@throw A e).
Proof. intros fs. apply FS_grows_refl. Qed.

Lemma never_removes_bind {A B} (m : M A) (k : A -> M B) :
  never_removes m -> (forall a, never_removes (k a)) -> never_removes (bind m k).
Proof.
  intros Hm Hk fs. unfold bind. specialize (Hm fs).
  destruct (m fs) as [fs1 [a|err]]; cbn [fst] in *; [|exact Hm].
  exact (FS_grows_trans _ _ _ Hm (Hk a fs1)).
Qed.

Lemma never_removes_wrapErr {A} (m : M A) (wrap : error -> error) :
  never_removes m -> never_removes (wrapErr m wrap).
Proof.
  intros Hm fs. unfold wrapErr. specialize (Hm fs).
  destruct (m fs) as [fs1 [a|err]]; exact Hm.
Qed.

Lemma os_MkdirAll_never_removes (path : string) : never_removes (os_MkdirAll path).
Proof.
  forget_collaborators.
  intros fs. unfold os_MkdirAll.
  destruct (string_eqb path EmptyString); [apply FS_grows_refl|].
  destruct (existsb _ _); [apply FS_grows_refl|].
  split; cbn [fst files dirs]; [reflexivity|set_solver].
Qed.

Lemma os_Create_never_removes (name : string) : never_removes (os_Create name).
Proof.
  forget_collaborators.
  intros fs. unfold os_Create.
  destruct (open_for_write "open" name fs) as [k|err]; [|apply FS_grows_refl].
  split; cbn [fst files dirs]; [|reflexivity].
  rewrite dom_insert. set_solver.
Qed.

Lemma os_WriteFile_never_removes (name data : string) : never_removes (os_WriteFile name data).
Proof.
  forget_collaborators.
  intros fs. unfold os_WriteFile.
  destruct (open_for_write "open" name fs) as [k|err]; [|apply FS_grows_refl].
  split; cbn [fst files dirs]; [|reflexivity].
  rewrite dom_insert. set_solver.
Qed.

Lemma File_Write_never_removes (handle data : string) : never_removes (File_Write handle data).
Proof.
  intros fs. split; cbn [File_Write fst files dirs]; [|reflexivity].
  now rewrite dom_alter.
Qed.

Lemma os_ReadFile_never_removes (name : string) : never_removes (os_ReadFile name).
Proof. intros fs. rewrite os_ReadFile_fs. apply FS_grows_refl. Qed.

Lemma saveTo_never_removes (tm : ToMarkdown) (reader : Response) (rawURL distDir : string) :
  never_removes (saveTo tm reader rawURL distDir).
Proof.
  unfold saveTo. destruct (url_Parse rawURL) as [u|err]; [|apply never_removes_throw].
  apply never_removes_bind.
  - destruct (strings_HasPrefix _ _); [|apply never_removes_ret].
    destruct (length _) as [|[|n]];
      (apply never_removes_throw || apply never_removes_ret).
  - intros imageFilename. apply never_removes_bind.
    + apply never_removes_wrapErr, os_MkdirAll_never_removes.
    + intros _. apply never_removes_bind.
      * apply never_removes_wrapErr, os_Create_never_removes.
      * intros out. apply never_removes_bind; [apply File_Write_never_removes|].
        intros _. destruct (Body_err reader);
          [apply never_removes_throw|apply never_removes_ret].
Qed.

Lemma downloadImage_never_removes (tm : ToMarkdown) (image : FileBlock) :
  never_removes (downloadImage tm image).
Proof.
  assert (Hdl : forall imgURL,
            never_removes (match http_Get imgURL with
                           | Err err => throw err
                           | Ok resp => saveTo tm resp imgURL (ImgSavePath tm)
                           end)).
  { intros imgURL. destruct (http_Get imgURL);
      [apply saveTo_never_removes|apply never_removes_throw]. }
  unfold downloadImage. apply never_removes_bind.
  - destruct (string_eqb (FileBlock_Type image) FileTypeExternal);
      [|apply never_removes_ret].
    apply never_removes_bind; [apply Hdl|]. intros newURL. apply never_removes_ret.
  - intros image'. destruct (string_eqb (FileBlock_Type image') FileTypeFile);
      [|apply never_removes_ret].
    apply never_removes_bind; [apply Hdl|]. intros newURL. apply never_removes_ret.
Qed.

Lemma injectFrontMatterCover_grows (tm : ToMarkdown) (cover : option Cover) (fs : FS) :
  FS_grows fs (fst (injectFrontMatterCover tm cover fs)).
Proof.
  unfold injectFrontMatterCover. destruct cover as [cover|]; [|apply FS_grows_refl].
  pose proof (downloadImage_never_removes tm
                (mkFileBlock (Cover_Type cover) (Cover_File_URL cover)
                   (Cover_External_URL cover)) fs) as H.
  destruct (downloadImage _ _ fs) as [fs1 [image|err]]; cbn [fst] in H; [|exact H].
  destruct (string_eqb _ _); [exact H|]. destruct (string_eqb _ _); exact H.
Qed.

Lemma WithFrontMatter_never_removes (tm : ToMarkdown) (page : Page) :
  never_removes (WithFrontMatter tm page).
Proof.
  intros fs. unfold WithFrontMatter.
  pose proof (injectFrontMatterCover_grows tm (Page_Cover page) fs) as H.
  destruct (injectFrontMatterCover tm (Page_Cover page) fs) as [fs1 tm1]. cbn [fst] in H.
  destruct (Page_Properties page); exact H.
Qed.

Lemma GenFrontMatter_never_removes (tm : ToMarkdown) (writer : string) :
  never_removes (GenFrontMatter tm writer).
Proof.
  unfold GenFrontMatter. destruct (bool_decide _); [apply never_removes_ret|].
  destruct (yaml_Marshal _); [apply File_Write_never_removes|apply never_removes_ret].
Qed.

Lemma GenContentBlocks_body_never_removes G depth tm block k :
  (forall tm bType mdb, never_removes (G tm bType mdb)) ->
  never_removes (GenContentBlocks_body G depth tm block k).
Proof.
  intros HG. unfold GenContentBlocks_body. apply never_removes_bind; [|intros pre; apply HG].
  destruct (string_eqb (Block_Type block) BlockTypeImage).
  - destruct (Block_Image block) as [image|]; [|apply never_removes_throw].
    apply never_removes_bind; [apply downloadImage_never_removes|].
    intros image'. apply never_removes_ret.
  - destruct (string_eqb (Block_Type block) BlockTypeBookmark); [|apply never_removes_ret].
    destruct (Block_Bookmark block) as [bookmark|]; [|apply never_removes_throw].
    destruct (injectBookmarkInfo _ _); [apply never_removes_ret|apply never_removes_throw].
Qed.

Lemma GenContentBlocks_loop_never_removes G depth blocks :
  (forall tm bType mdb, never_removes (G tm bType mdb)) ->
  forall idx last tm, never_removes (GenContentBlocks_loop G depth blocks idx last tm).
Proof.
  intros HG. induction blocks as [|b blocks IH]; intros idx last tm;
    cbn [GenContentBlocks_loop]; [apply never_removes_ret|].
  destruct (shouldSkipRender tm (Block_Type b)); [apply IH|].
  apply never_removes_bind; [now apply GenContentBlocks_body_never_removes|].
  intros tm1. apply IH.
Qed.

Lemma GenBlock_fuel_never_removes (fuel : nat) :
  forall tm bType mdb, never_removes (GenBlock_fuel fuel tm bType mdb).
Proof.
  induction fuel as [|fuel IH]; intros tm bType block; cbn [GenBlock_fuel].
  all: destruct (mdTemplates _) as [tpl|]; [|apply never_removes_ret].
  all: destruct (tpl funcs block) as [out [e|]]; [apply never_removes_throw|].
  all: destruct (Block_HasChildren (MdBlock_Block block)); [|apply never_removes_ret].
  - apply never_removes_throw.
  - now apply GenContentBlocks_loop_never_removes.
Qed.

Lemma GenerateTo_never_removes (tm : ToMarkdown) (blocks : list Block) (writer : string) :
  never_removes (GenerateTo tm blocks writer).
Proof.
  unfold GenerateTo. apply never_removes_bind; [apply GenFrontMatter_never_removes|].
  intros _. apply never_removes_bind.
  - apply GenContentBlocks_loop_never_removes, GenBlock_fuel_never_removes.
  - intros tm1. destruct (negb _); [|apply File_Write_never_removes].
    apply never_removes_bind; [apply os_ReadFile_never_removes|].
    intros content. destruct (template_Parse content) as [t|err];
      [|apply never_removes_throw].
    destruct (t tm1) as [out err].
    apply never_removes_bind; [apply File_Write_never_removes|].
    intros _. destruct err; [apply never_removes_throw|apply never_removes_ret].
Qed.

Lemma os_Create_is_file (name : string) (fs fs1 : FS) (f : string) :
  os_Create name fs = (fs1, Ok f) ->
  f = filepath_Clean name /\ FS_is_file fs1 f = true.
Proof.
  unfold os_Create, open_for_write.
  destruct (string_eqb name EmptyString); [discriminate|].
  destruct (FS_is_dir fs (filepath_Clean name)); [discriminate|].
  destruct (FS_is_dir fs (filepath_Dir (filepath_Clean name)));
    [|destruct (FS_is_file fs _); discriminate].
  intros H. injection H as <- <-. split; [reflexivity|].
  unfold FS_is_file. cbn [files]. now rewrite lookup_insert_eq.
Qed.

Lemma FS_grows_is_file (fs fs' : FS) (k : string) :
  FS_grows fs fs' -> FS_is_file fs k = true -> FS_is_file fs' k = true.
Proof.
  intros [Hfiles _]. unfold FS_is_file.
  destruct (files fs !! k) as [c|] eqn:Hk; [|discriminate]. intros _.
  assert (Hin : k ∈ dom (files fs')) by (apply Hfiles, elem_of_dom; eauto).
  apply elem_of_dom in Hin as [c' ->]. reflexivity.
Qed.

(** generate, once the output file is created. *)
Lemma generate_after_create page blocks config outputAbsPath pageName fs :
  generate page blocks config outputAbsPath pageName fs
  = match os_Create outputAbsPath fs with
    | (fs1, Ok f) =>
        (tm <- WithFrontMatter
                 (mkToMarkdown ∅ EmptyString (filepath_Join [ImageSavePath config; pageName])
                    (filepath_Join [ImagePublicLink config; url_PathEscape pageName])
                    (Template config) ∅) page ;;
         GenerateTo
           (if negb (string_eqb (ShortcodeSyntax config) EmptyString)
            then EnableExtendedSyntax tm (ShortcodeSyntax config) else tm) blocks f) fs1
    | (fs1, Err e) => (fs1, Err (Errorf "error create file: %s" [] e))
    end.
Proof.
  unfold generate. unfold bind at 1. unfold wrapErr.
  destruct (os_Create outputAbsPath fs) as [fs1 [f|e]]; reflexivity.
Qed.

Lemma generate_grows page blocks config outputAbsPath pageName :
  never_removes (generate page blocks config outputAbsPath pageName).
Proof.
  intros fs. rewrite generate_after_create.
  pose proof (os_Create_never_removes outputAbsPath fs) as Hcreate.
  destruct (os_Create outputAbsPath fs) as [fs1 [f|err]]; cbn [fst] in Hcreate;
    [|exact Hcreate].
  refine (FS_grows_trans _ _ _ Hcreate _).
  apply never_removes_bind; [apply WithFrontMatter_never_removes|].
  intros tm. apply GenerateTo_never_removes.
Qed.

Lemma generate_creates_output page blocks config outputAbsPath pageName fs fs' :
  generate page blocks config outputAbsPath pageName fs = (fs', Ok tt) ->
  FS_is_file fs' (filepath_Clean outputAbsPath) = true.
Proof.
  rewrite generate_after_create.
  destruct (os_Create outputAbsPath fs) as [fs1 [f|err]] eqn:Hf; [|discriminate].
  apply os_Create_is_file in Hf as [-> Hfile]. intros H.
  eapply FS_grows_is_file; [|exact Hfile].
  match type of H with
  | bind ?m ?k fs1 = _ => assert (Hrest : never_removes (bind m k))
  end.
  { apply never_removes_bind; [apply WithFrontMatter_never_removes|].
    intros tm. apply GenerateTo_never_removes. }
  specialize (Hrest fs1). now rewrite H in Hrest.
Qed.

(** X7. generate removes nothing: every file and every directory that is
    there before the call is there after it, whether the call succeeds or
    fails; and when it succeeds, the output file exists. *)
Theorem generate_never_removes :
  forall (page : Page) (blocks : list Block) (config : Markdown)
         (outputAbsPath pageName : string) (fs fs' : FS) (r : result unit),
    generate page blocks config outputAbsPath pageName fs = (fs', r) ->
    FS_grows fs fs'
    /\ (r = Ok tt -> FS_is_file fs' (filepath_Clean outputAbsPath) = true).
Proof.
  intros page blocks config outputAbsPath pageName fs fs' r H. split.
  - pose proof (generate_grows page blocks config outputAbsPath pageName fs) as Hg.
    now rewrite H in Hg.
  - intros ->. eapply generate_creates_output. exact H.
Qed.

(** ** The directory of the output file *)

Lemma append_md_nonempty (x : string) : x +:+ ".md" <> EmptyString.
Proof.
  intros H. apply (f_equal String.length) in H. rewrite length_append in H.
  cbn [String.length] in H. lia.
Qed.

Lemma generateArticleFilename_nonempty (title : string) (date : Time) (config : Markdown) :
  generateArticleFilename title date config <> EmptyString.
Proof.
  unfold generateArticleFilename. destruct (GroupByMonth config).
  - apply filepath_Join_nonempty, append_md_nonempty.
  - apply append_md_nonempty.
Qed.

Lemma os_Create_missing_directory (name : string) (fs : FS) :
  name <> EmptyString ->
  FS_is_dir fs (filepath_Clean name) = false ->
  FS_exists fs (filepath_Dir (filepath_Clean name)) = false ->
  os_Create name fs = (fs, Err (PathError "open" name ENOENT)).
Proof.
  intros Hne Hdir Hparent. unfold os_Create, open_for_write.
  unfold string_eqb. rewrite bool_decide_eq_false_2 by exact Hne. rewrite Hdir.
  unfold FS_exists in Hparent. apply orb_false_iff in Hparent as [Hfile Hpdir].
  now rewrite Hpdir, Hfile.
Qed.

(** X8. handlePage does not create the directory of the output file.
    When no stale file is to be removed first (the mode is not incremental
    or the cache records no path for the page), no component of the
    computed output path is a regular file and its directory does not
    exist, handlePage fails with the error of the file creation and
    leaves the file system as it is: nothing is downloaded and nothing is
    rendered.  With month-grouping this is the case of every page whose
    date directory has not been created beforehand. *)
Theorem handlePage_missing_directory :
  forall (config : Config) (page : Page) (blocks : list Block)
         (displayName previousOutputRelPath : string) (fs : FS),
    let outputRelPath :=
      generateArticleFilename (title_or_ID page) (Page_CreatedTime page)
        (Config_Markdown config) in
    let outputAbsPath :=
      filepath_Join [PostSavePath (Config_Markdown config); outputRelPath] in
    Incremental config = false \/ previousOutputRelPath = EmptyString ->
    existsb (FS_is_file fs) (ancestors (filepath_Clean outputAbsPath)) = false ->
    FS_is_dir fs (filepath_Clean outputAbsPath) = false ->
    FS_exists fs (filepath_Dir (filepath_Clean outputAbsPath)) = false ->
    handlePage config page blocks displayName previousOutputRelPath fs
    = (fs, Err (Errorf "[%-30s] error generating blog post: %v" [displayName]
                  (Errorf "error create file: %s" []
                     (PathError "open" outputAbsPath ENOENT)))).
Proof.
  intros config page blocks displayName prev fs outputRelPath outputAbsPath
    Hprev _ Hdir Hparent.
  unfold handlePage. fold outputRelPath. fold outputAbsPath.
  unfold bind at 1.
  replace (Incremental config && negb (string_eqb prev EmptyString)
           && negb (string_eqb prev outputRelPath)) with false.
  2:{ destruct Hprev as [-> | ->]; [reflexivity|].
      change (string_eqb EmptyString EmptyString) with true.
      now rewrite andb_false_r. }
  unfold bind at 1. unfold wrapErr.
  rewrite generate_after_create, os_Create_missing_directory; try assumption.
  - reflexivity.
  - apply filepath_Join_nonempty, generateArticleFilename_nonempty.
Qed.

(** ** The cache file, continued *)

(** X9. loadCache starts from the default, empty cache when the path is
    empty and when nothing exists at the path (no component of which is a
    regular file): a missing cache file is not an error.  The file system
    is left as it is. *)
Theorem loadCache_missing_file :
  forall (path : string) (fs : FS),
    path = EmptyString
    \/ (FS_exists fs (filepath_Clean path) = false
        /\ existsb (FS_is_file fs) (ancestors (filepath_Clean path)) = false) ->
    loadCache path fs = (fs, Ok defaultCache)
    /\ Pages defaultCache = ∅.
Proof.
  intros path fs H. split; [|reflexivity]. unfold loadCache, string_eqb.
  case_bool_decide as Hpath; [reflexivity|].
  destruct H as [H|[H _]]; [contradiction|].
  unfold os_ReadFile, string_eqb. rewrite bool_decide_eq_false_2 by exact Hpath.
  unfold FS_exists, FS_is_file in H. apply orb_false_iff in H as [Hfile Hdir].
  rewrite Hdir. destruct (files fs !! filepath_Clean path); [discriminate|reflexivity].
Qed.

(** X10. saveCache writes one file at most: every path other than the
    cache path holds after the call what it held before, no directory is
    removed, and with the empty path or a failing encoder the file system
    is left as it is. *)
Theorem saveCache_writes_only_the_cache_file :
  forall (path : string) (cache : runCache) (fs : FS),
    (forall k, k <> filepath_Clean path ->
               files (fst (saveCache path cache fs)) !! k = files fs !! k)
    /\ dirs fs ⊆ dirs (fst (saveCache path cache fs))
    /\ (path = EmptyString \/ is_Ok (json_MarshalIndent cache) = false ->
        fst (saveCache path cache fs) = fs).
Proof.
  intros path cache fs. unfold saveCache, string_eqb.
  case_bool_decide as Hpath.
  { repeat split; reflexivity. }
  destruct (json_MarshalIndent cache) as [content|err].
  2:{ repeat split; reflexivity. }
  unfold bind.
  match goal with
  | |- context [let (_, _) := ?m fs in _] =>
      assert (Hfiles : files (fst (m fs)) = files fs);
      [|assert (Hdirs : dirs fs ⊆ dirs (fst (m fs)))]
  end.
  { destruct (_ && _); [apply os_MkdirAll_files|reflexivity]. }
  { destruct (_ && _); [apply os_MkdirAll_never_removes|reflexivity]. }
  match goal with
  | |- context [let (_, _) := ?m fs in _] => destruct (m fs) as [fs1 [[]|err]]
  end; cbn [fst] in *.
  2:{ repeat split; [intros; now rewrite Hfiles|exact Hdirs|].
      intros [H|H]; [contradiction|discriminate H]. }
  unfold os_WriteFile.
  destruct (open_for_write "open" path fs1) as [k|err] eqn:Hopen; cbn [fst files dirs].
  - assert (Hk : k = filepath_Clean path).
    { revert Hopen. unfold open_for_write.
      repeat match goal with |- context [if ?b then _ else _] => destruct b end;
        congruence. }
    subst k. repeat split; [|exact Hdirs|].
    + intros k' Hk'. rewrite lookup_insert_ne by congruence. now rewrite Hfiles.
    + intros [H|H]; [contradiction|discriminate H].
  - repeat split; [intros; now rewrite Hfiles|exact Hdirs|].
    intros [H|H]; [contradiction|discriminate H].
Qed.

(** ** The page pipeline and the cache *)

Lemma handlePage_ok config page blocks displayName prev fs fs' p :
  handlePage config page blocks displayName prev fs = (fs', Ok p) ->
  p = generateArticleFilename (title_or_ID page) (Page_CreatedTime page)
        (Config_Markdown config)
  /\ FS_is_file fs'
       (filepath_Clean (filepath_Join [PostSavePath (Config_Markdown config); p])) = true.
Proof.
  unfold handlePage. unfold bind at 1.
  match goal with
  | |- context [if ?c then _ else _] => destruct c
  end.
  1: destruct (is_Ok _).
  all: unfold bind, wrapErr, ret.
  all: match goal with
       | |- context [generate ?a ?b ?c ?d ?e ?f] =>
           destruct (generate a b c d e f) as [fs1 [[]|err]] eqn:Hgen; [|discriminate]
       end.
  all: intros H; injection H as <- <-; split; [reflexivity|].
  all: eapply generate_creates_output; exact Hgen.
Qed.

Lemma pagePipeline_ok config i page cache changed fs fs' cache' changed' :
  pagePipeline config i page cache changed fs = (fs', Ok (cache', changed')) ->
  Pages cache' = <[Page_ID page := entry_of config page]> (Pages cache)
  /\ changed' = (if changeStatus page (Config_Notion config) then changed + 1 else changed)
  /\ FS_is_file fs'
       (filepath_Clean
          (filepath_Join [PostSavePath (Config_Markdown config);
                          OutputPath (entry_of config page)])) = true.
Proof.
  unfold pagePipeline.
  destruct (queryBlockChildren (Page_ID page)) as [blocks|err]; [|discriminate].
  unfold bind.
  destruct (handlePage _ _ _ _ _ fs) as [fs1 [p|err]] eqn:Hpage; [|discriminate].
  apply handlePage_ok in Hpage as [-> Hfile].
  unfold ret. intros H. injection H as <- <- <-. repeat split. exact Hfile.
Qed.

(** X11. A page pipeline that succeeds records the page in the cache under
    its ID, with the timestamp of its last edit and the output path
    computed from its title and creation date, and leaves the other
    entries as they are; the count of status updates goes up by one at
    most; the output file exists. *)
Theorem pagePipeline_records_page :
  forall (config : Config) (i : Z) (page : Page) (cache cache' : runCache)
         (changed changed' : Z) (fs fs' : FS),
    pagePipeline config i page cache changed fs = (fs', Ok (cache', changed')) ->
    Pages cache' !! Page_ID page = Some (entry_of config page)
    /\ (forall id, id <> Page_ID page -> Pages cache' !! id = Pages cache !! id)
    /\ (changed' = changed \/ changed' = changed + 1)
    /\ FS_is_file fs'
         (filepath_Clean
            (filepath_Join [PostSavePath (Config_Markdown config);
                            OutputPath (entry_of config page)])) = true.
Proof.
  intros config i page cache cache' changed changed' fs fs' H.
  apply pagePipeline_ok in H as (Hpages & Hchanged & Hfile).
  rewrite Hpages. repeat split.
  - apply lookup_insert_eq.
  - intros id Hid. now rewrite lookup_insert_ne by congruence.
  - rewrite Hchanged. destruct (changeStatus _ _); auto.
  - exact Hfile.
Qed.

(** X12. In incremental mode, a page whose pipeline has just succeeded is
    skipped as unchanged by a cache check made on the resulting cache and
    file system: the entry recorded and the file written are exactly what
    the check looks for. *)
Theorem rendered_page_is_skipped_next :
  forall (config : Config) (i : Z) (page : Page) (cache cache' : runCache)
         (changed changed' : Z) (fs fs' : FS),
    Incremental config = true ->
    pagePipeline config i page cache changed fs = (fs', Ok (cache', changed')) ->
    cacheCheck config cache' [page] fs' = ([], 1).
Proof.
  intros config i page cache cache' changed changed' fs fs' Hinc H.
  apply pagePipeline_ok in H as (Hpages & _ & Hfile).
  rewrite cacheCheck_cons. cbn [cacheCheck fst snd].
  replace (skip_unchanged config cache' fs' page) with true; [reflexivity|].
  symmetry. unfold skip_unchanged. rewrite Hinc, Hpages, lookup_insert_eq.
  unfold entry_of at 1. cbn [LastEdited].
  unfold string_eqb at 1. rewrite bool_decide_eq_true_2 by reflexivity. cbn [andb].
  unfold on_disk, FS_exists. unfold entry_of in Hfile. cbn [OutputPath] in Hfile.
  rewrite Hfile. cbn [orb]. rewrite andb_true_r.
  apply negb_true_iff, bool_decide_eq_false.
  apply filepath_Join_nonempty, generateArticleFilename_nonempty.
Qed.

Lemma processSequential_ok config pages :
  forall i cache changed fs fs' cache' changed',
    processSequential config i pages cache changed fs = (fs', Ok (cache', changed')) ->
    Pages cache'
    = fold_left (fun m page => <[Page_ID page := entry_of config page]> m) pages (Pages cache)
    /\ changed <= changed' <= changed + Z.of_nat (length pages).
Proof.
  induction pages as [|page pages IH]; intros i cache changed fs fs' cache' changed' H.
  - cbn in H. injection H as <- <- <-. cbn [fold_left length]. split; [reflexivity|lia].
  - cbn [processSequential] in H. unfold bind in H.
    destruct (pagePipeline config i page cache changed fs) as [fs1 [[cache1 changed1]|err]]
      eqn:Hpage; [|discriminate].
    apply pagePipeline_ok in Hpage as (Hpages & Hchanged & _).
    cbn [fst snd] in H. apply IH in H as [H1 H2].
    cbn [fold_left]. rewrite <- Hpages. split; [exact H1|].
    cbn [length]. destruct (changeStatus _ _); lia.
Qed.

Lemma fold_left_insert_other (config : Config) (pages : list Page) (id : string) :
  forall m : gmap string cacheEntry,
    ~ In id (map Page_ID pages) ->
    fold_left (fun m page => <[Page_ID page := entry_of config page]> m) pages m !! id
    = m !! id.
Proof.
  forget_collaborators.
  induction pages as [|page pages IH]; intros m Hid; [reflexivity|].
  cbn [fold_left]. cbn [map In] in Hid.
  rewrite IH by tauto. apply lookup_insert_ne. tauto.
Qed.

Lemma fold_left_insert_dom (config : Config) (pages : list Page) :
  forall m : gmap string cacheEntry,
    dom (fold_left (fun m page => <[Page_ID page := entry_of config page]> m) pages m)
    = dom m ∪ list_to_set (map Page_ID pages).
Proof.
  forget_collaborators.
  induction pages as [|page pages IH]; intros m; cbn [fold_left map list_to_set].
  - symmetry. apply (right_id_L ∅ (∪)).
  - rewrite IH, dom_insert_L.
    now rewrite (comm_L (∪) {[Page_ID page]} (dom m)), <- (assoc_L (∪)).
Qed.

(** X13. A sequential pass that succeeds records its pages one after the
    other (for two pages with one ID, the later one stays) and never
    removes an entry: the IDs of the resulting cache are those of the
    cache it started from and those of the pages processed, the entries of
    the pages not processed are what they were, and the count of status
    updates grows by the number of pages at most. *)
Theorem processSequential_cache_grows :
  forall (config : Config) (pages : list Page) (i : Z) (cache cache' : runCache)
         (changed changed' : Z) (fs fs' : FS),
    processSequential config i pages cache changed fs = (fs', Ok (cache', changed')) ->
    Pages cache'
    = fold_left (fun m page => <[Page_ID page := entry_of config page]> m) pages (Pages cache)
    /\ dom (Pages cache') = dom (Pages cache) ∪ list_to_set (map Page_ID pages)
    /\ (forall id, ~ In id (map Page_ID pages) -> Pages cache' !! id = Pages cache !! id)
    /\ changed <= changed' <= changed + Z.of_nat (length pages).
Proof.
  intros config pages i cache cache' changed changed' fs fs' H.
  apply processSequential_ok in H as [Hpages Hchanged].
  rewrite Hpages. repeat split; try lia.
  - apply fold_left_insert_dom.
  - intros id Hid. now apply fold_left_insert_other.
Qed.

Lemma processSequential_app config pre post :
  forall i cache changed fs,
    processSequential config i (pre ++ post) cache changed fs
    = match processSequential config i pre cache changed fs with
      | (fs1, Ok st) =>
          processSequential config (i + Z.of_nat (length pre)) post (fst st) (snd st) fs1
      | (fs1, Err e) => (fs1, Err e)
      end.
Proof.
  induction pre as [|page pre IH]; intros i cache changed fs.
  - cbn [app processSequential length Z.of_nat ret fst snd]. now rewrite Z.add_0_r.
  - cbn [app processSequential]. unfold bind.
    destruct (pagePipeline config i page cache changed fs) as [fs1 [st|err]]; [|reflexivity].
    rewrite IH. replace (i + 1 + Z.of_nat (length pre)) with (i + Z.of_nat (length (page :: pre)))
      by (cbn [length]; lia).
    reflexivity.
Qed.

(** X14. The sequential pass stops at the first page whose pipeline fails:
    its result is that failure, on the file system that the failed
    pipeline left, and the pages after it are not touched. *)
Theorem processSequential_stops_at_first_failure :
  forall (config : Config) (pre post : list Page) (page : Page) (i : Z)
         (cache : runCache) (changed : Z) (fs fs1 fs2 : FS) (st : runCache * Z) (e : error),
    processSequential config i pre cache changed fs = (fs1, Ok st) ->
    pagePipeline config (i + Z.of_nat (length pre)) page (fst st) (snd st) fs1 = (fs2, Err e) ->
    processSequential config i (pre ++ page :: post) cache changed fs = (fs2, Err e).
Proof.
  intros config pre post page i cache changed fs fs1 fs2 st e Hpre Hpage.
  rewrite processSequential_app, Hpre. cbn [processSequential]. unfold bind.
  now rewrite Hpage.
Qed.

(** X15. Without incremental mode, and for the pages that the cache has no
    entry for (all of them on a first run), the cache check keeps every
    page and skips none, whatever is on disk. *)
Theorem cacheCheck_keeps_uncached_pages :
  forall (config : Config) (cache : runCache) (pages : list Page) (fs : FS),
    Incremental config = false
    \/ (forall page, In page pages -> Pages cache !! Page_ID page = None) ->
    cacheCheck config cache pages fs = (pages, 0).
Proof.
  intros config cache pages fs H.
  induction pages as [|page pages IH]; [reflexivity|].
  rewrite cacheCheck_cons.
  replace (skip_unchanged config cache fs page) with false.
  - rewrite IH; [reflexivity|]. destruct H as [H|H]; [now left|right].
    intros p Hp. apply H. now right.
  - symmetry. unfold skip_unchanged. destruct H as [->|H]; [reflexivity|].
    rewrite (H page) by now left. now rewrite andb_false_r.
Qed.

(** ** The page title *)

(** X16. When the properties of a page hold a single title property (a
    Notion database has exactly one), getPageTitle returns the rendered
    text of that property, whatever its name and wherever the iteration
    over the property map meets it. *)
Theorem getPageTitle_single_title_property :
  forall (page : Page) (props : list (string * DatabasePageProperty))
         (key : string) (prop : DatabasePageProperty),
    Page_Properties page = Some props ->
    In (key, prop) props ->
    is_title_property prop = true ->
    (forall kv, In kv props -> is_title_property (snd kv) = true -> snd kv = prop) ->
    getPageTitle page = ConvertRichText (Property_Title prop).
Proof.
  intros page props key prop Hprops Hin Htitle Huniq.
  unfold getPageTitle. rewrite Hprops.
  destruct (find _ props) as [kv|] eqn:Hfirst.
  { apply find_some in Hfirst as [Hkv Hp]. apply andb_true_iff in Hp as [Hp _].
    now rewrite (Huniq kv Hkv Hp). }
  clear Hfirst.
  destruct (find _ props) as [kv|] eqn:Hsecond.
  { apply find_some in Hsecond as [Hkv Hp].
    apply andb_true_iff in Hp as [Hp _]. apply andb_true_iff in Hp as [Hp _].
    now rewrite (Huniq kv Hkv Hp). }
  pose proof (find_none _ _ Hsecond _ Hin) as Hnone. cbn [snd] in Hnone.
  rewrite Htitle in Hnone. cbn [andb] in Hnone.
  apply andb_false_iff in Hnone as [Hnone|Hnone]; apply negb_false_iff in Hnone.
  - apply bool_decide_eq_true in Hnone. now rewrite Hnone.
  - apply bool_decide_eq_true in Hnone. now rewrite Hnone.
Qed.

(** ** The run *)

Lemma cacheCheck_nil config cache fs : cacheCheck config cache [] fs = ([], 0).
Proof. reflexivity. Qed.

(** X17. In a sequential run, the failure of a page ends the run with the
    error of that page, on the file system that the sequential pass left:
    nothing is written after the failure, so the cache file is not
    updated, not even for the pages rendered before the failure. *)
Theorem Run_failed_page_aborts_before_cache_is_saved :
  forall (config : Config) (filterArgs : list string) (since : option Time)
         (results pages : list Page) (cache : runCache) (skipped : Z)
         (fs fs1 fs2 : FS) (e : error),
    CacheFile config <> EmptyString ->
    Parallelize config = false ->
    os_MkdirAll (PostSavePath (Config_Markdown config)) fs = (fs1, Ok tt) ->
    queryDatabase (Config_Notion config) = Ok results ->
    (if Incremental config then loadCache (CacheFile config) fs1
     else (fs1, Ok defaultCache)) = (fs1, Ok cache) ->
    cacheCheck config cache (filterPages filterArgs since results) fs1 = (pages, skipped) ->
    processSequential config 0 pages cache 0 fs1 = (fs2, Err e) ->
    Run config filterArgs since false fs = (fs2, Err e).
Proof.
  intros config filterArgs since results pages cache skipped fs fs1 fs2 e
    Hfile Hpar Hmk Hq Hload Hcheck Hseq.
  assert (Hpages : pages <> []) by (intros ->; discriminate Hseq).
  assert (Hfiltered : filterPages filterArgs since results <> []).
  { intros Hnil. rewrite Hnil, cacheCheck_nil in Hcheck. congruence. }
  unfold Run.
  replace (string_eqb (CacheFile config) EmptyString) with false
    by (symmetry; apply bool_decide_eq_false; exact Hfile).
  cbv beta iota zeta. unfold bind at 1. rewrite Hmk, Hq.
  rewrite bool_decide_eq_false_2 by exact Hfiltered.
  unfold bind at 1.
  assert (Hstage : (if Incremental config
                    then wrapErr (loadCache (CacheFile config))
                           (fun err => Errorf "failed loading cache file %q: %w"
                                         [CacheFile config] err)
                    else ret defaultCache) fs1 = (fs1, Ok cache)).
  { destruct (Incremental config); [unfold wrapErr; now rewrite Hload|exact Hload]. }
  rewrite Hstage. unfold bind at 1. rewrite Hcheck. cbn [fst].
  rewrite bool_decide_eq_false_2 by exact Hpages.
  unfold bind at 1. now rewrite Hpar, Hseq.
Qed.

(** X18. In incremental mode, a cache file that cannot be loaded (it is
    there but cannot be read or decoded) ends the run, dry or not, before
    any page is looked at: the error of the load is returned, wrapped, and
    the file system is the one that the creation of the post directory
    left. *)
Theorem Run_unloadable_cache_aborts :
  forall (config : Config) (filterArgs : list string) (since : option Time)
         (dryRun : bool) (results : list Page) (fs fs1 : FS) (e : error),
    CacheFile config <> EmptyString ->
    Incremental config = true ->
    os_MkdirAll (PostSavePath (Config_Markdown config)) fs = (fs1, Ok tt) ->
    queryDatabase (Config_Notion config) = Ok results ->
    filterPages filterArgs since results <> [] ->
    loadCache (CacheFile config) fs1 = (fs1, Err e) ->
    Run config filterArgs since dryRun fs
    = (fs1, Err (Errorf "failed loading cache file %q: %w" [CacheFile config] e)).
Proof.
  intros config filterArgs since dryRun results fs fs1 e
    Hfile Hinc Hmk Hq Hfiltered Hload.
  unfold Run.
  replace (string_eqb (CacheFile config) EmptyString) with false
    by (symmetry; apply bool_decide_eq_false; exact Hfile).
  cbv beta iota zeta. unfold bind at 1. rewrite Hmk, Hq.
  rewrite bool_decide_eq_false_2 by exact Hfiltered.
  unfold bind at 1. rewrite Hinc. unfold wrapErr. now rewrite Hload.
Qed.

Lemma handlePage_never_removes config page blocks displayName prev :
  Incremental config = false ->
  never_removes (handlePage config page blocks displayName prev).
Proof.
  intros Hinc. unfold handlePage. rewrite Hinc. cbn [andb].
  apply never_removes_bind; [intros fs; apply FS_grows_refl|].
  intros _. apply never_removes_bind; [|intros _; apply never_removes_ret].
  apply never_removes_wrapErr, generate_grows.
Qed.

Lemma pagePipeline_never_removes config i page cache changed :
  Incremental config = false ->
  never_removes (pagePipeline config i page cache changed).
Proof.
  intros Hinc. unfold pagePipeline.
  destruct (queryBlockChildren (Page_ID page)); [|apply never_removes_throw].
  apply never_removes_bind; [now apply handlePage_never_removes|].
  intros p. apply never_removes_ret.
Qed.

Lemma processSequential_never_removes config pages :
  Incremental config = false ->
  forall i cache changed, never_removes (processSequential config i pages cache changed).
Proof.
  intros Hinc. induction pages as [|page pages IH]; intros i cache changed;
    cbn [processSequential]; [apply never_removes_ret|].
  apply never_removes_bind; [now apply pagePipeline_never_removes|].
  intros st. apply IH.
Qed.

(** X19. A sequential run that is not incremental removes nothing: every
    file and every directory that is there before the run is there after
    it, whether the run succeeds or fails. *)
Theorem Run_without_cache_never_removes :
  forall (config : Config) (filterArgs : list string) (since : option Time)
         (dryRun : bool) (fs : FS),
    Incremental config = false ->
    Parallelize config = false ->
    FS_grows fs (fst (Run config filterArgs since dryRun fs)).
Proof.
  intros config filterArgs since dryRun fs Hinc Hpar. revert fs.
  change (never_removes (Run config filterArgs since dryRun)).
  unfold Run.
  set (config' := if string_eqb (CacheFile config) EmptyString then _ else config).
  assert (Hinc' : Incremental config' = false)
    by (unfold config'; destruct (string_eqb _ _); exact Hinc).
  assert (Hpar' : Parallelize config' = false)
    by (unfold config'; destruct (string_eqb _ _); exact Hpar).
  clearbody config'. clear Hinc Hpar.
  apply never_removes_bind.
  { intros fs. pose proof (os_MkdirAll_never_removes (PostSavePath (Config_Markdown config')) fs)
      as H.
    destruct (os_MkdirAll _ fs) as [fs1 [[]|err]]; cbn [fst] in H;
      [exact H|destruct (negb dryRun); exact H]. }
  intros _. destruct (queryDatabase _) as [results|err]; [|apply never_removes_throw].
  destruct (bool_decide _); [apply never_removes_ret|].
  rewrite Hinc', Hpar'.
  apply never_removes_bind; [apply never_removes_ret|]. intros cache.
  apply never_removes_bind; [intros fs; apply FS_grows_refl|]. intros checked.
  destruct dryRun; [apply never_removes_ret|].
  destruct (bool_decide _); [apply never_removes_ret|].
  apply never_removes_bind; [now apply processSequential_never_removes|].
  intros st. apply never_removes_ret.
Qed.

(** ** The asset pipeline *)

Lemma fmt_Sprintf_three (a b c : string) :
  fmt_Sprintf "%s_%s_%s" [a; b; c] = a +:+ "_" +:+ b +:+ "_" +:+ c.
Proof.
  cbv [fmt_Sprintf fmt_Sprintf_from]. autorewrite with strnorm. reflexivity.
Qed.

Lemma os_MkdirAll_is_dir (path : string) (fs fs1 : FS) :
  os_MkdirAll path fs = (fs1, Ok tt) ->
  FS_is_dir fs1 (filepath_Clean path) = true /\ files fs1 = files fs.
Proof.
  forget_collaborators.
  unfold os_MkdirAll.
  destruct (string_eqb path EmptyString); [discriminate|].
  destruct (existsb _ _); [discriminate|].
  intros H. injection H as <-. split; [|reflexivity].
  unfold FS_is_dir. cbn [dirs filter].
  destruct (string_eqb (filepath_Clean path) ".") eqn:Hdot; [reflexivity|].
  destruct (string_eqb (filepath_Clean path) "/") eqn:Hroot; [reflexivity|]. cbn [orb].
  apply bool_decide_eq_true.
  destruct (bool_decide (filepath_Clean path ∈ dirs fs)) eqn:Hin.
  - apply bool_decide_eq_true in Hin. set_solver.
  - rewrite filter_cons_True by (unfold FS_is_dir; now rewrite Hdot, Hroot, Hin).
    set_solver.
Qed.

Lemma os_Create_File_Write (name data : string) (fs fs1 : FS) (f : string) :
  os_Create name fs = (fs1, Ok f) ->
  os_ReadFile name (fst (File_Write f data fs1)) = (fst (File_Write f data fs1), Ok data)
  /\ dirs (fst (File_Write f data fs1)) = dirs fs.
Proof.
  unfold os_Create, open_for_write, os_ReadFile.
  destruct (string_eqb name EmptyString); [discriminate|].
  destruct (FS_is_dir fs (filepath_Clean name)) eqn:Hdir; [discriminate|].
  destruct (FS_is_dir fs (filepath_Dir (filepath_Clean name)));
    [|destruct (FS_is_file fs _); discriminate].
  intros H. injection H as <- <-. cbn [File_Write fst files dirs]. split; [|reflexivity].
  unfold FS_is_dir in *. cbn [dirs files]. rewrite Hdir.
  rewrite lookup_alter_eq, lookup_insert_eq. reflexivity.
Qed.

(** X20. When saveTo succeeds, the whole body of the response has been
    read without error and is the content of the file
    <host>_<path with underscores for slashes>_<image name> in the
    directory distDir, which exists; the image name is the last element of
    the URL path, or, when that begins with "Untitled.", the element
    before it with the extension of the path; and the path returned is
    that file name under ImgVisitPath. *)
Theorem saveTo_saves_the_body :
  forall (tm : ToMarkdown) (reader : Response) (rawURL distDir : string)
         (fs fs' : FS) (p : string),
    saveTo tm reader rawURL distDir fs = (fs', Ok p) ->
    exists u,
      url_Parse rawURL = Ok u /\
      let splitPaths := strings_Split_slash (URL_Path u) in
      let n := length splitPaths in
      let imageFilename :=
        if strings_HasPrefix (nth (n - 1) splitPaths EmptyString) "Untitled."
        then nth (n - 2) splitPaths EmptyString +:+ filepath_Ext (URL_Path u)
        else nth (n - 1) splitPaths EmptyString in
      let filename :=
        URL_Hostname u +:+ "_" +:+ strings_Join splitPaths "_" +:+ "_" +:+ imageFilename in
      p = filepath_Join [ImgVisitPath tm; filename]
      /\ os_ReadFile (filepath_Join [distDir; filename]) fs' = (fs', Ok (Body reader))
      /\ FS_is_dir fs' (filepath_Clean distDir) = true
      /\ Body_err reader = None.
Proof.
  intros tm reader rawURL distDir fs fs' p. unfold saveTo.
  destruct (url_Parse rawURL) as [u|err]; [|discriminate].
  intros H. exists u. split; [reflexivity|]. cbv zeta. revert H.
  set (splitPaths := strings_Split_slash (URL_Path u)).
  set (n := length splitPaths).
  unfold bind at 1.
  set (imageFilename := if strings_HasPrefix (nth (n - 1) splitPaths EmptyString) "Untitled."
                        then _ +:+ _ else _).
  assert (Hname : forall fs0 fs1 name,
            (if strings_HasPrefix (nth (n - 1) splitPaths EmptyString) "Untitled."
             then match n with
                  | O | 1%nat => throw (GoPanic "index out of range [-1]")
                  | _ => ret (nth (n - 2) splitPaths EmptyString +:+ filepath_Ext (URL_Path u))
                  end
             else ret (nth (n - 1) splitPaths EmptyString)) fs0 = (fs1, Ok name) ->
            fs1 = fs0 /\ name = imageFilename).
  { intros fs0 fs1 name. unfold imageFilename.
    destruct (strings_HasPrefix _ _).
    - destruct n as [|[|n']]; [discriminate|discriminate|].
      intros H. injection H as <- <-. now split.
    - intros H. injection H as <- <-. now split. }
  match goal with
  | |- (let (_, _) := ?m fs in _) = _ -> _ =>
      specialize (Hname fs); destruct (m fs) as [fs0 [name|err]]; [|discriminate]
  end.
  destruct (Hname fs0 name eq_refl) as [-> ->]. clear Hname.
  unfold bind at 1. unfold wrapErr at 1.
  destruct (os_MkdirAll distDir fs) as [fs1 [[]|err]] eqn:Hmk; [|discriminate].
  apply os_MkdirAll_is_dir in Hmk as [Hdir _].
  rewrite fmt_Sprintf_three.
  unfold bind at 1. unfold wrapErr at 1.
  destruct (os_Create _ fs1) as [fs2 [f|err]] eqn:Hcreate; [|discriminate].
  apply (os_Create_File_Write _ (Body reader)) in Hcreate as [Hread Hdirs].
  unfold bind at 1.
  destruct (File_Write f (Body reader) fs2) as [fs3 []] eqn:Hwrite;
    [|discriminate Hwrite].
  cbn [fst] in Hread, Hdirs.
  destruct (Body_err reader) as [err|]; [discriminate|].
  intros H. injection H as <- <-. repeat split.
  - exact Hread.
  - unfold FS_is_dir in *. now rewrite Hdirs.
Qed.

(** X21. downloadImage fetches one URL at most, chosen by the type of the
    image.  For an external image that is the external URL, and on
    success the external URL of the result is the path that saveTo
    returned for it; for a hosted file it is the file URL, likewise; an
    image of any other type is returned as it is, without any access to
    the network or the file system.  The type and the URL of the other
    kind are never changed. *)
Theorem downloadImage_rewrites_one_url :
  forall (tm : ToMarkdown) (image image' : FileBlock) (fs fs' : FS),
    downloadImage tm image fs = (fs', Ok image') ->
    FileBlock_Type image' = FileBlock_Type image
    /\ (FileBlock_Type image = FileTypeExternal ->
        FileBlock_File_URL image' = FileBlock_File_URL image
        /\ exists resp,
             http_Get (FileBlock_External_URL image) = Ok resp
             /\ saveTo tm resp (FileBlock_External_URL image) (ImgSavePath tm) fs
                = (fs', Ok (FileBlock_External_URL image')))
    /\ (FileBlock_Type image = FileTypeFile ->
        FileBlock_External_URL image' = FileBlock_External_URL image
        /\ exists resp,
             http_Get (FileBlock_File_URL image) = Ok resp
             /\ saveTo tm resp (FileBlock_File_URL image) (ImgSavePath tm) fs
                = (fs', Ok (FileBlock_File_URL image')))
    /\ (FileBlock_Type image <> FileTypeExternal -> FileBlock_Type image <> FileTypeFile ->
        image' = image /\ fs' = fs).
Proof.
  intros tm image image' fs fs'. unfold downloadImage, string_eqb.
  unfold bind at 1.
  case_bool_decide as Hext.
  - unfold bind at 1.
    destruct (http_Get (FileBlock_External_URL image)) as [resp|err] eqn:Hget;
      [|discriminate].
    destruct (saveTo tm resp _ _ fs) as [fs1 [newURL|err]] eqn:Hsave; [|discriminate].
    cbn [ret FileBlock_Type]. rewrite Hext.
    rewrite bool_decide_eq_false_2 by discriminate.
    intros H. injection H as <- <-. cbn [FileBlock_Type FileBlock_File_URL
                                           FileBlock_External_URL].
    repeat split; try congruence; try discriminate.
    exists resp. now split.
  - cbn [ret]. case_bool_decide as Hfile.
    + unfold bind.
      destruct (http_Get (FileBlock_File_URL image)) as [resp|err] eqn:Hget;
        [|discriminate].
      destruct (saveTo tm resp _ _ fs) as [fs1 [newURL|err]] eqn:Hsave; [|discriminate].
      cbn [ret]. intros H. injection H as <- <-.
      cbn [FileBlock_Type FileBlock_File_URL FileBlock_External_URL].
      repeat split; try congruence.
      exists resp. now split.
    + intros H. injection H as <- <-. repeat split; congruence.
Qed.

(** ** The keys of the front matter *)

Lemma fold_lower_keys_is_Some (l : list (string * Value)) :
  forall (acc : gmap string Value) (k : string),
    is_Some (acc !! k) ->
    is_Some (fold_left (fun nfm kv => <[strings_ToLower (fst kv) := snd kv]> nfm) l acc !! k).
Proof.
  induction l as [|kv l IH]; intros acc k Hk; [exact Hk|].
  cbn [fold_left]. apply IH.
  destruct (decide (strings_ToLower (fst kv) = k)) as [<-|Hne].
  - rewrite lookup_insert_eq. eauto.
  - now rewrite lookup_insert_ne.
Qed.

Lemma fold_lower_keys_lookup (l : list (string * Value)) :
  forall (acc : gmap string Value) (k' : string) (v : Value),
    fold_left (fun nfm kv => <[strings_ToLower (fst kv) := snd kv]> nfm) l acc !! k' = Some v ->
    (exists k, In (k, v) l /\ strings_ToLower k = k') \/ acc !! k' = Some v.
Proof.
  induction l as [|kv l IH]; intros acc k' v H; [now right|].
  cbn [fold_left] in H. apply IH in H as [(k & Hin & Hk)|H].
  - left. exists k. split; [now right|exact Hk].
  - destruct (decide (strings_ToLower (fst kv) = k')) as [Heq|Hne].
    + rewrite <- Heq, lookup_insert_eq in H. injection H as <-.
      left. exists (fst kv). split; [left; now destruct kv|exact Heq].
    + rewrite lookup_insert_ne in H by exact Hne. now right.
Qed.

(** X22. The keys under which GenFrontMatter hands the front matter to the
    YAML encoder are the lower-cased keys of the front matter: every entry
    handed over is an entry of the front matter under its lower-cased key,
    every key of the front matter is represented by its lower-cased form,
    and when no two keys differ by case only, every entry is handed over
    with its own value. *)
Theorem lowercase_keys_are_the_lowered_keys :
  forall fm : gmap string Value,
    (forall k' v, lowercase_keys fm !! k' = Some v ->
                  exists k, fm !! k = Some v /\ strings_ToLower k = k')
    /\ (forall k, is_Some (fm !! k) -> is_Some (lowercase_keys fm !! strings_ToLower k))
    /\ ((forall k1 k2, is_Some (fm !! k1) -> is_Some (fm !! k2) ->
                       strings_ToLower k1 = strings_ToLower k2 -> k1 = k2) ->
        forall k v, fm !! k = Some v -> lowercase_keys fm !! strings_ToLower k = Some v).
Proof.
  intros fm.
  assert (Hlookup : forall k' v, lowercase_keys fm !! k' = Some v ->
                                 exists k, fm !! k = Some v /\ strings_ToLower k = k').
  { intros k' v H. apply fold_lower_keys_lookup in H as [(k & Hin & Hk)|H].
    - exists k. split; [|exact Hk].
      apply elem_of_map_to_list. now apply list_elem_of_In.
    - rewrite lookup_empty in H. discriminate. }
  assert (Hsome : forall k, is_Some (fm !! k) ->
                            is_Some (lowercase_keys fm !! strings_ToLower k)).
  { intros k [v Hk]. apply elem_of_map_to_list, list_elem_of_In in Hk.
    unfold lowercase_keys. revert Hk. generalize (∅ : gmap string Value).
    induction (map_to_list fm) as [|kv l IH]; intros acc Hin; [contradiction|].
    cbn [fold_left]. destruct Hin as [->|Hin].
    - apply fold_lower_keys_is_Some. cbn [fst snd]. rewrite lookup_insert_eq. eauto.
    - now apply IH. }
  repeat split; [exact Hlookup|exact Hsome|].
  intros Hinj k v Hk.
  destruct (Hsome k) as [v' Hv']; [eauto|].
  destruct (Hlookup _ _ Hv') as (k0 & Hk0 & Hlow).
  assert (k0 = k) by (apply Hinj; eauto). subst k0.
  rewrite Hv'. congruence.
Qed.

(** ** The default configuration *)

(** X23. DefaultConfigInit writes nothing when the configuration cannot be
    marshalled.  Otherwise it returns the result of writing
    notion-md-gen.yaml and, whatever that result, leaves the file .env
    with the placeholder secret as its content, unless .env is a
    directory: an .env file that was there before is overwritten. *)
Theorem DefaultConfigInit_overwrites_env :
  forall fs : FS,
    (forall e, yaml_Marshal_Config defaultCfg = Err e ->
               DefaultConfigInit fs = (fs, Err e))
    /\ (forall out, yaml_Marshal_Config defaultCfg = Ok out ->
          snd (DefaultConfigInit fs) = snd (os_WriteFile "notion-md-gen.yaml" out fs)
          /\ (FS_is_dir fs "notion-md-gen.yaml" = false ->
              snd (DefaultConfigInit fs) = Ok tt
              /\ files (fst (DefaultConfigInit fs)) !! "notion-md-gen.yaml" = Some out)
          /\ (FS_is_dir fs ".env" = false ->
              files (fst (DefaultConfigInit fs)) !! ".env" = Some "NOTION_SECRET=xxxx")).
Proof.
  intros fs. split; unfold DefaultConfigInit.
  - intros e ->. reflexivity.
  - intros out ->.
    assert (Hdirs : forall name data fs0, dirs (fst (os_WriteFile name data fs0)) = dirs fs0).
    { intros name data fs0. unfold os_WriteFile.
      destruct (open_for_write "open" name fs0); reflexivity. }
    assert (Hwrite : forall name data fs0,
              filepath_Clean name = name -> filepath_Dir name = "." -> name <> EmptyString ->
              FS_is_dir fs0 name = false ->
              os_WriteFile name data fs0
              = (mkFS (<[name := data]> (files fs0)) (dirs fs0), Ok tt)).
    { intros name data fs0 Hclean Hdir Hne Hnodir.
      unfold os_WriteFile, open_for_write, string_eqb.
      rewrite bool_decide_eq_false_2 by exact Hne.
      rewrite Hclean, Hnodir, Hdir. reflexivity. }
    pose proof (Hdirs "notion-md-gen.yaml" out fs) as Hd1.
    destruct (os_WriteFile "notion-md-gen.yaml" out fs) as [fs1 r] eqn:H1.
    cbn [fst snd] in *.
    destruct (os_WriteFile ".env" "NOTION_SECRET=xxxx" fs1) as [fs2 r2] eqn:H2.
    cbn [fst snd]. split; [reflexivity|split].
    + intros Hnodir. rewrite Hwrite in H1 by (reflexivity || discriminate || exact Hnodir).
      injection H1 as <- <-. split; [reflexivity|].
      destruct (FS_is_dir (mkFS (<["notion-md-gen.yaml" := out]> (files fs)) (dirs fs)) ".env")
        eqn:Henv.
      * revert H2. unfold os_WriteFile, open_for_write.
        change (string_eqb ".env" EmptyString) with false.
        change (filepath_Clean ".env") with ".env". rewrite Henv.
        intros H. injection H as <- <-. cbn [files].
        now rewrite lookup_insert_eq.
      * rewrite Hwrite in H2 by (reflexivity || discriminate || exact Henv).
        injection H2 as <- <-. cbn [files].
        rewrite lookup_insert_ne by discriminate. now rewrite lookup_insert_eq.
    + intros Hnodir.
      assert (Henv : FS_is_dir fs1 ".env" = false)
        by (unfold FS_is_dir in *; now rewrite Hd1).
      rewrite Hwrite in H2 by (reflexivity || discriminate || exact Henv).
      injection H2 as <- <-. cbn [files]. now rewrite lookup_insert_eq.
Qed.

(** ** Bookmarks and children *)

(** X24. The link preview of a bookmark is written into the Extra map of
    the render context itself, since the map handed to the template is
    that very map: the renderer is called with the title and the
    description of the preview under "Title" and "Description" and the
    rendering goes on from a context that still holds them; "Image" is
    set to the URL of the first preview image whose URL is not empty,
    wherever it stands in the list (the entries before it, nil or with an
    empty URL, are passed over), and when the preview has none it is left
    as it was, so that the image of an earlier bookmark is still there. *)
Theorem bookmark_preview_stays_in_the_extra_map :
  forall (G : ToMarkdown -> string -> MdBlock -> M ToMarkdown) (depth : Z)
         (tm : ToMarkdown) (block : Block) (bookmark : Bookmark) (k : Z)
         (og : OpenGraph) (fs : FS),
    Block_Type block = BlockTypeBookmark ->
    Block_Bookmark block = Some bookmark ->
    opengraph_Fetch (Bookmark_URL bookmark) = Ok og ->
    exists ex' : gmap string Value,
      GenContentBlocks_body G depth tm block k fs
      = G (set_extra tm ex') BlockTypeBookmark (mkMdBlock block depth ex') fs
      /\ ex' !! "Title" = Some (VString (og_Title (opengraph_ToAbsURL og)))
      /\ ex' !! "Description" = Some (VString (og_Description (opengraph_ToAbsURL og)))
      /\ ex' !! "SameBlockIdx" = Some (VInt k)
      /\ (forall skipped url rest,
            og_Image (opengraph_ToAbsURL og) = skipped ++ Some (mkOGImage url) :: rest ->
            Forall (fun img => match img with
                               | Some i => OGImage_URL i = EmptyString
                               | None => True
                               end) skipped ->
            url <> EmptyString -> ex' !! "Image" = Some (VString url))
      /\ (Forall (fun img => match img with
                             | Some i => OGImage_URL i = EmptyString
                             | None => True
                             end) (og_Image (opengraph_ToAbsURL og)) ->
          ex' !! "Image" = extra tm !! "Image").
Proof.
  intros G depth tm block bookmark k og fs Htype Hbm Hfetch.
  unfold GenContentBlocks_body. rewrite Htype, Hbm.
  change (string_eqb BlockTypeBookmark BlockTypeImage) with false.
  change (string_eqb BlockTypeBookmark BlockTypeBookmark) with true. cbv iota.
  unfold injectBookmarkInfo. rewrite Hfetch. cbn [extra set_extra].
  unfold bind, ret. cbn [fst snd extra set_extra].
  eexists. split; [reflexivity|].
  rewrite lookup_insert_ne by discriminate. rewrite !lookup_insert_eq.
  split; [reflexivity|]. split; [reflexivity|].
  rewrite !lookup_insert_ne by discriminate.
  split; [|split].
  - destruct (find _ _) as [[img|]|]; rewrite ?lookup_insert_ne by discriminate;
      apply lookup_insert_eq.
  - intros skipped url rest Himgs Hskipped Hurl. rewrite Himgs.
    replace (find _ (skipped ++ Some (mkOGImage url) :: rest))
      with (Some (Some (mkOGImage url))); [apply lookup_insert_eq|].
    symmetry. clear Himgs. induction Hskipped as [|img imgs Himg _ IH].
    + cbn [app find OGImage_URL].
      unfold string_eqb. now rewrite bool_decide_eq_false_2 by exact Hurl.
    + cbn [app find]. destruct img as [i|]; [|exact IH].
      rewrite Himg. change (string_eqb EmptyString EmptyString) with true. exact IH.
  - intros Hnone.
    replace (find _ (og_Image (opengraph_ToAbsURL og))) with (@None (option OGImage)).
    + now rewrite lookup_insert_ne by discriminate.
    + symmetry. induction Hnone as [|img imgs Himg _ IH]; [reflexivity|].
      cbn [find]. destruct img as [i|]; [|exact IH].
      rewrite Himg. change (string_eqb EmptyString EmptyString) with true. exact IH.
Qed.

(** X25. GenBlock renders children only for a block that says it has
    children and whose type is one of the thirteen types of
    getChildrenBlocks: for a block of any other type (a heading, say) or
    with HasChildren false, it appends the output of the template and
    nothing else, whatever the block holds as children; and a block type
    without a template renders nothing at all. *)
Theorem GenBlock_renders_no_children :
  forall (tm : ToMarkdown) (bType : string) (block : MdBlock) (fs : FS),
    (mdTemplates (bType +:+ ".gohtml") = None ->
     GenBlock tm bType block fs = (fs, Ok tm))
    /\ (forall tpl out,
          mdTemplates (bType +:+ ".gohtml") = Some tpl ->
          tpl funcs block = (out, None) ->
          Block_HasChildren (MdBlock_Block block) = false
          \/ ~ In (Block_Type (MdBlock_Block block)) children_types ->
          GenBlock tm bType block fs
          = (fs, Ok (set_ContentBuffer tm (ContentBuffer tm +:+ out)))).
Proof.
  intros tm bType block fs.
  assert (Hname : fmt_Sprintf "%s.gohtml" [bType] = bType +:+ ".gohtml").
  { cbv [fmt_Sprintf fmt_Sprintf_from]. now autorewrite with strnorm. }
  unfold GenBlock. destruct (Block_height (MdBlock_Block block)) as [|fuel] eqn:Hh.
  { rewrite Block_height_children in Hh. discriminate. }
  cbn [GenBlock_fuel]. rewrite Hname. split.
  - intros ->. reflexivity.
  - intros tpl out -> -> [Hno|Htype].
    + now rewrite Hno.
    + destruct (Block_HasChildren (MdBlock_Block block)); [|reflexivity].
      unfold getChildrenBlocks.
      replace (existsb _ children_types) with false; [reflexivity|].
      symmetry. apply not_true_is_false. intros Hex.
      apply existsb_exists in Hex as (t & Hin & Heq).
      apply bool_decide_eq_true in Heq. subst t. contradiction.
Qed.

(** ** The characters of a path *)

Lemma string_rev_app_forallb (P : ascii -> bool) (s acc : string) :
  string_forallb P (string_rev_app s acc) = string_forallb P s && string_forallb P acc.
Proof.
  revert acc. induction s as [|c s IH]; intros acc; [reflexivity|].
  cbn [string_rev_app]. rewrite IH. cbn [string_forallb].
  destruct (P c), (string_forallb P s), (string_forallb P acc); reflexivity.
Qed.

Lemma strings_Split_byte_forallb (P : ascii -> bool) (sep : ascii) (s cur : string) :
  string_forallb P s = true -> string_forallb P cur = true ->
  forallb (string_forallb P) (strings_Split_byte s sep cur) = true.
Proof.
  revert cur. induction s as [|c s IH]; intros cur Hs Hcur.
  - cbn [strings_Split_byte forallb]. now rewrite string_rev_app_forallb, Hcur.
  - cbn [string_forallb] in Hs. apply andb_true_iff in Hs as [Hc Hs].
    cbn [strings_Split_byte]. destruct (bool_decide (c = sep)).
    + cbn [forallb]. rewrite string_rev_app_forallb, Hcur. cbn [andb]. now apply IH.
    + apply IH; [exact Hs|]. cbn [string_forallb]. now rewrite Hc, Hcur.
Qed.

Lemma clean_elems_forallb (P : ascii -> bool) (rooted : bool) (elems : list string) :
  forall stack,
    forallb (string_forallb P) elems = true ->
    forallb (string_forallb P) stack = true ->
    forallb (string_forallb P) (clean_elems rooted elems stack) = true.
Proof.
  induction elems as [|e elems IH]; intros stack Helems Hstack; [exact Hstack|].
  cbn [forallb] in Helems. apply andb_true_iff in Helems as [He Helems].
  cbn [clean_elems].
  destruct (string_eqb e EmptyString || string_eqb e "."); [now apply IH|].
  destruct (string_eqb e "..").
  - destruct stack as [|top below].
    + destruct rooted; apply IH; try assumption. cbn [forallb]. now rewrite He.
    + cbn [forallb] in Hstack. apply andb_true_iff in Hstack as [Htop Hbelow].
      destruct (string_eqb top ".."); apply IH; try assumption.
      cbn [forallb]. now rewrite He, Htop, Hbelow.
  - apply IH; [assumption|]. cbn [forallb]. now rewrite He, Hstack.
Qed.

Lemma strings_Join_forallb (P : ascii -> bool) (elems : list string) (sep : string) :
  forallb (string_forallb P) elems = true -> string_forallb P sep = true ->
  string_forallb P (strings_Join elems sep) = true.
Proof.
  intros Helems Hsep. induction elems as [|e elems IH]; [reflexivity|].
  cbn [forallb] in Helems. apply andb_true_iff in Helems as [He Helems].
  destruct elems as [|e2 elems]; [exact He|].
  change (strings_Join (e :: e2 :: elems) sep)
    with (e +:+ sep +:+ strings_Join (e2 :: elems) sep).
  rewrite !string_forallb_append, He, Hsep. cbn [andb]. now apply IH.
Qed.

Lemma forallb_rev {A} (f : A -> bool) (l : list A) :
  forallb f l = true -> forallb f (rev l) = true.
Proof.
  rewrite !forallb_forall. intros H x Hx. apply H. now apply in_rev.
Qed.

(** filepath.Clean makes a path of the characters of its argument, the dot
    and the slash. *)
Lemma filepath_Clean_forallb (P : ascii -> bool) (path : string) :
  P "."%char = true -> P "/"%char = true ->
  string_forallb P path = true ->
  string_forallb P (filepath_Clean path) = true.
Proof.
  intros Hdot Hslash Hpath. unfold filepath_Clean.
  destruct (string_eqb path EmptyString); [cbn; now rewrite Hdot|].
  assert (Hbody : string_forallb P
                    (strings_Join
                       (rev (clean_elems (strings_HasPrefix path "/")
                               (strings_Split_slash path) [])) "/") = true).
  { apply strings_Join_forallb; [|cbn; now rewrite Hslash].
    apply forallb_rev, clean_elems_forallb; [|reflexivity].
    now apply strings_Split_byte_forallb. }
  destruct (strings_HasPrefix path "/").
  - rewrite string_forallb_append, Hbody. cbn. now rewrite Hslash.
  - destruct (string_eqb _ EmptyString); [cbn; now rewrite Hdot|exact Hbody].
Qed.

Lemma filepath_Join_forallb (P : ascii -> bool) (a b : string) :
  P "."%char = true -> P "/"%char = true ->
  string_forallb P a = true -> string_forallb P b = true ->
  string_forallb P (filepath_Join [a; b]) = true.
Proof.
  intros Hdot Hslash Ha Hb. cbn [filepath_Join].
  destruct (string_eqb a EmptyString).
  - destruct (string_eqb b EmptyString); [reflexivity|].
    apply filepath_Clean_forallb; try assumption.
  - apply filepath_Clean_forallb; try assumption.
    change (strings_Join [a; b] "/") with (a +:+ "/" +:+ b).
    rewrite !string_forallb_append, Ha, Hb. cbn. now rewrite Hslash.
Qed.

Lemma string_map_space_to_hyphen_lacks_space (s : string) :
  lacks_byte " "%char (string_map space_to_hyphen s) = true.
Proof.
  forget_collaborators.
  unfold lacks_byte. induction s as [|c s IH]; [reflexivity|].
  cbn [string_map string_forallb].
  rewrite IH, andb_true_r. unfold space_to_hyphen.
  destruct (decide (c = " "%char)) as [Hc|Hc].
  - rewrite (bool_decide_eq_true_2 (c = " "%char)) by exact Hc. reflexivity.
  - rewrite (bool_decide_eq_false_2 (c = " "%char)) by exact Hc.
    now rewrite bool_decide_eq_false_2.
Qed.

(** X26. The output file name never contains a space, whatever the title
    and the date, with month-grouping or without. *)
Theorem generateArticleFilename_has_no_space :
  forall (title : string) (date : Time) (config : Markdown),
    lacks_byte " "%char (generateArticleFilename title date config) = true.
Proof.
  intros title date config. unfold generateArticleFilename.
  rewrite strings_ReplaceAll_space.
  assert (Hname : lacks_byte " "%char
                    (string_map space_to_hyphen
                       (strings_ToValidUTF8 (strings_ToLower title) EmptyString)
                     +:+ ".md") = true).
  { rewrite lacks_byte_append, string_map_space_to_hyphen_lacks_space. reflexivity. }
  destruct (GroupByMonth config); [|exact Hname].
  apply filepath_Join_forallb; try reflexivity; [|exact Hname].
  eapply string_forallb_impl; [|apply Time_Format_date_chars].
  intros c Hc. unfold is_date_char in Hc.
  destruct c as [[] [] [] [] [] [] [] []]; try discriminate Hc; reflexivity.
Qed.

(** ** The run, continued *)

(** X27. In a sequential incremental run, once every page left by the
    cache check has been rendered, the run ends by saving the cache that
    the sequential pass produced: the cache loaded at the start, in which
    the pages rendered have been recorded one after the other.  The
    entries of the pages that were skipped as unchanged, and of pages that
    are no longer in the database, are saved as they were loaded. *)
Theorem Run_saves_the_updated_cache :
  forall (config : Config) (filterArgs : list string) (since : option Time)
         (results pages : list Page) (cache cache' : runCache) (skipped changed : Z)
         (fs fs1 fs2 : FS),
    CacheFile config <> EmptyString ->
    Parallelize config = false ->
    Incremental config = true ->
    os_MkdirAll (PostSavePath (Config_Markdown config)) fs = (fs1, Ok tt) ->
    queryDatabase (Config_Notion config) = Ok results ->
    loadCache (CacheFile config) fs1 = (fs1, Ok cache) ->
    cacheCheck config cache (filterPages filterArgs since results) fs1 = (pages, skipped) ->
    pages <> [] ->
    processSequential config 0 pages cache 0 fs1 = (fs2, Ok (cache', changed)) ->
    Run config filterArgs since false fs
    = wrapErr (saveCache (CacheFile config) cache')
        (fun err => Errorf "failed writing cache file %q: %w" [CacheFile config] err) fs2
    /\ Pages cache'
       = fold_left (fun m page => <[Page_ID page := entry_of config page]> m) pages
           (Pages cache).
Proof.
  forget_collaborators.
  intros config filterArgs since results pages cache cache' skipped changed fs fs1 fs2
    Hfile Hpar Hinc Hmk Hq Hload Hcheck Hpages Hseq.
  split; [|apply processSequential_ok in Hseq; tauto].
  assert (Hfiltered : filterPages filterArgs since results <> []).
  { intros Hnil. rewrite Hnil, cacheCheck_nil in Hcheck. congruence. }
  unfold Run.
  replace (string_eqb (CacheFile config) EmptyString) with false
    by (symmetry; apply bool_decide_eq_false; exact Hfile).
  cbv beta iota zeta. unfold bind at 1. rewrite Hmk, Hq.
  rewrite bool_decide_eq_false_2 by exact Hfiltered.
  unfold bind at 1. rewrite Hinc. unfold wrapErr at 1. rewrite Hload.
  unfold bind at 1. rewrite Hcheck. cbn [fst].
  rewrite bool_decide_eq_false_2 by exact Hpages.
  unfold bind at 1. rewrite Hpar, Hseq. reflexivity.
Qed.

(** ** Front-matter values *)

(** X28. injectFrontMatter touches the entry of its key only, and nothing
    else of the render context.  A property without a value (a nil
    pointer, an unsupported type, a date whose start and end are both the
    zero time) leaves the front matter as it is; a date contributes its
    start when that is set and its end only when the start is the zero
    time; a multi-select always contributes the list of its option names,
    empty or not. *)
Theorem injectFrontMatter_sets_one_key :
  forall (tm : ToMarkdown) (key : string) (property : DatabasePageProperty),
    let tm' := injectFrontMatter tm key property in
    (forall k, k <> key -> FrontMatter tm' !! k = FrontMatter tm !! k)
    /\ set_FrontMatter tm' (FrontMatter tm) = tm
    /\ (In (Property_Value property)
          [ValSelect None; ValTime None; ValDate None; ValUser None; ValString None;
           ValNumber None; ValOther] -> tm' = tm)
    /\ (forall d, Property_Value property = ValDate (Some d) ->
          FrontMatter tm' !! key
          = if negb (Time_IsZero (Date_Start d))
            then Some (VString (Time_Format_frontmatter (Date_Start d)))
            else if negb (Time_IsZero (Date_End d))
            then Some (VString (Time_Format_frontmatter (Date_End d)))
            else FrontMatter tm !! key)
    /\ (forall opts, Property_Value property = ValMultiSelect opts ->
          FrontMatter tm' !! key = Some (VStrings (map SelectOptions_Name opts))).
Proof.
  intros tm key property tm'. subst tm'. unfold injectFrontMatter.
  repeat split.
  - intros k Hk.
    match goal with |- context [match ?v with Some _ => _ | None => _ end] => destruct v end;
      [|reflexivity].
    cbn [FrontMatter set_FrontMatter]. now rewrite lookup_insert_ne by congruence.
  - match goal with |- context [match ?v with Some _ => _ | None => _ end] => destruct v end;
      destruct tm; reflexivity.
  - intros Hin. cbn [In] in Hin.
    repeat (destruct Hin as [<-|Hin]; [reflexivity|]). contradiction.
  - intros d ->.
    destruct (negb (Time_IsZero (Date_Start d)));
      [cbn [FrontMatter set_FrontMatter]; apply lookup_insert_eq|].
    destruct (negb (Time_IsZero (Date_End d)));
      [cbn [FrontMatter set_FrontMatter]; apply lookup_insert_eq|reflexivity].
  - intros opts ->. cbn [FrontMatter set_FrontMatter]. apply lookup_insert_eq.
Qed.

End Program.

(** * Examples: the theorems at concrete inputs *)

(** C1. A dry run in a directory without the post directory creates that
    directory: the call of MkdirAll comes before the dry-run test, which
    only suppresses its error.  The regular files are left as they were
    ([Run_dry_run_files_unchanged]). *)
Theorem Run_dry_run_creates_post_directory :
  FS_is_dir fs_empty "posts" = false /\
  Run latin1_To_LowerCase no_templates yaml_fails template_Parse_fails http_Get_down
    url_Parse_fails url_PathEscape_plain opengraph_Fetch_down opengraph_ToAbsURL_id
    json_MarshalIndent_plain json_Unmarshal_plain
    (fun _ => Ok [page_hello]) (fun _ => Ok [text_block BlockTypeParagraph])
    changeStatus_never (example_config false false) [] None true fs_empty
  = (fs_posts, Ok tt).
Proof. split; vm_compute; reflexivity. Qed.

(** C2, counterexample. The page "New Title" was last written to
    old-title.md; its block tree holds an image and the network is down.
    handlePage fails, and the file old-title.md, present before the call,
    is gone after it. *)
Lemma handlePage_failed_generation_loses_previous_file :
  let fs := fs_with "posts/old-title.md" "old" in
  let r := handlePage latin1_To_LowerCase no_templates yaml_fails template_Parse_fails
             http_Get_down url_Parse_fails url_PathEscape_plain opengraph_Fetch_down
             opengraph_ToAbsURL_id (example_config true false) page_renamed [image_block]
             "1:New Title" "old-title.md" fs in
  files fs !! "posts/old-title.md" = Some "old" /\
  is_Ok (snd r) = false /\
  files (fst r) !! "posts/old-title.md" = None.
Proof. repeat split; vm_compute; reflexivity. Qed.

Lemma handlePage_removes_stale_file_first_witness :
  handlePage latin1_To_LowerCase no_templates yaml_fails template_Parse_fails
    http_Get_down url_Parse_fails url_PathEscape_plain opengraph_Fetch_down
    opengraph_ToAbsURL_id (example_config true false) page_renamed [image_block]
    "1:New Title" "old-title.md" (fs_with "posts/old-title.md" "old")
  = (mkFS {["posts/new-title.md" := EmptyString]} {["posts"]},
     Err (Errorf "[%-30s] error generating blog post: %v" ["1:New Title"] network_down)).
Proof.
  pose proof (handlePage_removes_stale_file_first
                latin1_To_LowerCase no_templates yaml_fails template_Parse_fails
                http_Get_down url_Parse_fails url_PathEscape_plain opengraph_Fetch_down
                opengraph_ToAbsURL_id (example_config true false) page_renamed [image_block]
                "1:New Title" "old-title.md" (fs_with "posts/old-title.md" "old")) as H.
  cbv zeta in H. rewrite H.
  - vm_compute. reflexivity.
  - reflexivity.
  - discriminate.
  - vm_compute. discriminate.
  - vm_compute. reflexivity.
Defined.

(** C3, counterexample. Month-grouping was switched on after the page
    "hello" was written to hello.md.  The four conditions of the claim
    hold (incremental mode, an entry, equal timestamps, the recorded file
    exists), yet the page is not skipped: the file looked for is
    2024-03-05/hello.md. *)
Lemma cacheCheck_ignores_recorded_path :
  let config := example_config true true in
  let fs := fs_with "posts/hello.md" "# hello" in
  skip_claimed config cache_hello fs page_hello = true /\
  fst (cacheCheck latin1_To_LowerCase config cache_hello [page_hello] fs) = [page_hello].
Proof. split; vm_compute; reflexivity. Qed.

(** C4, counterexample. The download of the cover of a page fails, and
    the generation of the page succeeds: the output file is written,
    without front matter. *)
Lemma cover_download_failure_is_ignored :
  let r := generate latin1_To_LowerCase no_templates yaml_fails template_Parse_fails
             http_Get_down url_Parse_fails url_PathEscape_plain opengraph_Fetch_down
             opengraph_ToAbsURL_id page_with_cover [] (markdown_config false)
             "posts/hello.md" "hello" fs_posts in
  snd (downloadImage http_Get_down url_Parse_fails tm_hello (cover_image cover_example)
         fs_posts) = Err network_down /\
  snd r = Ok tt /\
  files (fst r) !! "posts/hello.md" = Some EmptyString.
Proof. repeat split; vm_compute; reflexivity. Qed.

Lemma image_download_failure_is_fatal_witness :
  GenerateTo latin1_To_LowerCase index_templates yaml_fails template_Parse_fails
    http_Get_down url_Parse_fails opengraph_Fetch_down opengraph_ToAbsURL_id
    tm_hello [text_block BlockTypeParagraph; toggle_with_image; text_block BlockTypeParagraph]
    "posts/hello.md" fs_posts
  = (fs_posts, Err network_down).
Proof.
  eapply (proj1 (image_download_failure_is_fatal_cover_failure_is_not
                   latin1_To_LowerCase index_templates yaml_fails template_Parse_fails
                   http_Get_down url_Parse_fails opengraph_Fetch_down
                   opengraph_ToAbsURL_id))
    with (fs0 := fs_posts).
  - vm_compute. reflexivity.
  - eapply failed_download_after_rendered.
    + reflexivity.
    + vm_compute. reflexivity.
    + eapply failed_download_among_children.
      * reflexivity.
      * cbn. tauto.
      * reflexivity.
      * reflexivity.
      * vm_compute. reflexivity.
      * eapply failed_download_after_rendered.
        -- reflexivity.
        -- vm_compute. reflexivity.
        -- eapply failed_download_here with (image := image_example).
           ++ reflexivity.
           ++ reflexivity.
           ++ vm_compute. reflexivity.
Defined.

(** C5, counterexample. The title "Café" gives the file name café.md: the
    letter é, which is not ASCII, is kept, where the claim has caf.md. *)
Lemma generateArticleFilename_keeps_non_ascii :
  generateArticleFilename latin1_To_LowerCase title_Cafe date_2024_03_05
    (markdown_config false)
  = "caf" +:+ String "195"%char (String "169"%char ".md") /\
  claimed_filename latin1_To_LowerCase title_Cafe date_2024_03_05 (markdown_config false)
  = "caf.md".
Proof. split; vm_compute; reflexivity. Qed.

Lemma generateArticleFilename_amended_witness :
  generateArticleFilename latin1_To_LowerCase "Hello World!" date_2024_03_05
    (markdown_config true)
  = "2024-03-05/hello-world!.md".
Proof.
  destruct (generateArticleFilename_amended latin1_To_LowerCase "Hello World!"
              date_2024_03_05 (markdown_config true)) as [H _].
  - intros _. vm_compute. reflexivity.
  - rewrite H. vm_compute. reflexivity.
Defined.

(** The example of the specification without month-grouping. *)
Example generateArticleFilename_hello_world :
  generateArticleFilename latin1_To_LowerCase "Hello World!" date_2024_03_05
    (markdown_config false)
  = "hello-world!.md".
Proof. vm_compute. reflexivity. Qed.

Lemma GenContentBlocks_run_indices_witness :
  let G := GenBlock_fuel index_templates http_Get_down url_Parse_fails
             opengraph_Fetch_down opengraph_ToAbsURL_id 0 in
  let run := [text_block BlockTypeNumberedListItem; text_block BlockTypeNumberedListItem;
              text_block BlockTypeNumberedListItem] in
  let rest := [text_block BlockTypeParagraph] in
  GenContentBlocks_loop http_Get_down url_Parse_fails opengraph_Fetch_down
    opengraph_ToAbsURL_id G 0 (run ++ rest) 0 BlockTypeParagraph New fs_empty
  = (tm' <- render_run http_Get_down url_Parse_fails opengraph_Fetch_down
              opengraph_ToAbsURL_id G 0 run 0 New ;;
     GenContentBlocks_loop http_Get_down url_Parse_fails opengraph_Fetch_down
       opengraph_ToAbsURL_id G 0 rest (Z.of_nat (length run) - 1)
       BlockTypeNumberedListItem tm') fs_empty.
Proof.
  cbv zeta.
  apply (proj1 (GenContentBlocks_run_indices index_templates http_Get_down url_Parse_fails
                  opengraph_Fetch_down opengraph_ToAbsURL_id)).
  - discriminate.
  - reflexivity.
  - repeat constructor.
  - discriminate.
Defined.

(** A paragraph, three numbered items and a paragraph are rendered with
    the indices 0; 0, 1, 2; 0. *)
Example GenContentBlocks_indices_example :
  ContentBuffer <$>
    (match GenContentBlocks index_templates http_Get_down url_Parse_fails
             opengraph_Fetch_down opengraph_ToAbsURL_id New
             [text_block BlockTypeParagraph; text_block BlockTypeNumberedListItem;
              text_block BlockTypeNumberedListItem; text_block BlockTypeNumberedListItem;
              text_block BlockTypeParagraph] 0 fs_empty with
     | (_, Ok tm) => Some tm
     | (_, Err _) => None
     end)
  = Some "0;0;1;2;0;".
Proof. vm_compute. reflexivity. Qed.

(** C9. For every cache whose page IDs, timestamps and output paths are
    valid UTF-8 text and every non-empty path, a successful [saveCache]
    followed by [loadCache] from the same path returns the cache that was
    saved: the same page IDs, each with byte-identical last_edited and
    output_path.  The JSON text is the one of [json_MarshalIndent_plain],
    read back by [json_Unmarshal_plain]. *)
Theorem saveCache_loadCache_roundtrip :
  forall (path : string) (cache : runCache) (fs fs' : FS),
    path <> EmptyString ->
    cache_plain cache = true ->
    saveCache json_MarshalIndent_plain path cache fs = (fs', Ok tt) ->
    loadCache json_Unmarshal_plain path fs' = (fs', Ok cache)
    /\ exists content,
         json_MarshalIndent_plain cache = Ok content
         /\ files fs' !! filepath_Clean path = Some content.
Proof.
  intros path cache fs fs' Hpath Hplain Hsave.
  destruct (json_Unmarshal_MarshalIndent_plain cache Hplain) as (content & Henc & Hdec).
  destruct (saveCache_loadCache_with_codec json_MarshalIndent_plain json_Unmarshal_plain
              path content cache fs fs' Hpath Henc Hdec Hsave) as [Hload Hfile].
  split; [exact Hload|]. exists content. now split.
Qed.

Lemma saveCache_loadCache_roundtrip_witness :
  let content := match json_MarshalIndent_plain cache_AB with
                 | Ok text => text
                 | Err _ => EmptyString
                 end in
  let fs' := mkFS {["state/cache.json" := content]} {["state"]} in
  loadCache json_Unmarshal_plain "state/cache.json" fs' = (fs', Ok cache_AB)
  /\ exists content,
       json_MarshalIndent_plain cache_AB = Ok content
       /\ files fs' !! filepath_Clean "state/cache.json" = Some content.
Proof.
  cbv zeta.
  apply (saveCache_loadCache_roundtrip "state/cache.json" cache_AB fs_empty).
  - discriminate.
  - vm_compute. reflexivity.
  - vm_compute. reflexivity.
Defined.

(** The text written for the two-page cache. *)
Example json_MarshalIndent_plain_AB :
  json_MarshalIndent_plain cache_AB
  = Ok ("{" +:+ nl +:+
        "  " +:+ json_string "pages" +:+ ": {" +:+ nl +:+
        "    " +:+ json_string "A" +:+ ": {" +:+ nl +:+
        "      " +:+ json_string "last_edited" +:+ ": "
          +:+ json_string "2024-03-07T12:00:00Z" +:+ "," +:+ nl +:+
        "      " +:+ json_string "output_path" +:+ ": " +:+ json_string "alpha.md"
          +:+ nl +:+
        "    }," +:+ nl +:+
        "    " +:+ json_string "B" +:+ ": {" +:+ nl +:+
        "      " +:+ json_string "last_edited" +:+ ": "
          +:+ json_string "2024-03-08T08:30:00.5Z" +:+ "," +:+ nl +:+
        "      " +:+ json_string "output_path" +:+ ": " +:+ json_string "2024-03-05/beta.md"
          +:+ nl +:+
        "    }" +:+ nl +:+
        "  }" +:+ nl +:+
        "}").
Proof. vm_compute. reflexivity. Qed.

Lemma GenFrontMatter_failure_is_silent_witness :
  GenFrontMatter latin1_To_LowerCase yaml_fails tm_titled "posts/hello.md" fs_posts
  = (fs_posts, Ok tt).
Proof.
  apply GenFrontMatter_failure_is_silent.
  right. eexists. vm_compute. reflexivity.
Defined.

(** * Examples of the further properties *)

Lemma indentCode_indents_every_line_witness :
  strings_Split_newline (indentCode_func two_lines 2) = ["    a"; "    b"].
Proof.
  pose proof (indentCode_indents_every_line two_lines 2) as H. cbv zeta in H.
  destruct H as [_ H]. destruct H as (H & _ & _); [lia|].
  rewrite H. vm_compute. reflexivity.
Defined.

Lemma GenContentBlocks_without_extended_blocks_witness :
  let blocks := [text_block BlockTypeNumberedListItem; text_block BlockTypeCallout;
                 text_block BlockTypeNumberedListItem] in
  GenContentBlocks index_templates http_Get_down url_Parse_fails opengraph_Fetch_down
    opengraph_ToAbsURL_id New blocks 0 fs_empty
  = GenContentBlocks index_templates http_Get_down url_Parse_fails opengraph_Fetch_down
      opengraph_ToAbsURL_id New (List.filter always_rendered blocks) 0 fs_empty.
Proof.
  cbv zeta.
  apply (GenContentBlocks_without_extended_blocks index_templates http_Get_down
           url_Parse_fails opengraph_Fetch_down opengraph_ToAbsURL_id).
  reflexivity.
Defined.

(** A numbered item, a callout and a numbered item, rendered without the
    extended syntax: the items get the indices 0 and 1. *)
Example GenContentBlocks_callout_between_items :
  ContentBuffer <$>
    (match GenContentBlocks index_templates http_Get_down url_Parse_fails
             opengraph_Fetch_down opengraph_ToAbsURL_id New
             [text_block BlockTypeNumberedListItem; text_block BlockTypeCallout;
              text_block BlockTypeNumberedListItem] 0 fs_empty with
     | (_, Ok tm) => Some tm
     | (_, Err _) => None
     end)
  = Some "0;1;".
Proof. vm_compute. reflexivity. Qed.

Lemma GenContentBlocks_only_appends_witness :
  match GenContentBlocks index_templates http_Get_down url_Parse_fails
          opengraph_Fetch_down opengraph_ToAbsURL_id tm_hello
          [text_block BlockTypeParagraph; text_block BlockTypeParagraph] 0 fs_empty with
  | (_, Ok tm') => renders_onto tm_hello tm'
  | (_, Err _) => False
  end.
Proof.
  destruct (GenContentBlocks _ _ _ _ _ _ _ _ _) as [fs' [tm'|e]] eqn:H.
  - exact (GenContentBlocks_only_appends _ _ _ _ _ _ _ _ _ _ _ H).
  - vm_compute in H. discriminate H.
Defined.

Lemma generate_never_removes_witness :
  let r := generate latin1_To_LowerCase index_templates yaml_fails template_Parse_fails
             http_Get_down url_Parse_fails url_PathEscape_plain opengraph_Fetch_down
             opengraph_ToAbsURL_id page_hello [text_block BlockTypeParagraph]
             (markdown_config false) "posts/hello.md" "hello"
             (fs_with "posts/old.md" "old") in
  FS_grows (fs_with "posts/old.md" "old") (fst r)
  /\ FS_is_file (fst r) (filepath_Clean "posts/hello.md") = true.
Proof.
  cbv zeta.
  destruct (generate _ _ _ _ _ _ _ _ _ _ _ _ _ _ _) as [fs' r] eqn:H. cbn [fst].
  destruct (generate_never_removes _ _ _ _ _ _ _ _ _ _ _ _ _ _ _ _ _ H) as [H1 H2].
  split; [exact H1|]. apply H2.
  vm_compute in H. now injection H as _ <-.
Defined.

Lemma handlePage_missing_directory_witness :
  handlePage latin1_To_LowerCase index_templates yaml_fails template_Parse_fails
    http_Get_down url_Parse_fails url_PathEscape_plain opengraph_Fetch_down
    opengraph_ToAbsURL_id (example_config false true) page_hello
    [text_block BlockTypeParagraph] "1:hello" EmptyString fs_posts
  = (fs_posts,
     Err (Errorf "[%-30s] error generating blog post: %v" ["1:hello"]
            (Errorf "error create file: %s" []
               (PathError "open" "posts/2024-03-05/hello.md" ENOENT)))).
Proof.
  pose proof (handlePage_missing_directory
                latin1_To_LowerCase index_templates yaml_fails template_Parse_fails
                http_Get_down url_Parse_fails url_PathEscape_plain opengraph_Fetch_down
                opengraph_ToAbsURL_id (example_config false true) page_hello
                [text_block BlockTypeParagraph] "1:hello" EmptyString fs_posts) as H.
  cbv zeta in H. rewrite H.
  - vm_compute. reflexivity.
  - left. reflexivity.
  - vm_compute. reflexivity.
  - vm_compute. reflexivity.
  - vm_compute. reflexivity.
Defined.

Lemma loadCache_missing_file_witness :
  loadCache json_Unmarshal_plain "cache.json" fs_posts = (fs_posts, Ok defaultCache)
  /\ Pages defaultCache = ∅.
Proof.
  apply loadCache_missing_file. right. split; vm_compute; reflexivity.
Defined.

Lemma pagePipeline_records_page_witness :
  match snd (pagePipeline latin1_To_LowerCase index_templates yaml_fails
               template_Parse_fails http_Get_down url_Parse_fails url_PathEscape_plain
               opengraph_Fetch_down opengraph_ToAbsURL_id queryBlockChildren_paragraph
               changeStatus_never (example_config true false) 0 page_hello defaultCache 0
               fs_posts) with
  | Ok (cache', _) => Pages cache' !! "page-1"
  | Err _ => None
  end = Some (mkCacheEntry "2024-03-07T12:00:00Z" "hello.md").
Proof.
  destruct (pagePipeline _ _ _ _ _ _ _ _ _ _ _ _ _ _ _ _ _) as [fs' [[cache' changed']|e]]
    eqn:H; cbn [snd].
  - destruct (pagePipeline_records_page _ _ _ _ _ _ _ _ _ _ _ _ _ _ _ _ _ _ _ _ H)
      as [H1 _].
    change (Page_ID page_hello) with "page-1" in H1. rewrite H1.
    vm_compute. reflexivity.
  - vm_compute in H. discriminate H.
Defined.

Lemma rendered_page_is_skipped_next_witness :
  match pagePipeline latin1_To_LowerCase index_templates yaml_fails
          template_Parse_fails http_Get_down url_Parse_fails url_PathEscape_plain
          opengraph_Fetch_down opengraph_ToAbsURL_id queryBlockChildren_paragraph
          changeStatus_never (example_config true false) 0 page_hello defaultCache 0
          fs_posts with
  | (fs', Ok (cache', _)) =>
      cacheCheck latin1_To_LowerCase (example_config true false) cache' [page_hello] fs'
  | (_, Err _) => ([], 0)
  end = ([], 1).
Proof.
  destruct (pagePipeline _ _ _ _ _ _ _ _ _ _ _ _ _ _ _ _ _) as [fs' [[cache' changed']|e]]
    eqn:H.
  - eapply rendered_page_is_skipped_next; [|exact H]. reflexivity.
  - vm_compute in H. discriminate H.
Defined.

Lemma processSequential_cache_grows_witness :
  match snd (processSequential latin1_To_LowerCase index_templates yaml_fails
               template_Parse_fails http_Get_down url_Parse_fails url_PathEscape_plain
               opengraph_Fetch_down opengraph_ToAbsURL_id queryBlockChildren_paragraph
               changeStatus_never (example_config true false) 0 [page_hello; page_world]
               cache_AB 0 fs_posts) with
  | Ok (cache', _) => (Pages cache' !! "page-4", Pages cache' !! "A")
  | Err _ => (None, None)
  end = (Some (mkCacheEntry "2024-03-07T12:00:00Z" "world.md"),
         Some (mkCacheEntry "2024-03-07T12:00:00Z" "alpha.md")).
Proof.
  destruct (processSequential _ _ _ _ _ _ _ _ _ _ _ _ _ _ _ _) as [fs' [[cache' changed']|e]]
    eqn:H; cbn [snd].
  - destruct (processSequential_cache_grows _ _ _ _ _ _ _ _ _ _ _ _ _ _ _ _ _ _ _ _ H)
      as [H1 _].
    rewrite H1. vm_compute. reflexivity.
  - vm_compute in H. discriminate H.
Defined.

Lemma processSequential_stops_at_first_failure_witness :
  snd (processSequential latin1_To_LowerCase index_templates yaml_fails
         template_Parse_fails http_Get_down url_Parse_fails url_PathEscape_plain
         opengraph_Fetch_down opengraph_ToAbsURL_id queryBlockChildren_but_world
         changeStatus_never (example_config false false) 0
         ([page_hello] ++ page_world :: [page_renamed]) defaultCache 0 fs_posts)
  = Err (Errorf "[%-30s] error getting blocks: %v" ["2:world"] network_down).
Proof.
  destruct (processSequential latin1_To_LowerCase index_templates yaml_fails
              template_Parse_fails http_Get_down url_Parse_fails url_PathEscape_plain
              opengraph_Fetch_down opengraph_ToAbsURL_id queryBlockChildren_but_world
              changeStatus_never (example_config false false) 0 [page_hello]
              defaultCache 0 fs_posts) as [fs1 [st|e]] eqn:Hpre.
  - erewrite processSequential_stops_at_first_failure;
      [reflexivity|exact Hpre|reflexivity].
  - vm_compute in Hpre. discriminate Hpre.
Defined.

Lemma cacheCheck_keeps_uncached_pages_witness :
  cacheCheck latin1_To_LowerCase (example_config false false) cache_hello
    [page_hello; page_world] (fs_with "posts/hello.md" "hello")
  = ([page_hello; page_world], 0).
Proof.
  apply cacheCheck_keeps_uncached_pages. left. reflexivity.
Defined.

Lemma getPageTitle_single_title_property_witness :
  getPageTitle page_heading = "hello".
Proof.
  rewrite (getPageTitle_single_title_property page_heading
             [("Status", status_property); ("Heading", title_property "hello")]
             "Heading" (title_property "hello")).
  - vm_compute. reflexivity.
  - reflexivity.
  - right. left. reflexivity.
  - reflexivity.
  - intros kv [<-|[<-|[]]] Htitle; [discriminate Htitle|reflexivity].
Defined.

Lemma Run_failed_page_aborts_before_cache_is_saved_witness :
  Run latin1_To_LowerCase index_templates yaml_fails template_Parse_fails http_Get_down
    url_Parse_fails url_PathEscape_plain opengraph_Fetch_down opengraph_ToAbsURL_id
    json_MarshalIndent_plain json_Unmarshal_plain
    (fun _ => Ok [page_world]) queryBlockChildren_but_world changeStatus_never
    (example_config true false) [] None false fs_empty
  = (fs_posts, Err (Errorf "[%-30s] error getting blocks: %v" ["1:world"] network_down)).
Proof.
  apply (Run_failed_page_aborts_before_cache_is_saved
           latin1_To_LowerCase index_templates yaml_fails template_Parse_fails http_Get_down
           url_Parse_fails url_PathEscape_plain opengraph_Fetch_down opengraph_ToAbsURL_id
           json_MarshalIndent_plain json_Unmarshal_plain
           (fun _ => Ok [page_world]) queryBlockChildren_but_world changeStatus_never
           (example_config true false) [] None [page_world] [page_world] defaultCache 0
           fs_empty fs_posts fs_posts).
  - discriminate.
  - reflexivity.
  - vm_compute. reflexivity.
  - reflexivity.
  - vm_compute. reflexivity.
  - vm_compute. reflexivity.
  - vm_compute. reflexivity.
Defined.

Lemma Run_unloadable_cache_aborts_witness :
  let fs := mkFS {["cache.json" := "{"]} {["posts"]} in
  Run latin1_To_LowerCase index_templates yaml_fails template_Parse_fails http_Get_down
    url_Parse_fails url_PathEscape_plain opengraph_Fetch_down opengraph_ToAbsURL_id
    json_MarshalIndent_plain json_Unmarshal_fails
    (fun _ => Ok [page_hello]) queryBlockChildren_paragraph changeStatus_never
    (example_config true false) [] None true fs
  = (fs, Err (Errorf "failed loading cache file %q: %w" ["cache.json"]
                (ExternalError "invalid character"))).
Proof.
  cbv zeta.
  apply (Run_unloadable_cache_aborts
           latin1_To_LowerCase index_templates yaml_fails template_Parse_fails http_Get_down
           url_Parse_fails url_PathEscape_plain opengraph_Fetch_down opengraph_ToAbsURL_id
           json_MarshalIndent_plain json_Unmarshal_fails
           (fun _ => Ok [page_hello]) queryBlockChildren_paragraph changeStatus_never
           (example_config true false) [] None true [page_hello]).
  - discriminate.
  - reflexivity.
  - vm_compute. reflexivity.
  - reflexivity.
  - discriminate.
  - vm_compute. reflexivity.
Defined.

Lemma Run_without_cache_never_removes_witness :
  FS_grows (fs_with "posts/old.md" "old")
    (fst (Run latin1_To_LowerCase index_templates yaml_fails template_Parse_fails
            http_Get_down url_Parse_fails url_PathEscape_plain opengraph_Fetch_down
            opengraph_ToAbsURL_id json_MarshalIndent_plain json_Unmarshal_plain
            (fun _ => Ok [page_hello]) queryBlockChildren_paragraph changeStatus_never
            (example_config false false) [] None false (fs_with "posts/old.md" "old"))).
Proof.
  apply Run_without_cache_never_removes; reflexivity.
Defined.

Lemma saveTo_saves_the_body_witness :
  let fs' := fst (saveTo url_Parse_example tm_hello (mkResponse "PNG" None)
                    "https://example.com/a.png" "static/images/hello" fs_empty) in
  os_ReadFile "static/images/hello/example.com__a.png_a.png" fs' = (fs', Ok "PNG").
Proof.
  cbv zeta.
  destruct (saveTo _ _ _ _ _ _) as [fs' [p|e]] eqn:H; cbn [fst].
  - destruct (saveTo_saves_the_body _ _ _ _ _ _ _ _ H) as (u & Hu & Hrest).
    vm_compute in Hu. injection Hu as <-.
    cbv zeta in Hrest. destruct Hrest as (_ & Hread & _). exact Hread.
  - vm_compute in H. discriminate H.
Defined.

Lemma downloadImage_rewrites_one_url_witness :
  match downloadImage http_Get_png url_Parse_example tm_hello image_example fs_empty with
  | (_, Ok image') =>
      FileBlock_Type image' = FileTypeExternal /\ FileBlock_File_URL image' = EmptyString
  | (_, Err _) => False
  end.
Proof.
  destruct (downloadImage _ _ _ _ _) as [fs' [image'|e]] eqn:H.
  - destruct (downloadImage_rewrites_one_url _ _ _ _ _ _ _ H) as (Htype & Hext & _).
    split; [exact Htype|exact (proj1 (Hext eq_refl))].
  - vm_compute in H. discriminate H.
Defined.

(** The image is stored under the image directory of the page and the
    block is handed on with the public path of the stored file. *)
Example downloadImage_example :
  downloadImage http_Get_png url_Parse_example tm_hello image_example fs_empty
  = (mkFS {["static/images/hello/example.com__a.png_a.png" := "PNG"]}
       {["static/images/hello"; "static/images"; "static"]},
     Ok (mkFileBlock FileTypeExternal EmptyString
           "/images/hello/example.com__a.png_a.png")).
Proof. vm_compute. reflexivity. Qed.

Lemma bookmark_preview_stays_in_the_extra_map_witness :
  exists ex' : gmap string Value,
    GenContentBlocks_body http_Get_down url_Parse_fails (fun _ => Ok preview_with_images)
      opengraph_ToAbsURL_id (fun tm _ _ => ret tm) 0 tm_after_bookmark bookmark_block 0
      fs_empty
    = (fs_empty, Ok (set_extra tm_after_bookmark ex'))
    /\ ex' !! "Title" = Some (VString "Example")
    /\ ex' !! "Image" = Some (VString "https://example.com/card.png").
Proof.
  destruct (bookmark_preview_stays_in_the_extra_map http_Get_down url_Parse_fails
              (fun _ => Ok preview_with_images) opengraph_ToAbsURL_id
              (fun tm _ _ => ret tm) 0
              tm_after_bookmark bookmark_block bookmark_example 0 preview_with_images
              fs_empty eq_refl eq_refl eq_refl)
    as (ex' & Hbody & Htitle & _ & _ & Himage & _).
  exists ex'. split; [exact Hbody|]. split; [exact Htitle|].
  apply (Himage [None; Some (mkOGImage EmptyString)] "https://example.com/card.png"
           [Some (mkOGImage "https://example.com/other.png")]).
  - reflexivity.
  - repeat constructor.
  - discriminate.
Defined.

(** A preview without a usable image leaves the image of the earlier
    bookmark in the Extra map. *)
Example GenContentBlocks_body_keeps_earlier_image :
  match GenContentBlocks_body http_Get_down url_Parse_fails opengraph_Fetch_example
          opengraph_ToAbsURL_id (fun tm _ _ => ret tm) 0 tm_after_bookmark bookmark_block 0
          fs_empty with
  | (_, Ok tm') => extra tm' !! "Image"
  | _ => None
  end = Some (VString "https://example.com/earlier.png").
Proof. vm_compute. reflexivity. Qed.

Lemma Run_saves_the_updated_cache_witness :
  let r := Run latin1_To_LowerCase index_templates yaml_fails template_Parse_fails
             http_Get_down url_Parse_fails url_PathEscape_plain opengraph_Fetch_down
             opengraph_ToAbsURL_id json_MarshalIndent_plain json_Unmarshal_plain
             (fun _ => Ok [page_hello]) queryBlockChildren_paragraph changeStatus_never
             (example_config true false) [] None false fs_empty in
  snd r = Ok tt
  /\ (json_Unmarshal_plain <$> files (fst r) !! "cache.json")
     = Some (Ok (Some {["page-1" := mkCacheEntry "2024-03-07T12:00:00Z" "hello.md"]})).
Proof.
  cbv zeta.
  destruct (processSequential latin1_To_LowerCase index_templates yaml_fails
              template_Parse_fails http_Get_down url_Parse_fails url_PathEscape_plain
              opengraph_Fetch_down opengraph_ToAbsURL_id queryBlockChildren_paragraph
              changeStatus_never (example_config true false) 0 [page_hello]
              defaultCache 0 fs_posts) as [fs2 [[cache' changed]|e]] eqn:H.
  - rewrite (proj1 (Run_saves_the_updated_cache
                      latin1_To_LowerCase index_templates yaml_fails template_Parse_fails
                      http_Get_down url_Parse_fails url_PathEscape_plain
                      opengraph_Fetch_down opengraph_ToAbsURL_id json_MarshalIndent_plain
                      json_Unmarshal_plain (fun _ => Ok [page_hello])
                      queryBlockChildren_paragraph changeStatus_never
                      (example_config true false) [] None [page_hello] [page_hello]
                      defaultCache cache' 0 changed fs_empty fs_posts fs2
                      ltac:(discriminate) eq_refl eq_refl
                      ltac:(vm_compute; reflexivity) eq_refl
                      ltac:(vm_compute; reflexivity) ltac:(vm_compute; reflexivity)
                      ltac:(discriminate) H)).
    vm_compute in H. injection H as <- <- <-.
    split; vm_compute; reflexivity.
  - vm_compute in H. discriminate H.
Defined.

Lemma DefaultConfigInit_overwrites_env_witness :
  files (fst (DefaultConfigInit yaml_Marshal_Config_example fs_with_env)) !! ".env"
  = Some "NOTION_SECRET=xxxx".
Proof.
  destruct (DefaultConfigInit_overwrites_env yaml_Marshal_Config_example fs_with_env)
    as [_ H].
  destruct (H "notion: {}" eq_refl) as (_ & _ & Henv).
  apply Henv. vm_compute. reflexivity.
Defined.

Lemma GenBlock_renders_no_children_witness :
  GenBlock index_templates http_Get_down url_Parse_fails opengraph_Fetch_down
    opengraph_ToAbsURL_id New "heading_1"
    (mkMdBlock heading_with_child 0 {["SameBlockIdx" := VInt 0]}) fs_empty
  = (fs_empty, Ok (set_ContentBuffer New "0;")).
Proof.
  destruct (GenBlock_renders_no_children index_templates http_Get_down url_Parse_fails
              opengraph_Fetch_down opengraph_ToAbsURL_id New "heading_1"
              (mkMdBlock heading_with_child 0 {["SameBlockIdx" := VInt 0]}) fs_empty)
    as [_ H].
  erewrite H; [| reflexivity | vm_compute; reflexivity | right; vm_compute; intuition discriminate].
  reflexivity.
Defined.
